(** * Omnichain asset bridge: the relayer core

    A shallow embedding of the relayer of the bridge
    (relayer/src/db/index.js and the three listeners under
    relayer/src/listeners/) together with the properties of its
    durable store, confirmation gate, retry loop and recovery pass. *)

From Stdlib Require Import ZArith Lia Sorted.
From stdpp Require Import gmap strings list.

Local Open Scope string_scope.
Local Open Scope list_scope.
Local Open Scope Z_scope.

(** ** Number(...) on a uint256

    The listeners read the event's nonce (an ethers [bigint]) through
    JavaScript's [Number(...)].  On a BigInt that is the IEEE-754 double
    nearest to the integer, ties going to the even significand.  Every
    double of magnitude at least 2^53 is an integer, so the result is
    kept here as the integer it denotes.  A uint256 is below 2^1024, so
    the conversion never overflows to Infinity. *)

Definition Number (n : Z) : Z :=
  if n <? 2 ^ 53 then n
  else
    let sh := Z.log2 n - 52 in
    let q := Z.shiftr n sh in
    let r := Z.land n (Z.ones sh) in
    let half := Z.shiftl 1 (sh - 1) in
    let q' := if (half <? r) || ((r =? half) && Z.odd q) then q + 1 else q in
    Z.shiftl q' sh.

(** ** Durable state store (relayer/src/db/index.js) *)

Module RelayerDB.

(** A row of [processed_events].  The [created_at] column is filled by
    SQLite's clock and read by nothing; it is left out. *)
Record row : Type := Row {
  nonce : Z;
  chain : string;
  tx_hash : string;
  event_type : string
}.

(** The two tables made by [_initTables]: [processed_events] with
    PRIMARY KEY (nonce, chain, event_type), kept as the list of its rows
    in insertion order, and [block_cursors] with PRIMARY KEY chain. *)
Record t : Type := Db {
  processed_events : list row;
  block_cursors : gmap string Z
}.

(** A store on which [_initTables] has just created both tables. *)
Definition empty : t := Db [] ∅.

Definition primary_key (r : row) : Z * string * string :=
  (nonce r, chain r, event_type r).

(** WHERE nonce = ? AND chain = ? AND event_type = ? *)
Definition where_key (n : Z) (c e : string) (r : row) : bool :=
  (nonce r =? n) && String.eqb (chain r) c && String.eqb (event_type r) e.

(** SELECT 1 FROM processed_events WHERE ...; [!!row] *)
Definition isProcessed (db : t) (n : Z) (c e : string) : bool :=
  existsb (where_key n c e) (processed_events db).

(** INSERT OR IGNORE INTO processed_events: a row whose primary key is
    already present is dropped, any other row is added. *)
Definition insert_or_ignore (r : row) (rows : list row) : list row :=
  if existsb (where_key (nonce r) (chain r) (event_type r)) rows
  then rows
  else rows ++ [r].

Definition markProcessed (db : t) (n : Z) (c txHash e : string) : t :=
  Db (insert_or_ignore (Row n c txHash e) (processed_events db))
     (block_cursors db).

(** SELECT last_block ...; [row ? row.last_block : 0] *)
Definition getLastBlock (db : t) (c : string) : Z :=
  match block_cursors db !! c with
  | Some last_block => last_block
  | None => 0
  end.

(** INSERT OR REPLACE INTO block_cursors *)
Definition setLastBlock (db : t) (c : string) (blockNumber : Z) : t :=
  Db (processed_events db) (<[c := blockNumber]> (block_cursors db)).

(** The tx hash stored under a primary key, if any. *)
Definition stored_tx_hash (db : t) (n : Z) (c e : string) : option string :=
  tx_hash <$> List.find (where_key n c e) (processed_events db).

(** A write to the store, and a sequence of writes applied in order. *)
Inductive write : Type :=
| WMark (n : Z) (c txHash e : string)
| WCursor (c : string) (blockNumber : Z).

Definition apply_write (db : t) (wr : write) : t :=
  match wr with
  | WMark n c txHash e => markProcessed db n c txHash e
  | WCursor c blockNumber => setLastBlock db c blockNumber
  end.

Definition apply_writes (db : t) (ws : list write) : t :=
  foldl apply_write db ws.

(** Number of rows stored under one primary key. *)
Definition marks (db : t) (n : Z) (c e : string) : nat :=
  length (filter (fun r => where_key n c e r = true) (processed_events db)).

End RelayerDB.

(** ** Destination calls and what comes back from them *)

(** The three contract functions a listener submits. *)
Inductive DestCall : Type :=
| mintWrapped (user : string) (amount nonce : Z)
| unlock (user : string) (amount nonce : Z)
| pauseBridge.

(** What a rejected submission throws: the custom errors of BridgeMint
    and BridgeLock, the access-control error, or anything else (RPC
    failure, timeout), carried by its message. *)
Inductive TxError : Type :=
| NonceAlreadyProcessed (nonce : Z)
| ZeroAmount
| AccessControlUnauthorizedAccount
| OtherError (message : string).

(** [await contract.f(...)] followed by [await tx.wait()]: a mined
    receipt with its hash, or an exception. *)
Inductive Outcome : Type :=
| Mined (hash : string)
| Threw (err : TxError).

(** ** Observable effects

    Each [this.log(`...`)] of the listeners is one constructor, carrying
    of the values interpolated into its template the nonce or proposal id,
    the tx hash, the attempt number, the error, the selector or the block
    range; the Lock and Burn listeners word their entries differently and
    share the constructors. *)
Inductive LogMsg : Type :=
| RecoveryScanning (fromBlock toBlock : Z)
| NotYetConfirmed (nonce : Z)
| AlreadyProcessed (nonce : Z)
| Processing (nonce : Z)
| ProcessingProposal (proposalId : Z) (selector : string)
| Successful (nonce : Z) (hash : string)
| AttemptFailed (attempt : Z) (err : TxError)
| Critical (nonce : Z)
| UnknownSelector (selector : string).

Inductive Effect : Type :=
| Log (m : LogMsg)
| Sleep (ms : Z)
| Submit (c : DestCall) (o : Outcome)
| MarkProcessed (n : Z) (c txHash e : string)
| SetLastBlock (c : string) (blockNumber : Z).

(** The destination calls of a trace, oldest first. *)
Definition submitted (tr : list Effect) : list DestCall :=
  omap (fun e => match e with Submit c _ => Some c | _ => None end) tr.

(** The destination calls of a trace that were mined. *)
Definition mined (tr : list Effect) : list DestCall :=
  omap (fun e => match e with Submit c (Mined _) => Some c | _ => None end) tr.

(** The nonce argument of a destination call. *)
Definition call_nonce (c : DestCall) : option Z :=
  match c with
  | mintWrapped _ _ nonce => Some nonce
  | unlock _ _ nonce => Some nonce
  | pauseBridge => None
  end.

(** The mined destination calls of a trace that carry nonce [n]. *)
Definition mined_with_nonce (n : Z) (tr : list Effect) : list DestCall :=
  filter (fun c => call_nonce c = Some n) (mined tr).

(** The values written to the cursor of stream [c], oldest first. *)
Definition cursor_writes (c : string) (tr : list Effect) : list Z :=
  omap (fun e => match e with
                 | SetLastBlock c' b => if String.eqb c' c then Some b else None
                 | _ => None
                 end) tr.

(** The nonces logged as not yet confirmed, oldest first. *)
Definition gate_logs (tr : list Effect) : list Z :=
  omap (fun e => match e with Log (NotYetConfirmed n) => Some n | _ => None end) tr.

(** The effects a run added, given the traces before and after it. *)
Definition added (before after : list Effect) : list Effect :=
  drop (length before) after.

(** The state a listener runs in: its store, the destination ledger and
    the effects performed so far, oldest first. *)
Record World (DState : Type) : Type := MkWorld {
  db : RelayerDB.t;
  dest : DState;
  trace : list Effect
}.
Arguments MkWorld {DState} _ _ _.
Arguments db {DState} _.
Arguments dest {DState} _.
Arguments trace {DState} _.

Definition MAX_RETRIES : Z := 3.
Definition RETRY_DELAY_MS : Z := 2000.

(** What the retry loops of the three listeners differ in. *)
Record Job : Type := MkJob {
  job_call : DestCall;
  job_nonce : Z;
  job_chain : string;
  job_event_type : string;
  job_cursor : string;
  job_block : Z
}.

Section Pipeline.

Context {DState : Type}.
(** The destination ledger: any state machine answering a submitted
    call. *)
Variable submit : DState -> DestCall -> DState * Outcome.

Definition log (m : LogMsg) (w : World DState) : World DState :=
  MkWorld (db w) (dest w) (trace w ++ [Log m]).

Definition sleep (ms : Z) (w : World DState) : World DState :=
  MkWorld (db w) (dest w) (trace w ++ [Sleep ms]).

Definition markProcessed (n : Z) (c txHash e : string) (w : World DState)
  : World DState :=
  MkWorld (RelayerDB.markProcessed (db w) n c txHash e) (dest w)
          (trace w ++ [MarkProcessed n c txHash e]).

Definition setLastBlock (c : string) (blockNumber : Z) (w : World DState)
  : World DState :=
  MkWorld (RelayerDB.setLastBlock (db w) c blockNumber) (dest w)
          (trace w ++ [SetLastBlock c blockNumber]).

Definition send (c : DestCall) (w : World DState) : World DState * Outcome :=
  let '(d, o) := submit (dest w) c in
  (MkWorld (db w) d (trace w ++ [Submit c o]), o).

(** [for (let attempt = 1; attempt <= MAX_RETRIES; attempt++) { try ...
    catch ... }], entered at [attempt] with [remaining] iterations
    left. *)
Fixpoint retry_loop (remaining : nat) (attempt : Z) (j : Job)
    (w : World DState) : World DState :=
  match remaining with
  | O => w
  | S remaining' =>
    let '(w1, o) := send (job_call j) w in
    match o with
    | Mined hash =>
      let w2 := markProcessed (job_nonce j) (job_chain j) hash
                              (job_event_type j) w1 in
      let w3 := setLastBlock (job_cursor j) (job_block j) w2 in
      log (Successful (job_nonce j) hash) w3
    | Threw err =>
      let w2 := log (AttemptFailed attempt err) w1 in
      let w3 := if attempt <? MAX_RETRIES
                then sleep RETRY_DELAY_MS w2
                else log (Critical (job_nonce j)) w2 in
      retry_loop remaining' (attempt + 1) j w3
    end
  end.

Definition submit_with_retry (j : Job) (w : World DState) : World DState :=
  retry_loop (Z.to_nat MAX_RETRIES) 1 j w.

(** What the destination answers to [k] successive submissions of the
    same call from state [d]: the hash of the first one mined, if
    any ... *)
Fixpoint first_mined (k : nat) (d : DState) (c : DestCall) : option string :=
  match k with
  | O => None
  | S k' =>
    match submit d c with
    | (_, Mined hash) => Some hash
    | (d', Threw _) => first_mined k' d' c
    end
  end.

(** ... and the errors thrown, when all [k] of them throw. *)
Fixpoint attempt_errors (k : nat) (d : DState) (c : DestCall)
    : option (list TxError) :=
  match k with
  | O => Some []
  | S k' =>
    match submit d c with
    | (_, Mined _) => None
    | (d', Threw err) => cons err <$> attempt_errors k' d' c
    end
  end.

End Pipeline.

(** ** The Lock and Burn listeners

    lockListener.js and burnListener.js are the same program up to the
    contract they watch, the function they call and the string literals
    they hand to the store; [Listener] is that program with those
    literals as the parameter [names]. *)

Module Listener.

(** An event log with its parsed arguments
    ([parseLog(...).args.user], [.amount], [.nonce]). *)
Record EventLog : Type := MkEventLog {
  blockNumber : Z;
  user : string;
  amount : Z;
  nonce : Z
}.

Record Names : Type := MkNames {
  cursor : string;
  chain : string;
  event_type : string;
  destination : string -> Z -> Z -> DestCall
}.

(** What the provider and the watched contract answer during one
    recovery pass: the head and the contract's event logs in ledger
    order. *)
Record Source : Type := MkSource {
  getBlockNumber : Z;
  logs : list EventLog
}.

(** [contract.queryFilter(filter, fromBlock, toBlock)]: the logs of the
    inclusive block range, in ledger order. *)
Definition queryFilter (src : Source) (fromBlock toBlock : Z) : list EventLog :=
  filter (fun ev => fromBlock <= blockNumber ev <= toBlock) (logs src).

Section Defs.

Context {DState : Type}.
Variable submit : DState -> DestCall -> DState * Outcome.
Variable names : Names.
Variable confirmationDepth : Z.

Definition _handleEvent (event : EventLog) (currentBlock : Z)
    (w : World DState) : World DState :=
  let user := user event in
  let amount := amount event in
  let nonce := Number (nonce event) in
  if currentBlock - blockNumber event <? confirmationDepth then
    log (NotYetConfirmed nonce) w
  else if RelayerDB.isProcessed (db w) nonce (chain names) (event_type names) then
    log (AlreadyProcessed nonce) w
  else
    submit_with_retry submit
      (MkJob (destination names user amount nonce) nonce (chain names)
             (event_type names) (cursor names) (blockNumber event))
      (log (Processing nonce) w).

(** [for (const event of events) await this._handleEvent(event,
    currentBlock)] *)
Definition handle_all (events : list EventLog) (currentBlock : Z)
    (w : World DState) : World DState :=
  foldl (fun w event => _handleEvent event currentBlock w) w events.

Definition recoverMissedEvents (src : Source) (w : World DState)
    : World DState :=
  let lastBlock := RelayerDB.getLastBlock (db w) (cursor names) in
  let currentBlock := getBlockNumber src in
  if lastBlock >=? currentBlock then w
  else
    let w1 := log (RecoveryScanning (lastBlock + 1) currentBlock) w in
    let events := queryFilter src (lastBlock + 1) currentBlock in
    let w2 := handle_all events currentBlock w1 in
    setLastBlock (cursor names) currentBlock w2.

(** [while (true)] over the successive answers [polls] of
    [getBlockNumber]; [None] when every answer given was below the
    target, the loop then still being asleep. *)
Fixpoint _waitForConfirmation (polls : list Z) (eventLog : EventLog)
    (w : World DState) : option (World DState) :=
  let targetBlock := blockNumber eventLog + confirmationDepth in
  match polls with
  | [] => None
  | currentBlock :: polls' =>
    if currentBlock >=? targetBlock then
      Some (_handleEvent eventLog currentBlock w)
    else
      _waitForConfirmation polls' eventLog (sleep 1000 w)
  end.

End Defs.

End Listener.

Module LockListener.

Definition names : Listener.Names :=
  Listener.MkNames "chainA_lock" "chainA" "Locked" mintWrapped.

Definition _handleEvent {DState} submit := @Listener._handleEvent DState submit names.
Definition recoverMissedEvents {DState} submit :=
  @Listener.recoverMissedEvents DState submit names.
Definition _waitForConfirmation {DState} submit :=
  @Listener._waitForConfirmation DState submit names.

End LockListener.

Module BurnListener.

Definition names : Listener.Names :=
  Listener.MkNames "chainB_burn" "chainB" "Burned" unlock.

Definition _handleEvent {DState} submit := @Listener._handleEvent DState submit names.
Definition recoverMissedEvents {DState} submit :=
  @Listener.recoverMissedEvents DState submit names.
Definition _waitForConfirmation {DState} submit :=
  @Listener._waitForConfirmation DState submit names.

End BurnListener.

(** ** The governance listener (governanceListener.js) *)

Module GovernanceListener.

(** A ProposalPassed log with its parsed arguments; [data] is the hex
    string ethers gives for [bytes]. *)
Record EventLog : Type := MkEventLog {
  blockNumber : Z;
  proposalId : Z;
  data : string
}.

Record Source : Type := MkSource {
  getBlockNumber : Z;
  logs : list EventLog
}.

Definition queryFilter (src : Source) (fromBlock toBlock : Z) : list EventLog :=
  filter (fun ev => fromBlock <= blockNumber ev <= toBlock) (logs src).

(** [s.slice(0, n)] *)
Definition slice0 (n : nat) (s : string) : string := String.substring 0 n s.

Section Defs.

Context {DState : Type}.
Variable submit : DState -> DestCall -> DState * Outcome.
Variable confirmationDepth : Z.

Definition _executePauseBridge (proposalId : Z) (log : EventLog)
    (w : World DState) : World DState :=
  submit_with_retry submit
    (MkJob pauseBridge proposalId "chainB" "ProposalPassed"
           "chainB_governance" (blockNumber log))
    w.

Definition _handleEvent (event : EventLog) (currentBlock : Z)
    (w : World DState) : World DState :=
  let proposalId := Number (proposalId event) in
  let data := data event in
  if currentBlock - blockNumber event <? confirmationDepth then
    log (NotYetConfirmed proposalId) w
  else if RelayerDB.isProcessed (db w) proposalId "chainB" "ProposalPassed" then
    log (AlreadyProcessed proposalId) w
  else
    let selector := slice0 10 data in
    let pauseSelector := "0x6b9a13e3" in
    let w1 := log (ProcessingProposal proposalId selector) w in
    if String.eqb selector pauseSelector then
      _executePauseBridge proposalId event w1
    else
      log (UnknownSelector selector) w1.

Definition handle_all (events : list EventLog) (currentBlock : Z)
    (w : World DState) : World DState :=
  foldl (fun w event => _handleEvent event currentBlock w) w events.

Definition recoverMissedEvents (src : Source) (w : World DState)
    : World DState :=
  let lastBlock := RelayerDB.getLastBlock (db w) "chainB_governance" in
  let currentBlock := getBlockNumber src in
  if lastBlock >=? currentBlock then w
  else
    let w1 := log (RecoveryScanning (lastBlock + 1) currentBlock) w in
    let events := queryFilter src (lastBlock + 1) currentBlock in
    let w2 := handle_all events currentBlock w1 in
    setLastBlock "chainB_governance" currentBlock w2.

Fixpoint _waitForConfirmation (polls : list Z) (eventLog : EventLog)
    (w : World DState) : option (World DState) :=
  let targetBlock := blockNumber eventLog + confirmationDepth in
  match polls with
  | [] => None
  | currentBlock :: polls' =>
    if currentBlock >=? targetBlock then
      Some (_handleEvent eventLog currentBlock w)
    else
      _waitForConfirmation polls' eventLog (sleep 1000 w)
  end.

End Defs.

End GovernanceListener.

(** ** Destinations

    [always o] answers every submission with [o].  [BridgeMint.submit]
    is what the Lock listener's call [bridgeMint.mintWrapped(user, amount,
    nonce)] meets, the relayer's account holding RELAYER_ROLE.  The nonce
    is a JavaScript number: ethers encodes it only when it is at most
    [MAX_SAFE_INTEGER] and throws "overflow" otherwise, before anything is
    sent.  Then comes [mintWrapped] of BridgeMint.sol: the replay map
    [processedMintNonces], the two reverts in the order the contract checks
    them, and [hash] for the transaction when it is mined. *)

Definition MAX_SAFE_INTEGER : Z := 2 ^ 53 - 1.

Definition always (o : Outcome) (d : unit) (c : DestCall) : unit * Outcome :=
  (d, o).

Module BridgeMint.

Definition submit (hash : string) (processedMintNonces : gset Z) (c : DestCall)
    : gset Z * Outcome :=
  match c with
  | mintWrapped user amount nonce =>
    if MAX_SAFE_INTEGER <? nonce then
      (processedMintNonces, Threw (OtherError "overflow"))
    else if decide (nonce ∈ processedMintNonces) then
      (processedMintNonces, Threw (NonceAlreadyProcessed nonce))
    else if amount =? 0 then
      (processedMintNonces, Threw ZeroAmount)
    else
      ({[nonce]} ∪ processedMintNonces, Mined hash)
  | _ => (processedMintNonces, Threw (OtherError "no matching function"))
  end.

End BridgeMint.

(** Running a listener's handler over a sequence of deliveries, each
    with the head it is checked against. *)
Definition deliver {DState} (submit : DState -> DestCall -> DState * Outcome)
    (names : Listener.Names) (confirmationDepth : Z)
    (deliveries : list (Listener.EventLog * Z)) (w : World DState)
    : World DState :=
  foldl (fun w d => Listener._handleEvent submit names confirmationDepth d.1 d.2 w)
        w deliveries.

(** The logs of a source are in ascending block order, as a ledger
    returns them. *)
Definition ascending (events : list Listener.EventLog) : Prop :=
  StronglySorted (fun a b => Listener.blockNumber a <= Listener.blockNumber b) events.

(** Every nonce has at most one mined call in the trace, and a nonce
    with a mined call is marked in the store. *)
Definition mined_once {DState} (names : Listener.Names) (w : World DState) : Prop :=
  forall n,
    (length (mined_with_nonce n (trace w)) <= 1)%nat
    /\ (mined_with_nonce n (trace w) <> [] ->
        RelayerDB.isProcessed (db w) n (Listener.chain names)
                              (Listener.event_type names) = true).

(** ** Sample inputs

    The lock of scenario 1 (100 tokens at block 50, nonce 0), a store
    whose Lock cursor is at block 40, and worlds over the destinations
    above. *)

Module Sample.

Definition account : string := "0xf39Fd6e51aad88F6F4ce6aB8827279cffFb92266".

Definition locked0 : Listener.EventLog := Listener.MkEventLog 50 account 100 0.

Definition call0 : DestCall := mintWrapped account 100 0.

Definition db40 : RelayerDB.t := RelayerDB.setLastBlock RelayerDB.empty "chainA_lock" 40.

(** A world over an [always] destination, before any effect. *)
Definition world (db0 : RelayerDB.t) : World unit := MkWorld db0 tt [].

(** BridgeMint after nonce 0 was minted, as when the relayer stopped
    between the mined transaction and its own mark. *)
Definition minted0 (db0 : RelayerDB.t) : World (gset Z) := MkWorld db0 {[ 0 ]} [].

Definition timeout : Outcome := Threw (OtherError "timeout").

Definition tx1 : string := "0xa1".

(** A second lock, two blocks after the first. *)
Definition locked1 : Listener.EventLog := Listener.MkEventLog 52 account 7 1.

(** Scenario 6: proposal 1, passed at block 51, whose data begins with a
    selector other than that of [pauseBridge()]. *)
Definition passed1 : GovernanceListener.EventLog :=
  GovernanceListener.MkEventLog 51 1 "0xdeadbeef".

End Sample.

(** ** Reading the store and the trace

    What a history of writes holds for one key, and what a trace holds of
    the exchange with the destination. *)

(** The tx hashes that the [markProcessed] calls of a history bring for
    one primary key, oldest first. *)
Definition mark_hashes (n : Z) (c e : string) (ws : list RelayerDB.write)
    : list string :=
  omap (fun wr => match wr with
                  | RelayerDB.WMark n' c' tx e' =>
                    if RelayerDB.where_key n c e (RelayerDB.Row n' c' tx e')
                    then Some tx else None
                  | RelayerDB.WCursor _ _ => None
                  end) ws.

(** The block numbers that the [setLastBlock] calls of a history bring for
    one stream, oldest first. *)
Definition cursor_values (c : string) (ws : list RelayerDB.write) : list Z :=
  omap (fun wr => match wr with
                  | RelayerDB.WCursor c' b => if String.eqb c' c then Some b else None
                  | RelayerDB.WMark _ _ _ _ => None
                  end) ws.

(** The effects of one failed attempt of the retry loop, its sleep or
    CRITICAL entry apart, and of the attempt that is mined. *)
Definition failed_attempt (c : DestCall) (attempt : Z) (err : TxError) : list Effect :=
  [Submit c (Threw err); Log (AttemptFailed attempt err)].

Definition relayed (j : Job) (hash : string) : list Effect :=
  [Submit (job_call j) (Mined hash);
   MarkProcessed (job_nonce j) (job_chain j) hash (job_event_type j);
   SetLastBlock (job_cursor j) (job_block j);
   Log (Successful (job_nonce j) hash)].

(** The submissions of a trace with their outcomes, oldest first. *)
Definition submissions (tr : list Effect) : list (DestCall * Outcome) :=
  omap (fun e => match e with Submit c o => Some (c, o) | _ => None end) tr.

(** [l] is what the destination answers, call by call, when started in
    [d], and [d_end] is where that leaves it. *)
Fixpoint follows {DState} (submit : DState -> DestCall -> DState * Outcome)
    (d : DState) (l : list (DestCall * Outcome)) (d_end : DState) : Prop :=
  match l with
  | [] => d_end = d
  | (c, o) :: l' => exists d', submit d c = (d', o) /\ follows submit d' l' d_end
  end.

(** The nonces of the [mintWrapped] calls among submissions that were
    mined, oldest first. *)
Definition minted_nonces (l : list (DestCall * Outcome)) : list Z :=
  omap (fun co => match co with
                  | (mintWrapped _ _ nonce, Mined _) => Some nonce
                  | _ => None
                  end) l.

(** Two stores agree outside one stream: on the other cursors and on the
    marks of the other (chain, event type) pairs. *)
Definition same_elsewhere (cur ch ev : string) (a b : RelayerDB.t) : Prop :=
  (forall c, c <> cur -> RelayerDB.getLastBlock a c = RelayerDB.getLastBlock b c)
  /\ (forall n c' e', (c', e') <> (ch, ev) ->
        RelayerDB.isProcessed a n c' e' = RelayerDB.isProcessed b n c' e').

(** ** Start-up helpers (relayer/src/index.js) *)

Module Index.

(** The entries [waitForRpc] and [loadDeployments] log, and their
    sleeps. *)
Inductive InitLog : Type :=
| RpcReady (name : string)
| WaitingForRpc (name : string) (attempt maxRetries : nat)
| WaitingForDeployments (attempt : nat).

Inductive InitEffect : Type :=
| ILog (m : InitLog)
| ISleep (ms : Z).

(** The milliseconds slept in a run. *)
Definition slept (tr : list InitEffect) : Z :=
  foldr (fun e acc => match e with ISleep ms => ms + acc | ILog _ => acc end) 0 tr.

(** The provider returned, or the Error thrown after the loop. *)
Inductive RpcResult : Type :=
| Provider
| RpcNotAvailable (name : string) (maxRetries : nat).

(** [for (let i = 0; i < maxRetries; i++) { try { await
    provider.getBlockNumber(); ... return provider } catch { ...; await
    sleep 2000 } } throw ...], entered at [i] with [remaining] iterations
    left; [answers i] tells whether the call of iteration [i] succeeds. *)
Fixpoint waitForRpc_from (answers : nat -> bool) (name : string) (maxRetries : nat)
    (remaining i : nat) : RpcResult * list InitEffect :=
  match remaining with
  | O => (RpcNotAvailable name maxRetries, [])
  | S remaining' =>
    if answers i then (Provider, [ILog (RpcReady name)])
    else
      let '(r, tr) := waitForRpc_from answers name maxRetries remaining' (S i) in
      (r, ILog (WaitingForRpc name (i + 1) maxRetries) :: ISleep 2000 :: tr)
  end.

Definition waitForRpc (answers : nat -> bool) (name : string) (maxRetries : nat)
    : RpcResult * list InitEffect :=
  waitForRpc_from answers name maxRetries maxRetries 0.

(** What [loadDeployments] finds at its check number [i]: whether each of
    chainA.json and chainB.json exists, and what the two hold once
    parsed. *)
Record Files (A : Type) : Type := MkFiles {
  existsA : bool;
  existsB : bool;
  parsedA : A;
  parsedB : A
}.
Arguments MkFiles {A} _ _ _ _.
Arguments existsA {A} _.
Arguments existsB {A} _.
Arguments parsedA {A} _.
Arguments parsedB {A} _.

(** [for (let i = 0; i < 60; i++) { if (existsSync(A) && existsSync(B))
    return { chainA, chainB }; ...; await sleep 2000 } throw ...]; [None]
    is the Error thrown after the loop. *)
Fixpoint loadDeployments_from {A} (fs : nat -> Files A) (remaining i : nat)
    : option (A * A) * list InitEffect :=
  match remaining with
  | O => (None, [])
  | S remaining' =>
    if existsA (fs i) && existsB (fs i) then
      (Some (parsedA (fs i), parsedB (fs i)), [])
    else
      let '(r, tr) := loadDeployments_from fs remaining' (S i) in
      (r, ILog (WaitingForDeployments (i + 1)) :: ISleep 2000 :: tr)
  end.

Definition loadDeployments {A} (fs : nat -> Files A) : option (A * A) * list InitEffect :=
  loadDeployments_from fs 60 0.

End Index.

(** ** The contracts

    The Solidity contracts the relayer watches and calls.  A call returns
    [inl] with the error it reverts with, the state then being what it was,
    or [inr] with the new state and the event emitted.  [uint256]
    arithmetic is checked (Solidity 0.8): an overflow reverts with a Panic.
    [msg.sender] and [block.number] are arguments.  Of OpenZeppelin the
    contracts use role checks ([onlyRole]: the holders of a role are a set
    in the state), [Pausable] (a flag, [whenNotPaused] and [whenPaused]) and
    the tokens, whose calls are represented by whether they go through. *)

Definition address : Type := string.

Definition MAX_UINT256 : Z := 2 ^ 256 - 1.

(** *** GovernanceVoting.sol *)

Module GovernanceVoting.

Definition QUORUM : Z := 1.
Definition VOTING_PERIOD : Z := 10.

Record Proposal : Type := MkProposal {
  description : string;
  data : string;
  votesFor : Z;
  votesAgainst : Z;
  deadline : Z;
  executed : bool;
  proposer : address
}.

Record t : Type := Mk {
  proposalCount : Z;
  proposals : gmap Z Proposal;
  hasVoted : gset (Z * address)
}.

Inductive Revert : Type :=
| ProposalNotActive (proposalId : Z)
| AlreadyVoted (proposalId : Z)
| ProposalAlreadyExecuted (proposalId : Z)
| ProposalNotPassed (proposalId : Z)
| VotingNotEnded (proposalId : Z)
| NoVotingPower
| Panic.

Inductive Event : Type :=
| ProposalCreated (proposalId : Z) (description data : string)
| Voted (proposalId : Z) (voter : address) (support : bool) (weight : Z)
| ProposalPassed (proposalId : Z) (data : string).

(** The contract as deployed. *)
Definition deployed : t := Mk 0 ∅ ∅.

(** [proposals[proposalId]]: a slot never written reads as zeroes. *)
Definition unset : Proposal :=
  MkProposal "" "" 0 0 0 false "0x0000000000000000000000000000000000000000".

Definition proposal_at (st : t) (proposalId : Z) : Proposal :=
  default unset (proposals st !! proposalId).

Definition createProposal (st : t) (sender : address) (blockNumber : Z)
    (description data : string) : Revert + t * Event :=
  let proposalId := proposalCount st in
  if proposalCount st =? MAX_UINT256 then inl Panic
  else if MAX_UINT256 - VOTING_PERIOD <? blockNumber then inl Panic
  else
    inr (Mk (proposalCount st + 1)
            (<[proposalId := MkProposal description data 0 0
                               (blockNumber + VOTING_PERIOD) false sender]>
               (proposals st))
            (hasVoted st),
         ProposalCreated proposalId description data).

(** [weight] is [votingToken.balanceOf(msg.sender)] at the time of the
    call. *)
Definition vote (st : t) (sender : address) (blockNumber weight proposalId : Z)
    (support : bool) : Revert + t * Event :=
  let proposal := proposal_at st proposalId in
  if deadline proposal <? blockNumber then inl (ProposalNotActive proposalId)
  else if bool_decide ((proposalId, sender) ∈ hasVoted st) then
    inl (AlreadyVoted proposalId)
  else if weight =? 0 then inl NoVotingPower
  else if MAX_UINT256 - weight
          <? (if support then votesFor proposal else votesAgainst proposal) then
    inl Panic
  else
    let proposal' :=
      if support then
        MkProposal (description proposal) (data proposal) (votesFor proposal + weight)
                   (votesAgainst proposal) (deadline proposal) (executed proposal)
                   (proposer proposal)
      else
        MkProposal (description proposal) (data proposal) (votesFor proposal)
                   (votesAgainst proposal + weight) (deadline proposal)
                   (executed proposal) (proposer proposal) in
    inr (Mk (proposalCount st) (<[proposalId := proposal']> (proposals st))
            ({[ (proposalId, sender) ]} ∪ hasVoted st),
         Voted proposalId sender support weight).

Definition executeProposal (st : t) (blockNumber proposalId : Z) : Revert + t * Event :=
  let proposal := proposal_at st proposalId in
  if executed proposal then inl (ProposalAlreadyExecuted proposalId)
  else if blockNumber <=? deadline proposal then inl (VotingNotEnded proposalId)
  else if votesFor proposal <=? votesAgainst proposal then
    inl (ProposalNotPassed proposalId)
  else if votesFor proposal <? QUORUM then inl (ProposalNotPassed proposalId)
  else
    inr (Mk (proposalCount st)
            (<[proposalId := MkProposal (description proposal) (data proposal)
                               (votesFor proposal) (votesAgainst proposal)
                               (deadline proposal) true (proposer proposal)]>
               (proposals st))
            (hasVoted st),
         ProposalPassed proposalId (data proposal)).

(** A transaction to the contract, and a ledger of them, each with the
    number of the block that includes it. *)
Inductive Call : Type :=
| CreateProposal (sender : address) (description data : string)
| Vote (sender : address) (weight proposalId : Z) (support : bool)
| ExecuteProposal (sender : address) (proposalId : Z).

Definition call (st : t) (blockNumber : Z) (c : Call) : Revert + t * Event :=
  match c with
  | CreateProposal sender description data =>
    createProposal st sender blockNumber description data
  | Vote sender weight proposalId support =>
    vote st sender blockNumber weight proposalId support
  | ExecuteProposal _ proposalId => executeProposal st blockNumber proposalId
  end.

(** The state after a ledger and the events it emitted, oldest first; a
    reverted transaction changes nothing and emits nothing. *)
Fixpoint run (st : t) (txs : list (Z * Call)) : t * list Event :=
  match txs with
  | [] => (st, [])
  | (blockNumber, c) :: txs' =>
    match call st blockNumber c with
    | inl _ => run st txs'
    | inr (st', e) => let '(st'', es) := run st' txs' in (st'', e :: es)
    end
  end.

(** The data of the ProposalPassed events of a proposal, and the votes
    recorded by the Voted events of a voter on a proposal, among events. *)
Definition passed (proposalId : Z) (es : list Event) : list string :=
  omap (fun e => match e with
                 | ProposalPassed p d => if p =? proposalId then Some d else None
                 | _ => None
                 end) es.

Definition votes_of (proposalId : Z) (voter : address) (es : list Event)
    : list (bool * Z) :=
  omap (fun e => match e with
                 | Voted p v s w =>
                   if (p =? proposalId) && String.eqb v voter then Some (s, w) else None
                 | _ => None
                 end) es.

End GovernanceVoting.

(** Every proposal stored has an id below [proposalCount], as in every
    state reached from deployment by transactions of blocks 1 and up. *)
Definition indexed (st : GovernanceVoting.t) : Prop :=
  forall id pr, GovernanceVoting.proposals st !! id = Some pr ->
                id < GovernanceVoting.proposalCount st.

(** No transaction sits in block 0, the genesis block. *)
Definition after_genesis {C : Type} (txs : list (Z * C)) : Prop :=
  Forall (fun tx => 1 <= fst tx) txs.

(** A ledger of the governance contract: a pause is proposed, voted for,
    executed after the deadline, and executed once more. *)
Definition pause_ledger : list (Z * GovernanceVoting.Call) :=
  [(200, GovernanceVoting.CreateProposal "0xA11ce" "Pause" "0x6b9a13e3");
   (201, GovernanceVoting.Vote "0xA11ce" 100 0 true);
   (211, GovernanceVoting.ExecuteProposal "0xB0b" 0);
   (212, GovernanceVoting.ExecuteProposal "0xB0b" 0)].

(** The weight the Voted events of a proposal record on one side. *)
Fixpoint tally (proposalId : Z) (support : bool) (es : list GovernanceVoting.Event) : Z :=
  match es with
  | [] => 0
  | GovernanceVoting.Voted p _ s w :: es' =>
    if (p =? proposalId) && Bool.eqb s support then w + tally proposalId support es'
    else tally proposalId support es'
  | _ :: es' => tally proposalId support es'
  end.

(** The token balances the votes of a ledger are cast with are unsigned. *)
Definition unsigned_weights (txs : list (Z * GovernanceVoting.Call)) : Prop :=
  Forall (fun tx => match snd tx with
                    | GovernanceVoting.Vote _ weight _ _ => 0 <= weight
                    | _ => True
                    end) txs.

(** Blocks follow one another: the transactions of a ledger are in the
    order of their blocks. *)
Definition in_block_order {C : Type} (txs : list (Z * C)) : Prop :=
  StronglySorted (fun a b => fst a <= fst b) txs.

(** The same ledger with a vote against cast after the execution. *)
Definition late_vote_ledger : list (Z * GovernanceVoting.Call) :=
  pause_ledger ++ [(213, GovernanceVoting.Vote "0xB0b" 5 0 false)].

(** *** BridgeLock.sol

    The holders of RELAYER_ROLE and DEFAULT_ADMIN_ROLE are sets in the
    state.  [transferred] says whether the token call ([safeTransferFrom],
    [safeTransfer]) goes through; if not the whole call reverts.  The
    modifiers run in the order written, before the body.  Transactions run
    one after another and the tokens call nothing back, so [nonReentrant]
    lets every call through. *)

Module BridgeLock.

Record t : Type := Mk {
  lockNonce : Z;
  processedUnlockNonces : gset Z;
  paused : bool;
  relayers : gset address;
  admins : gset address
}.

Inductive Revert : Type :=
| EnforcedPause
| ExpectedPause
| ZeroAmount
| NonceAlreadyProcessed (nonce : Z)
| AccessControlUnauthorizedAccount (account : address)
| TokenReverted
| Panic.

Inductive Event : Type :=
| Locked (user : address) (amount nonce : Z)
| Unlocked (user : address) (amount nonce : Z)
| Paused (account : address)
| Unpaused (account : address).

(** The contract as its constructor leaves it. *)
Definition deployed (deployer relayer : address) : t :=
  Mk 0 ∅ false {[relayer]} {[deployer]}.

Definition lock (st : t) (sender : address) (amount : Z) (transferred : bool)
    : Revert + t * Event :=
  if paused st then inl EnforcedPause
  else if amount =? 0 then inl ZeroAmount
  else if lockNonce st =? MAX_UINT256 then inl Panic
  else if negb transferred then inl TokenReverted
  else
    let nonce := lockNonce st in
    inr (Mk (lockNonce st + 1) (processedUnlockNonces st) (paused st)
            (relayers st) (admins st),
         Locked sender amount nonce).

Definition unlock (st : t) (sender user : address) (amount nonce : Z)
    (transferred : bool) : Revert + t * Event :=
  if negb (bool_decide (sender ∈ relayers st)) then
    inl (AccessControlUnauthorizedAccount sender)
  else if bool_decide (nonce ∈ processedUnlockNonces st) then
    inl (NonceAlreadyProcessed nonce)
  else if amount =? 0 then inl ZeroAmount
  else if negb transferred then inl TokenReverted
  else
    inr (Mk (lockNonce st) ({[nonce]} ∪ processedUnlockNonces st) (paused st)
            (relayers st) (admins st),
         Unlocked user amount nonce).

(** [_pause] is [whenNotPaused], [_unpause] is [whenPaused]. *)
Definition pause (st : t) (sender : address) : Revert + t * Event :=
  if negb (bool_decide (sender ∈ relayers st)) then
    inl (AccessControlUnauthorizedAccount sender)
  else if paused st then inl EnforcedPause
  else
    inr (Mk (lockNonce st) (processedUnlockNonces st) true (relayers st) (admins st),
         Paused sender).

Definition unpause (st : t) (sender : address) : Revert + t * Event :=
  if negb (bool_decide (sender ∈ admins st)) then
    inl (AccessControlUnauthorizedAccount sender)
  else if negb (paused st) then inl ExpectedPause
  else
    inr (Mk (lockNonce st) (processedUnlockNonces st) false (relayers st) (admins st),
         Unpaused sender).

End BridgeLock.

(** *** GovernanceEmergency.sol

    [this] is the contract's own address, the [msg.sender] BridgeLock sees
    when [pauseBridge] calls [bridgeLock.pause()]. *)

Module GovernanceEmergency.

Record t : Type := Mk {
  this : address;
  relayers : gset address
}.

Inductive Event : Type :=
| BridgePaused (caller : address).

Definition pauseBridge (st : t) (bridgeLock : BridgeLock.t) (sender : address)
    : BridgeLock.Revert + BridgeLock.t * (BridgeLock.Event * Event) :=
  if negb (bool_decide (sender ∈ relayers st)) then
    inl (BridgeLock.AccessControlUnauthorizedAccount sender)
  else
    match BridgeLock.pause bridgeLock (this st) with
    | inl r => inl r
    | inr (bridgeLock', e) => inr (bridgeLock', (e, BridgePaused sender))
    end.

End GovernanceEmergency.

(** *** Chain A: BridgeLock and GovernanceEmergency side by side

    A ledger of transactions to the two contracts.  [Roles] stands for the
    role administration the contracts inherit from AccessControl
    ([grantRole], [revokeRole], [renounceRole]): it may leave any holders
    in the roles. *)

Module ChainA.

Record t : Type := Mk {
  bridgeLock : BridgeLock.t;
  governanceEmergency : GovernanceEmergency.t
}.

Inductive Call : Type :=
| Lock (sender : address) (amount : Z) (transferred : bool)
| Unlock (sender user : address) (amount nonce : Z) (transferred : bool)
| Pause (sender : address)
| Unpause (sender : address)
| PauseBridge (sender : address)
| Roles (lockRelayers lockAdmins emergencyRelayers : gset address).

Inductive Event : Type :=
| OfLock (e : BridgeLock.Event)
| OfEmergency (e : GovernanceEmergency.Event).

Definition on_lock (st : t) (r : BridgeLock.Revert + BridgeLock.t * BridgeLock.Event)
    : BridgeLock.Revert + t * list Event :=
  match r with
  | inl err => inl err
  | inr (bridgeLock', e) => inr (Mk bridgeLock' (governanceEmergency st), [OfLock e])
  end.

Definition call (st : t) (c : Call) : BridgeLock.Revert + t * list Event :=
  match c with
  | Lock sender amount transferred =>
    on_lock st (BridgeLock.lock (bridgeLock st) sender amount transferred)
  | Unlock sender user amount nonce transferred =>
    on_lock st (BridgeLock.unlock (bridgeLock st) sender user amount nonce transferred)
  | Pause sender => on_lock st (BridgeLock.pause (bridgeLock st) sender)
  | Unpause sender => on_lock st (BridgeLock.unpause (bridgeLock st) sender)
  | PauseBridge sender =>
    match GovernanceEmergency.pauseBridge (governanceEmergency st) (bridgeLock st)
                                          sender with
    | inl err => inl err
    | inr (bridgeLock', (e1, e2)) =>
      inr (Mk bridgeLock' (governanceEmergency st), [OfLock e1; OfEmergency e2])
    end
  | Roles lockRelayers lockAdmins emergencyRelayers =>
    inr (Mk (BridgeLock.Mk (BridgeLock.lockNonce (bridgeLock st))
                           (BridgeLock.processedUnlockNonces (bridgeLock st))
                           (BridgeLock.paused (bridgeLock st))
                           lockRelayers lockAdmins)
            (GovernanceEmergency.Mk (GovernanceEmergency.this (governanceEmergency st))
                                    emergencyRelayers),
         [])
  end.

(** The state after a ledger and the events it emitted, oldest first; a
    reverted transaction changes nothing and emits nothing. *)
Fixpoint run (st : t) (txs : list Call) : t * list Event :=
  match txs with
  | [] => (st, [])
  | c :: txs' =>
    match call st c with
    | inl _ => run st txs'
    | inr (st', es) => let '(st'', es') := run st' txs' in (st'', es ++ es')
    end
  end.

(** Chain A as scripts/deployChainA.js leaves it: BridgeLock and
    GovernanceEmergency deployed by [deployer] with [relayer] in their
    RELAYER_ROLE, then RELAYER_ROLE of BridgeLock granted to
    GovernanceEmergency, whose address is [emergency]. *)
Definition deployed (deployer relayer emergency : address) : t :=
  let bridgeLock := BridgeLock.deployed deployer relayer in
  Mk (BridgeLock.Mk (BridgeLock.lockNonce bridgeLock)
                    (BridgeLock.processedUnlockNonces bridgeLock)
                    (BridgeLock.paused bridgeLock)
                    ({[emergency]} ∪ BridgeLock.relayers bridgeLock)
                    (BridgeLock.admins bridgeLock))
     (GovernanceEmergency.Mk emergency {[relayer]}).

(** The nonces of the Locked events and of the Unlocked events among
    events, oldest first. *)
Definition locked_nonces (es : list Event) : list Z :=
  omap (fun e => match e with
                 | OfLock (BridgeLock.Locked _ _ nonce) => Some nonce
                 | _ => None
                 end) es.

Definition unlocked_nonces (es : list Event) : list Z :=
  omap (fun e => match e with
                 | OfLock (BridgeLock.Unlocked _ _ nonce) => Some nonce
                 | _ => None
                 end) es.

(** What the relayer's calls [bridgeLock.unlock(user, amount, nonce)] and
    [govEmergency.pauseBridge()] meet.  The nonce of an unlock is a
    JavaScript number, which ethers encodes only when it is at most
    [MAX_SAFE_INTEGER], throwing "overflow" otherwise before anything is
    sent.  The transaction is sent from the relayer's account; [funded]
    says whether the vault can pay an unlock out. *)
Definition error_of (r : BridgeLock.Revert) : TxError :=
  match r with
  | BridgeLock.NonceAlreadyProcessed nonce => NonceAlreadyProcessed nonce
  | BridgeLock.ZeroAmount => ZeroAmount
  | BridgeLock.AccessControlUnauthorizedAccount _ => AccessControlUnauthorizedAccount
  | BridgeLock.EnforcedPause => OtherError "EnforcedPause"
  | BridgeLock.ExpectedPause => OtherError "ExpectedPause"
  | BridgeLock.TokenReverted => OtherError "ERC20InsufficientBalance"
  | BridgeLock.Panic => OtherError "Panic"
  end.

Definition submit (hash : string) (relayer : address) (funded : bool)
    (st : t) (c : DestCall) : t * Outcome :=
  match c with
  | unlock user amount nonce =>
    if MAX_SAFE_INTEGER <? nonce then (st, Threw (OtherError "overflow"))
    else
      match call st (Unlock relayer user amount nonce funded) with
      | inl r => (st, Threw (error_of r))
      | inr (st', _) => (st', Mined hash)
      end
  | pauseBridge =>
    match call st (PauseBridge relayer) with
    | inl r => (st, Threw (error_of r))
    | inr (st', _) => (st', Mined hash)
    end
  | mintWrapped _ _ _ => (st, Threw (OtherError "no matching function"))
  end.

End ChainA.

(** *** BridgeMint.sol, the whole contract

    [tokenCalled] says whether the call to the wrapped token ([mint],
    [burn]) goes through. *)

Module BridgeMintContract.

Record t : Type := Mk {
  burnNonce : Z;
  processedMintNonces : gset Z;
  relayers : gset address
}.

Inductive Revert : Type :=
| ZeroAmount
| NonceAlreadyProcessed (nonce : Z)
| AccessControlUnauthorizedAccount (account : address)
| TokenReverted
| Panic.

Inductive Event : Type :=
| Minted (user : address) (amount nonce : Z)
| Burned (user : address) (amount nonce : Z).

Definition deployed (relayer : address) : t := Mk 0 ∅ {[relayer]}.

Definition mintWrapped (st : t) (sender user : address) (amount nonce : Z)
    (tokenCalled : bool) : Revert + t * Event :=
  if negb (bool_decide (sender ∈ relayers st)) then
    inl (AccessControlUnauthorizedAccount sender)
  else if bool_decide (nonce ∈ processedMintNonces st) then
    inl (NonceAlreadyProcessed nonce)
  else if amount =? 0 then inl ZeroAmount
  else if negb tokenCalled then inl TokenReverted
  else
    inr (Mk (burnNonce st) ({[nonce]} ∪ processedMintNonces st) (relayers st),
         Minted user amount nonce).

Definition burn (st : t) (sender : address) (amount : Z) (tokenCalled : bool)
    : Revert + t * Event :=
  if amount =? 0 then inl ZeroAmount
  else if burnNonce st =? MAX_UINT256 then inl Panic
  else if negb tokenCalled then inl TokenReverted
  else
    let nonce := burnNonce st in
    inr (Mk (burnNonce st + 1) (processedMintNonces st) (relayers st),
         Burned sender amount nonce).

Inductive Call : Type :=
| MintWrapped (sender user : address) (amount nonce : Z) (tokenCalled : bool)
| Burn (sender : address) (amount : Z) (tokenCalled : bool)
| Roles (relayers : gset address).

Definition call (st : t) (c : Call) : Revert + t * list Event :=
  match c with
  | MintWrapped sender user amount nonce tokenCalled =>
    match mintWrapped st sender user amount nonce tokenCalled with
    | inl r => inl r
    | inr (st', e) => inr (st', [e])
    end
  | Burn sender amount tokenCalled =>
    match burn st sender amount tokenCalled with
    | inl r => inl r
    | inr (st', e) => inr (st', [e])
    end
  | Roles relayers => inr (Mk (burnNonce st) (processedMintNonces st) relayers, [])
  end.

Fixpoint run (st : t) (txs : list Call) : t * list Event :=
  match txs with
  | [] => (st, [])
  | c :: txs' =>
    match call st c with
    | inl _ => run st txs'
    | inr (st', es) => let '(st'', es') := run st' txs' in (st'', es ++ es')
    end
  end.

Definition burned_nonces (es : list Event) : list Z :=
  omap (fun e => match e with Burned _ _ nonce => Some nonce | _ => None end) es.

Definition minted_nonces (es : list Event) : list Z :=
  omap (fun e => match e with Minted _ _ nonce => Some nonce | _ => None end) es.

End BridgeMintContract.

(** The error the relayer's transaction throws when BridgeMint reverts. *)
Definition mint_error_of (r : BridgeMintContract.Revert) : TxError :=
  match r with
  | BridgeMintContract.NonceAlreadyProcessed nonce => NonceAlreadyProcessed nonce
  | BridgeMintContract.ZeroAmount => ZeroAmount
  | BridgeMintContract.AccessControlUnauthorizedAccount _ =>
    AccessControlUnauthorizedAccount
  | BridgeMintContract.TokenReverted => OtherError "ERC20InsufficientBalance"
  | BridgeMintContract.Panic => OtherError "Panic"
  end.

(** Nonces handed out one by one: [nonces] are the numbers from [start]
    on, and [final] is the next one. *)
Definition consecutive_from (start : Z) (nonces : list Z) (final : Z) : Prop :=
  nonces = seqZ start (Z.of_nat (length nonces))
  /\ final = start + Z.of_nat (length nonces).

(** A replay map growing by nonces: each of [nonces] was not in the map
    [before], appears once, and [after] is [before] with them added. *)
Definition added_once (before : gset Z) (nonces : list Z) (after : gset Z) : Prop :=
  NoDup nonces
  /\ (forall n, n ∈ nonces -> n ∉ before)
  /\ (forall n, n ∈ after <-> n ∈ before \/ n ∈ nonces).

(** BridgeLock with its pause flag set to [flag], all else the same. *)
Definition set_paused (flag : bool) (st : BridgeLock.t) : BridgeLock.t :=
  BridgeLock.Mk (BridgeLock.lockNonce st) (BridgeLock.processedUnlockNonces st) flag
                (BridgeLock.relayers st) (BridgeLock.admins st).

(** The nonces of the [unlock] calls among submissions that were mined,
    oldest first. *)
Definition released_nonces (l : list (DestCall * Outcome)) : list Z :=
  omap (fun co => match co with
                  | (unlock _ _ nonce, Mined _) => Some nonce
                  | _ => None
                  end) l.

(** The events among [events] that a handler checking against head [H]
    under depth [D] takes as confirmed. *)
Definition ripe (D H : Z) (events : list Listener.EventLog) : list Listener.EventLog :=
  filter (fun ev => H - Listener.blockNumber ev >= D) events.

(** ** Function selectors

    The selector of a Solidity function is the first four bytes of the
    Keccak-256 hash of its signature, and the calldata of a function
    without arguments is its selector: what
    [new ethers.Interface(["function pauseBridge()"]).encodeFunctionData("pauseBridge")]
    returns, "0x" and eight hexadecimal digits in lower case.  Keccak-256 is
    Keccak-f[1600] with a rate of 136 bytes and the padding 10*1, the state
    being 25 lanes of 64 bits, lane (x, y) at index x + 5y. *)

Module Keccak.

Definition rol (x n : Z) : Z :=
  Z.land (Z.lor (Z.shiftl x n) (Z.shiftr x (64 - n))) (Z.ones 64).

Definition lane (A : list Z) (x y : Z) : Z :=
  nth (Z.to_nat (x mod 5 + 5 * y)) A 0.

(** The round constants and the rotation offsets. *)
Definition RC : list Z :=
  [
   1; 32898; 9223372036854808714;
   9223372039002292224; 32907; 2147483649;
   9223372039002292353; 9223372036854808585; 138;
   136; 2147516425; 2147483658;
   2147516555; 9223372036854775947; 9223372036854808713;
   9223372036854808579; 9223372036854808578; 9223372036854775936;
   32778; 9223372039002259466; 9223372039002292353;
   9223372036854808704; 2147483649; 9223372039002292232
  ].

Definition ROT : list Z :=
  [
   0; 1; 62; 28; 27;
   36; 44; 6; 55; 20;
   3; 10; 43; 25; 39;
   41; 45; 15; 21; 8;
   18; 2; 61; 56; 14
  ].

(** One round: theta, rho and pi, chi, iota. *)
Definition round (A : list Z) (rc : Z) : list Z :=
  let C x :=
    Z.lxor (lane A x 0)
           (Z.lxor (lane A x 1) (Z.lxor (lane A x 2) (Z.lxor (lane A x 3) (lane A x 4)))) in
  let D x := Z.lxor (C (x + 4)) (rol (C (x + 1)) 1) in
  let theta x y := Z.lxor (lane A x y) (D x) in
  let B x y :=
    let x0 := (x + 3 * y) mod 5 in
    rol (theta x0 x) (nth (Z.to_nat (x0 + 5 * x)) ROT 0) in
  let chi x y :=
    Z.lxor (B x y)
           (Z.land (Z.lxor (B ((x + 1) mod 5) y) (Z.ones 64)) (B ((x + 2) mod 5) y)) in
  map (fun i => Z.lxor (chi (i mod 5) (i / 5)) (if i =? 0 then rc else 0)) (seqZ 0 25).

Definition permute (A : list Z) : list Z := fold_left round RC A.

(** Bytes to a lane and back, least significant byte first. *)
Definition le64 (bs : list Z) : Z := foldr (fun b acc => b + 256 * acc) 0 bs.

Fixpoint bytes_le (n : nat) (x : Z) : list Z :=
  match n with
  | O => []
  | S n' => x mod 256 :: bytes_le n' (x / 256)
  end.

Fixpoint lanes (n : nat) (bs : list Z) : list Z :=
  match n with
  | O => []
  | S n' => le64 (take 8 bs) :: lanes n' (drop 8 bs)
  end.

Definition absorb_block (A block : list Z) : list Z :=
  permute (zip_with Z.lxor A (lanes 17 block ++ replicate 8 0)).

Fixpoint absorb (blocks : nat) (A bs : list Z) : list Z :=
  match blocks with
  | O => A
  | S blocks' => absorb blocks' (absorb_block A (take 136 bs)) (drop 136 bs)
  end.

Definition pad (msg : list Z) : list Z :=
  let k := (136 - length msg mod 136)%nat in
  if (k =? 1)%nat then msg ++ [129]
  else msg ++ [1] ++ replicate (k - 2) 0 ++ [128].

Definition keccak256 (msg : list Z) : list Z :=
  let p := pad msg in
  let A := absorb (length p / 136) (replicate 25 0) p in
  flat_map (bytes_le 8) (take 4 A).

Definition hex_digit (d : Z) : Ascii.ascii :=
  nth (Z.to_nat d) (String.list_ascii_of_string "0123456789abcdef") Ascii.zero.

Definition hex (bs : list Z) : string :=
  String.string_of_list_ascii (flat_map (fun b => [hex_digit (b / 16); hex_digit (b mod 16)]) bs).

Definition bytes_of (s : string) : list Z :=
  map (fun a => Z.of_N (Ascii.N_of_ascii a)) (String.list_ascii_of_string s).

Definition selector (signature : string) : string :=
  ("0x" ++ hex (take 4 (keccak256 (bytes_of signature))))%string.

End Keccak.

(** The data the repository's integration test gives a pause proposal:
    the calldata of [pauseBridge()]. *)
Definition pauseBridge_calldata : string := Keccak.selector "pauseBridge()".

(** * Properties *)

(** ** The store *)

Module RelayerDBFacts.
Import RelayerDB.

Lemma where_key_true n c e r :
  where_key n c e r = true <-> primary_key r = (n, c, e).
Proof.
  unfold where_key, primary_key.
  rewrite !andb_true_iff, Z.eqb_eq, !String.eqb_eq.
  split; [intros [[-> ->] ->]; reflexivity | intros [= -> -> ->]; auto].
Qed.

Lemma where_key_self r : where_key (nonce r) (chain r) (event_type r) r = true.
Proof. apply where_key_true. reflexivity. Qed.

Lemma existsb_snoc {A} (f : A -> bool) (l : list A) (x : A) :
  existsb f (l ++ [x]) = existsb f l || f x.
Proof. rewrite existsb_app. simpl. now rewrite orb_false_r. Qed.

Lemma isProcessed_markProcessed db n c tx e :
  isProcessed (markProcessed db n c tx e) n c e = true.
Proof.
  unfold isProcessed, markProcessed, insert_or_ignore; simpl.
  destruct (existsb (where_key n c e) (processed_events db)) eqn:E; [exact E|].
  rewrite existsb_snoc, E. simpl. apply (where_key_self (Row n c tx e)).
Qed.

Lemma isProcessed_markProcessed_mono db n c tx e n' c' e' :
  isProcessed db n' c' e' = true ->
  isProcessed (markProcessed db n c tx e) n' c' e' = true.
Proof.
  unfold isProcessed, markProcessed, insert_or_ignore; simpl. intros H.
  destruct (existsb (where_key n c e) (processed_events db)); [exact H|].
  rewrite existsb_snoc, H. reflexivity.
Qed.

Lemma isProcessed_setLastBlock db k b n c e :
  isProcessed (setLastBlock db k b) n c e = isProcessed db n c e.
Proof. reflexivity. Qed.

Lemma markProcessed_absorbs db n c tx1 tx2 e :
  markProcessed (markProcessed db n c tx1 e) n c tx2 e = markProcessed db n c tx1 e.
Proof.
  pose proof (isProcessed_markProcessed db n c tx1 e) as H.
  unfold isProcessed in H.
  unfold markProcessed at 1. unfold insert_or_ignore at 1. cbn [nonce chain event_type].
  rewrite H. destruct (markProcessed db n c tx1 e); reflexivity.
Qed.

Lemma markProcessed_present db n c tx e :
  isProcessed db n c e = true -> markProcessed db n c tx e = db.
Proof.
  unfold isProcessed, markProcessed, insert_or_ignore; simpl. intros ->.
  destruct db; reflexivity.
Qed.

Lemma getLastBlock_setLastBlock db c b : getLastBlock (setLastBlock db c b) c = b.
Proof. unfold getLastBlock, setLastBlock; simpl. now rewrite lookup_insert_eq. Qed.

Lemma getLastBlock_setLastBlock_ne db c c' b :
  c <> c' -> getLastBlock (setLastBlock db c b) c' = getLastBlock db c'.
Proof.
  intros H. unfold getLastBlock, setLastBlock; simpl. now rewrite lookup_insert_ne.
Qed.

Lemma getLastBlock_markProcessed db n c tx e k :
  getLastBlock (markProcessed db n c tx e) k = getLastBlock db k.
Proof. reflexivity. Qed.

Lemma marks_snoc (db_rows : list row) (r : row) n c e :
  length (filter (fun r => where_key n c e r = true) (db_rows ++ [r]))
  = (length (filter (fun r => where_key n c e r = true) db_rows)
     + (if where_key n c e r then 1 else 0))%nat.
Proof.
  rewrite filter_app, length_app. f_equal.
  rewrite filter_cons, filter_nil.
  destruct (where_key n c e r) eqn:E; case_decide; simpl; congruence.
Qed.

Lemma marks_zero_of_absent (rows : list row) n c e :
  existsb (where_key n c e) rows = false ->
  length (filter (fun r => where_key n c e r = true) rows) = 0%nat.
Proof.
  induction rows as [|r rows IH]; simpl; [reflexivity|].
  intros H. apply orb_false_iff in H as [Hr Hrows].
  rewrite filter_cons. case_decide; [congruence|]. auto.
Qed.

Lemma marks_markProcessed db n c tx e n' c' e' :
  (marks db n' c' e' <= 1)%nat ->
  (marks (markProcessed db n c tx e) n' c' e' <= 1)%nat.
Proof.
  unfold marks, markProcessed, insert_or_ignore; simpl. intros H.
  destruct (existsb (where_key n c e) (processed_events db)) eqn:E; [exact H|].
  rewrite marks_snoc.
  destruct (where_key n' c' e' (Row n c tx e)) eqn:K; [|lia].
  apply where_key_true in K. unfold primary_key in K; simpl in K.
  injection K as -> -> ->.
  rewrite (marks_zero_of_absent _ _ _ _ E). lia.
Qed.

Lemma marks_apply_writes ws : forall db n c e,
  (marks db n c e <= 1)%nat -> (marks (apply_writes db ws) n c e <= 1)%nat.
Proof.
  induction ws as [|wr ws IH]; intros db n c e H; [exact H|].
  simpl. apply IH. destruct wr; simpl; [now apply marks_markProcessed | exact H].
Qed.

Lemma stored_tx_hash_markProcessed db n c tx e :
  stored_tx_hash (markProcessed db n c tx e) n c e
  = Some (default tx (stored_tx_hash db n c e)).
Proof.
  unfold stored_tx_hash, markProcessed, insert_or_ignore; simpl.
  generalize (processed_events db) as rows.
  induction rows as [|r rows IH]; simpl.
  - pose proof (where_key_self (Row n c tx e)) as K; simpl in K. now rewrite K.
  - destruct (where_key n c e r) eqn:E; simpl; [now rewrite E|].
    destruct (existsb (where_key n c e) rows) eqn:X; simpl; rewrite E; exact IH.
Qed.

End RelayerDBFacts.

(** ** The retry loop *)

Section PipelineFacts.

Context {DState : Type}.
Variable submit : DState -> DestCall -> DState * Outcome.

Lemma submitted_app (a b : list Effect) : submitted (a ++ b) = submitted a ++ submitted b.
Proof. apply omap_app. Qed.

Lemma mined_app (a b : list Effect) : mined (a ++ b) = mined a ++ mined b.
Proof. apply omap_app. Qed.

Lemma cursor_writes_app c (a b : list Effect) :
  cursor_writes c (a ++ b) = cursor_writes c a ++ cursor_writes c b.
Proof. apply omap_app. Qed.

Lemma gate_logs_app (a b : list Effect) : gate_logs (a ++ b) = gate_logs a ++ gate_logs b.
Proof. apply omap_app. Qed.

Lemma first_mined_attempt_errors k : forall d c,
  first_mined submit k d c = None <-> is_Some (attempt_errors submit k d c).
Proof.
  induction k as [|k IH]; intros d c; simpl.
  - split; eauto.
  - destruct (submit d c) as [d' [h|err]].
    + split; [discriminate | intros [? [=]]].
    + rewrite IH. rewrite fmap_is_Some. reflexivity.
Qed.

(** What one run of the loop adds to the trace and does to the store,
    by whether one of its submissions is mined. *)
Lemma retry_loop_spec k : forall a j (w : World DState),
  exists tr,
    trace (retry_loop submit k a j w) = trace w ++ tr
    /\ gate_logs tr = []
    /\ Forall (fun c => c = job_call j) (submitted tr)
    /\ match first_mined submit k (dest w) (job_call j) with
       | Some hash =>
         db (retry_loop submit k a j w)
         = RelayerDB.setLastBlock
             (RelayerDB.markProcessed (db w) (job_nonce j) (job_chain j) hash
                                      (job_event_type j))
             (job_cursor j) (job_block j)
         /\ mined tr = [job_call j]
         /\ forall c, cursor_writes c tr
                      = if String.eqb (job_cursor j) c then [job_block j] else []
       | None =>
         db (retry_loop submit k a j w) = db w
         /\ mined tr = []
         /\ submitted tr = replicate k (job_call j)
         /\ forall c, cursor_writes c tr = []
       end.
Proof.
  induction k as [|k IH]; intros a j w.
  - exists []. simpl. rewrite app_nil_r. repeat split; auto.
  - simpl. unfold send.
    destruct (submit (dest w) (job_call j)) as [d' [hash|err]] eqn:E.
    + eexists. simpl. rewrite <- !app_assoc. split; [reflexivity|].
      simpl. repeat split; auto.
      intros c. now destruct (String.eqb (job_cursor j) c).
    + match goal with |- context [retry_loop submit k (a + 1) j ?w3] =>
        destruct (IH (a + 1) j w3) as (tr & Htr & Hg & Hs & Hm); set (w' := w3) in *
      end.
      assert (Hw : exists x, trace w' = trace w ++ [Submit (job_call j) (Threw err);
                   Log (AttemptFailed a err); x]
                   /\ gate_logs [x] = [] /\ submitted [x] = [] /\ mined [x] = []
                   /\ (forall c, cursor_writes c [x] = [])
                   /\ db w' = db w /\ dest w' = d').
      { subst w'. destruct (a <? MAX_RETRIES); eexists; simpl;
          rewrite <- !app_assoc; simpl; repeat split; reflexivity. }
      destruct Hw as (x & Hx & Hxg & Hxs & Hxm & Hxc & Hdb & Hd).
      exists ([Submit (job_call j) (Threw err); Log (AttemptFailed a err); x] ++ tr).
      rewrite Htr, Hx, <- app_assoc. split; [reflexivity|].
      rewrite gate_logs_app, submitted_app.
      change (gate_logs [Submit (job_call j) (Threw err); Log (AttemptFailed a err); x])
        with (gate_logs [x]).
      change (submitted [Submit (job_call j) (Threw err); Log (AttemptFailed a err); x])
        with (job_call j :: submitted [x]).
      rewrite Hxg, Hxs, Hg. split; [reflexivity|]. split; [constructor; auto|].
      rewrite Hd, Hdb in Hm.
      destruct (first_mined submit k d' (job_call j)) as [hash|].
      * destruct Hm as (Hm1 & Hm2 & Hm3). split; [exact Hm1|].
        rewrite mined_app.
        change (mined [Submit (job_call j) (Threw err); Log (AttemptFailed a err); x])
          with (mined [x]).
        rewrite Hxm, Hm2. split; [reflexivity|].
        intros c. rewrite cursor_writes_app, Hm3.
        change (cursor_writes c [Submit (job_call j) (Threw err); Log (AttemptFailed a err); x])
          with (cursor_writes c [x]).
        now rewrite Hxc.
      * destruct Hm as (Hm1 & Hm2 & Hm3 & Hm4). split; [exact Hm1|].
        rewrite mined_app.
        change (mined [Submit (job_call j) (Threw err); Log (AttemptFailed a err); x])
          with (mined [x]).
        rewrite Hxm, Hm2. split; [reflexivity|]. split.
        { simpl. now rewrite Hm3. }
        intros c. rewrite cursor_writes_app, Hm4.
        change (cursor_writes c [Submit (job_call j) (Threw err); Log (AttemptFailed a err); x])
          with (cursor_writes c [x]).
        now rewrite Hxc.
Qed.

End PipelineFacts.

(** Brings the specification of the loop run that occurs in the goal into
    the context as [H]. *)
Ltac retry_spec H :=
  match goal with
  | |- context [retry_loop ?submit ?k ?a ?j ?w0] =>
    pose proof (retry_loop_spec submit k a j w0) as H
  end.

(** ** The Lock and Burn handler *)

Section ListenerFacts.

Import Listener.

Context {DState : Type}.
Variable submit : DState -> DestCall -> DState * Outcome.
Variable names : Names.
Variable D : Z.

Local Abbreviation handle := (_handleEvent submit names D).
Local Abbreviation key ev := (Number (nonce ev)).
Local Abbreviation call ev := (destination names (user ev) (amount ev) (Number (nonce ev))).
Local Abbreviation job ev :=
  (MkJob (destination names (user ev) (amount ev) (Number (nonce ev)))
         (Number (nonce ev)) (chain names) (event_type names) (cursor names)
         (blockNumber ev)).

Lemma handle_unconfirmed ev H (w : World DState) :
  H - blockNumber ev < D -> handle ev H w = log (NotYetConfirmed (key ev)) w.
Proof.
  intros Hlt. unfold _handleEvent.
  now destruct (Z.ltb_spec (H - blockNumber ev) D); [|lia].
Qed.

Lemma handle_processed ev H (w : World DState) :
  H - blockNumber ev >= D ->
  RelayerDB.isProcessed (db w) (key ev) (chain names) (event_type names) = true ->
  handle ev H w = log (AlreadyProcessed (key ev)) w.
Proof.
  intros Hge Hp. unfold _handleEvent.
  destruct (Z.ltb_spec (H - blockNumber ev) D); [lia|]. now rewrite Hp.
Qed.

Lemma handle_submits ev H (w : World DState) :
  H - blockNumber ev >= D ->
  RelayerDB.isProcessed (db w) (key ev) (chain names) (event_type names) = false ->
  handle ev H w = submit_with_retry submit (job ev) (log (Processing (key ev)) w).
Proof.
  intros Hge Hp. unfold _handleEvent.
  destruct (Z.ltb_spec (H - blockNumber ev) D); [lia|]. now rewrite Hp.
Qed.

(** One call of the handler, summarised: it only ever submits the
    event's own call, and either leaves the store alone with nothing
    mined, or had an unmarked confirmed event, got its call mined once
    and wrote the mark and the cursor. *)
Lemma handle_step ev H (w : World DState) :
  exists tr,
    trace (handle ev H w) = trace w ++ tr
    /\ Forall (fun c => c = call ev) (submitted tr)
    /\ (gate_logs tr = [] \/ H - blockNumber ev < D)
    /\ ((db (handle ev H w) = db w /\ mined tr = []
         /\ forall c, cursor_writes c tr = [])
        \/ (H - blockNumber ev >= D
            /\ RelayerDB.isProcessed (db w) (key ev) (chain names) (event_type names)
               = false
            /\ mined tr = [call ev]
            /\ (forall c, cursor_writes c tr
                          = if String.eqb (cursor names) c then [blockNumber ev] else [])
            /\ exists hash,
                db (handle ev H w)
                = RelayerDB.setLastBlock
                    (RelayerDB.markProcessed (db w) (key ev) (chain names) hash
                                             (event_type names))
                    (cursor names) (blockNumber ev))).
Proof.
  destruct (Z.lt_ge_cases (H - blockNumber ev) D) as [Hlt|Hge].
  { rewrite handle_unconfirmed by exact Hlt. eexists. split; [reflexivity|].
    simpl. repeat split; auto. }
  destruct (RelayerDB.isProcessed (db w) (key ev) (chain names) (event_type names)) eqn:Hp.
  { rewrite handle_processed by (lia || exact Hp). eexists. split; [reflexivity|].
    simpl. repeat split; auto. }
  rewrite handle_submits by (lia || exact Hp). unfold submit_with_retry.
  retry_spec R. destruct R as (tr & Htr & Hg & Hs & Hm).
  exists (Log (Processing (key ev)) :: tr).
  rewrite Htr. simpl. rewrite <- app_assoc. split; [reflexivity|].
  split; [exact Hs|]. split; [left; exact Hg|].
  unfold log in Hm.
  cbn [dest db job_call job_nonce job_chain job_event_type job_cursor job_block] in Hm.
  destruct (first_mined submit (Z.to_nat MAX_RETRIES) (dest w) (call ev)) as [hash|].
  - right. destruct Hm as (Hdb & Hmi & Hc). repeat split; eauto. lia.
  - left. destruct Hm as (Hdb & Hmi & _ & Hc). repeat split; auto.
Qed.

(** A mark, once written, stays: the handler never removes a row. *)
Lemma handle_keeps_marks ev H (w : World DState) n c e :
  RelayerDB.isProcessed (db w) n c e = true ->
  RelayerDB.isProcessed (db (handle ev H w)) n c e = true.
Proof.
  intros Hp. destruct (handle_step ev H w) as (tr & _ & _ & _ & [(Hdb & _)|Hok]).
  - now rewrite Hdb.
  - destruct Hok as (_ & _ & _ & _ & hash & ->).
    rewrite RelayerDBFacts.isProcessed_setLastBlock.
    now apply RelayerDBFacts.isProcessed_markProcessed_mono.
Qed.

(** A mined submission of an unmarked, confirmed event: the store gets
    the mark, under [Number] of the nonce, and the cursor. *)
Lemma handle_mined ev H (w : World DState) hash :
  H - blockNumber ev >= D ->
  RelayerDB.isProcessed (db w) (key ev) (chain names) (event_type names) = false ->
  first_mined submit (Z.to_nat MAX_RETRIES) (dest w) (call ev) = Some hash ->
  db (handle ev H w)
  = RelayerDB.setLastBlock
      (RelayerDB.markProcessed (db w) (key ev) (chain names) hash (event_type names))
      (cursor names) (blockNumber ev).
Proof.
  intros Hge Hfresh Hmined. rewrite handle_submits by assumption.
  unfold submit_with_retry. retry_spec R. destruct R as (tr & _ & _ & _ & Hm).
  unfold log in Hm.
  cbn [dest db job_call job_nonce job_chain job_event_type job_cursor job_block] in Hm.
  rewrite Hmined in Hm. apply Hm.
Qed.

End ListenerFacts.

(** ** Replay *)

Section Replay.

Import Listener.

Context {DState : Type}.
Variable submit : DState -> DestCall -> DState * Outcome.
Variable names : Names.
Variable D : Z.
Hypothesis destination_nonce :
  forall u a n, call_nonce (destination names u a n) = Some n.

Local Abbreviation mined_once := (mined_once names).

Lemma mined_with_nonce_app n (a b : list Effect) :
  mined_with_nonce n (a ++ b) = mined_with_nonce n a ++ mined_with_nonce n b.
Proof. unfold mined_with_nonce. now rewrite mined_app, filter_app. Qed.

Lemma mined_once_handle ev H (w : World DState) :
  mined_once w -> mined_once (_handleEvent submit names D ev H w).
Proof.
  intros Inv n. destruct (Inv n) as [Hlen Hmark].
  destruct (handle_step submit names D ev H w) as (tr & Htr & _ & _ & [A|B]).
  - destruct A as (Hdb & Hm & _).
    rewrite Htr, mined_with_nonce_app, Hdb.
    unfold mined_with_nonce at 2 4. rewrite Hm, filter_nil, app_nil_r. auto.
  - destruct B as (_ & Hfresh & Hm & _ & hash & Hdb).
    rewrite Htr, mined_with_nonce_app, Hdb.
    unfold mined_with_nonce at 2 4. rewrite Hm, filter_cons, filter_nil.
    rewrite RelayerDBFacts.isProcessed_setLastBlock.
    case_decide as Hn.
    + rewrite destination_nonce in Hn. injection Hn as <-.
      destruct (mined_with_nonce (Number (nonce ev)) (trace w)) as [|c l] eqn:E.
      * simpl. split; [lia|]. intros _. apply RelayerDBFacts.isProcessed_markProcessed.
      * rewrite Hmark in Hfresh by discriminate. discriminate.
    + rewrite app_nil_r. split; [exact Hlen|]. intros Hne.
      apply RelayerDBFacts.isProcessed_markProcessed_mono. auto.
Qed.

Lemma mined_once_deliver deliveries : forall (w : World DState),
  mined_once w -> mined_once (deliver submit names D deliveries w).
Proof.
  induction deliveries as [|[ev H] ds IH]; intros w Inv; [exact Inv|].
  simpl. apply IH. now apply mined_once_handle.
Qed.

Lemma mined_once_fresh db0 (d0 : DState) : mined_once (MkWorld db0 d0 []).
Proof. intros n. simpl. split; [lia|]. intros []. reflexivity. Qed.

End Replay.

Lemma stored_tx_hash_absent db n c e :
  RelayerDB.isProcessed db n c e = false -> RelayerDB.stored_tx_hash db n c e = None.
Proof.
  unfold RelayerDB.isProcessed, RelayerDB.stored_tx_hash.
  induction (RelayerDB.processed_events db) as [|r rows IH]; simpl; [reflexivity|].
  destruct (RelayerDB.where_key n c e r); simpl; [discriminate | exact IH].
Qed.

(** C1, as amended.  When one of the three submissions of the first
    [_handleEvent] call for an unmarked, confirmed event is mined, that call
    writes the ProcessedMark with the mined hash, and a second call for the
    same event with a head at least D past its block returns at the
    [isProcessed] check: it only logs, and attempts no destination call.
    Over any sequence of calls of the Lock or Burn handler, run one after
    the other from a fresh trace, at most one mined destination call
    carries any given nonce. *)
Theorem replay_skipped_once_mined :
  forall {DState} (submit : DState -> DestCall -> DState * Outcome)
         (names : Listener.Names) (D : Z) (event : Listener.EventLog)
         (head1 head2 : Z) (w : World DState) (hash : string),
    names = LockListener.names \/ names = BurnListener.names ->
    head1 - Listener.blockNumber event >= D ->
    head2 - Listener.blockNumber event >= D ->
    RelayerDB.isProcessed (db w) (Number (Listener.nonce event))
      (Listener.chain names) (Listener.event_type names) = false ->
    first_mined submit (Z.to_nat MAX_RETRIES) (dest w)
      (Listener.destination names (Listener.user event) (Listener.amount event)
         (Number (Listener.nonce event))) = Some hash ->
    let w1 := Listener._handleEvent submit names D event head1 w in
    let w2 := Listener._handleEvent submit names D event head2 w1 in
    RelayerDB.stored_tx_hash (db w1) (Number (Listener.nonce event))
      (Listener.chain names) (Listener.event_type names) = Some hash
    /\ RelayerDB.isProcessed (db w1) (Number (Listener.nonce event))
         (Listener.chain names) (Listener.event_type names) = true
    /\ w2 = log (AlreadyProcessed (Number (Listener.nonce event))) w1
    /\ submitted (trace w2) = submitted (trace w1)
    /\ forall deliveries db0 d0 n,
         (length (mined_with_nonce n
            (trace (deliver submit names D deliveries (MkWorld db0 d0 [])))) <= 1)%nat.
Proof.
  intros DState submit names D event head1 head2 w hash Hnames H1 H2 Hfresh Hmined w1 w2.
  assert (Hdb : db w1
                = RelayerDB.setLastBlock
                    (RelayerDB.markProcessed (db w) (Number (Listener.nonce event))
                       (Listener.chain names) hash (Listener.event_type names))
                    (Listener.cursor names) (Listener.blockNumber event)).
  { subst w1. now apply handle_mined. }
  assert (Hp : RelayerDB.isProcessed (db w1) (Number (Listener.nonce event))
                 (Listener.chain names) (Listener.event_type names) = true).
  { rewrite Hdb, RelayerDBFacts.isProcessed_setLastBlock.
    apply RelayerDBFacts.isProcessed_markProcessed. }
  assert (Hw2 : w2 = log (AlreadyProcessed (Number (Listener.nonce event))) w1).
  { subst w2. now apply handle_processed. }
  split; [|split; [exact Hp|split; [exact Hw2|split]]].
  - rewrite Hdb. unfold RelayerDB.stored_tx_hash, RelayerDB.setLastBlock.
    cbn [RelayerDB.processed_events].
    change (RelayerDB.stored_tx_hash
              (RelayerDB.markProcessed (db w) (Number (Listener.nonce event))
                 (Listener.chain names) hash (Listener.event_type names))
              (Number (Listener.nonce event)) (Listener.chain names)
              (Listener.event_type names) = Some hash).
    rewrite RelayerDBFacts.stored_tx_hash_markProcessed.
    now rewrite stored_tx_hash_absent by exact Hfresh.
  - rewrite Hw2. unfold log. cbn [trace]. rewrite submitted_app. simpl.
    now rewrite app_nil_r.
  - intros deliveries db0 d0 n.
    apply (mined_once_deliver submit names D).
    + destruct Hnames as [-> | ->]; reflexivity.
    + apply mined_once_fresh.
Qed.

Lemma replay_skipped_once_mined_witness :
  let w1 := LockListener._handleEvent (always (Mined Sample.tx1)) 3 Sample.locked0 60
              (Sample.world RelayerDB.empty) in
  let w2 := LockListener._handleEvent (always (Mined Sample.tx1)) 3 Sample.locked0 60 w1 in
  RelayerDB.stored_tx_hash (db w1) 0 "chainA" "Locked" = Some Sample.tx1
  /\ w2 = log (AlreadyProcessed 0) w1
  /\ submitted (trace w2) = [Sample.call0].
Proof.
  pose proof (replay_skipped_once_mined (always (Mined Sample.tx1)) LockListener.names 3
                Sample.locked0 60 60 (Sample.world RelayerDB.empty) Sample.tx1
                (or_introl eq_refl) ltac:(simpl; lia) ltac:(simpl; lia)
                eq_refl eq_refl) as H.
  destruct H as (Hh & _ & Hw & Hs & _).
  split; [exact Hh | split; [exact Hw | etransitivity; [exact Hs | reflexivity]]].
Defined.

(** C1 as stated fails when the destination rejects the call: the first
    [_handleEvent] call submits it three times with the same nonce and
    writes no mark, and the second call, far from returning early, submits
    it three more times. *)
Lemma replay_resubmits_after_failure :
  let w1 := LockListener._handleEvent (always Sample.timeout) 3 Sample.locked0 60
              (Sample.world RelayerDB.empty) in
  let w2 := LockListener._handleEvent (always Sample.timeout) 3 Sample.locked0 60 w1 in
  RelayerDB.isProcessed (db w1) 0 "chainA" "Locked" = false
  /\ submitted (trace w1) = replicate 3 Sample.call0
  /\ submitted (trace w2) = replicate 6 Sample.call0.
Proof. repeat split; vm_compute; reflexivity. Qed.

(** ** Failed submissions *)

Section Failures.

Import Listener.

Context {DState : Type}.
Variable submit : DState -> DestCall -> DState * Outcome.

(** The loop begins with a submission whenever it has an iteration to
    run. *)
Lemma retry_loop_first_submit k a j (w : World DState) :
  exists o tr,
    trace (retry_loop submit (S k) a j w) = trace w ++ Submit (job_call j) o :: tr.
Proof.
  simpl. unfold send.
  destruct (submit (dest w) (job_call j)) as [d' [hash|err]].
  - eexists _, _. simpl. rewrite <- !app_assoc. reflexivity.
  - match goal with |- context [retry_loop submit k (a + 1) j ?w3] =>
      destruct (retry_loop_spec submit k (a + 1) j w3) as (tr & -> & _);
      assert (Hw : exists x, trace w3 = trace w ++ [Submit (job_call j) (Threw err);
                     Log (AttemptFailed a err); x])
    end.
    { destruct (a <? MAX_RETRIES); eexists; simpl; rewrite <- !app_assoc; reflexivity. }
    destruct Hw as (x & ->). eexists _, _. rewrite <- app_assoc. reflexivity.
Qed.

(** Three throws: the exact effects of the loop, and an untouched store. *)
Lemma retry_loop_three_throws j (w : World DState) e1 e2 e3 :
  attempt_errors submit 3 (dest w) (job_call j) = Some [e1; e2; e3] ->
  db (submit_with_retry submit j w) = db w
  /\ trace (submit_with_retry submit j w)
     = trace w ++ [Submit (job_call j) (Threw e1); Log (AttemptFailed 1 e1);
                   Sleep RETRY_DELAY_MS;
                   Submit (job_call j) (Threw e2); Log (AttemptFailed 2 e2);
                   Sleep RETRY_DELAY_MS;
                   Submit (job_call j) (Threw e3); Log (AttemptFailed 3 e3);
                   Log (Critical (job_nonce j))].
Proof.
  unfold submit_with_retry.
  change (Z.to_nat MAX_RETRIES) with 3%nat. simpl. unfold send.
  destruct (submit (dest w) (job_call j)) as [d1 [h|x1]]; [discriminate|]. simpl.
  destruct (submit d1 (job_call j)) as [d2 [h|x2]]; [discriminate|]. simpl.
  destruct (submit d2 (job_call j)) as [d3 [h|x3]]; [discriminate|]. simpl.
  intros [= -> -> ->]. rewrite <- !app_assoc. split; reflexivity.
Qed.

End Failures.

(** C2, as amended.  A NonceAlreadyProcessed revert is handled as any other
    thrown error.  When the three submissions of a confirmed, unmarked event
    all throw, one of them (or each) with NonceAlreadyProcessed, the handler
    leaves the store as it was, with no ProcessedMark and no cursor write,
    after submitting the call three times with nothing mined; the next call
    of the handler for the event therefore submits it again. *)
Theorem nonce_already_processed_not_marked :
  forall {DState} (submit : DState -> DestCall -> DState * Outcome)
         (names : Listener.Names) (D : Z) (event : Listener.EventLog)
         (head1 head2 : Z) (w : World DState) (errs : list TxError) (n : Z),
    head1 - Listener.blockNumber event >= D ->
    head2 - Listener.blockNumber event >= D ->
    RelayerDB.isProcessed (db w) (Number (Listener.nonce event))
      (Listener.chain names) (Listener.event_type names) = false ->
    attempt_errors submit (Z.to_nat MAX_RETRIES) (dest w)
      (Listener.destination names (Listener.user event) (Listener.amount event)
         (Number (Listener.nonce event))) = Some errs ->
    In (NonceAlreadyProcessed n) errs ->
    let call := Listener.destination names (Listener.user event)
                  (Listener.amount event) (Number (Listener.nonce event)) in
    let w1 := Listener._handleEvent submit names D event head1 w in
    db w1 = db w
    /\ (exists tr,
          trace w1 = trace w ++ tr
          /\ submitted tr = replicate 3 call
          /\ mined tr = []
          /\ cursor_writes (Listener.cursor names) tr = [])
    /\ exists o tr,
         trace (Listener._handleEvent submit names D event head2 w1)
         = trace w1 ++ Log (Processing (Number (Listener.nonce event)))
                       :: Submit call o :: tr.
Proof.
  intros DState submit names D event head1 head2 w errs n H1 H2 Hfresh Herrs _ call w1.
  assert (Hnone : first_mined submit (Z.to_nat MAX_RETRIES) (dest w) call = None).
  { apply first_mined_attempt_errors. unfold call. rewrite Herrs. eauto. }
  assert (Hspec : db w1 = db w
                  /\ exists tr, trace w1 = trace w ++ tr
                                /\ submitted tr = replicate 3 call /\ mined tr = []
                                /\ cursor_writes (Listener.cursor names) tr = []).
  { subst w1. rewrite handle_submits by assumption. unfold submit_with_retry.
    retry_spec R. destruct R as (tr & Htr & _ & _ & Hm).
    unfold log in *.
    cbn [dest db trace job_call job_nonce job_chain job_event_type job_cursor job_block]
      in Hm, Htr.
    fold call in Hm. rewrite Hnone in Hm. destruct Hm as (Hdb & Hmi & Hsub & Hc).
    split; [exact Hdb|].
    exists (Log (Processing (Number (Listener.nonce event))) :: tr).
    rewrite Htr, <- app_assoc. split; [reflexivity|].
    split; [exact Hsub|]. split; [exact Hmi|]. apply Hc. }
  destruct Hspec as (Hdb & Htr). split; [exact Hdb|]. split; [exact Htr|].
  rewrite handle_submits; [|assumption|now rewrite Hdb].
  unfold submit_with_retry. change (Z.to_nat MAX_RETRIES) with 3%nat.
  match goal with |- context [retry_loop submit 3 ?a ?j ?w0] =>
    destruct (retry_loop_first_submit submit 2 a j w0) as (o & tr & ->) end.
  exists o, tr. unfold log. cbn [trace]. now rewrite <- app_assoc.
Qed.

Lemma nonce_already_processed_not_marked_witness :
  let w1 := LockListener._handleEvent (BridgeMint.submit Sample.tx1) 3 Sample.locked0 55
              (Sample.minted0 Sample.db40) in
  db w1 = Sample.db40
  /\ exists o tr,
       trace (LockListener._handleEvent (BridgeMint.submit Sample.tx1) 3 Sample.locked0 70 w1)
       = trace w1 ++ Log (Processing 0) :: Submit Sample.call0 o :: tr.
Proof.
  pose proof (nonce_already_processed_not_marked (BridgeMint.submit Sample.tx1)
                LockListener.names 3 Sample.locked0 55 70 (Sample.minted0 Sample.db40)
                (replicate 3 (NonceAlreadyProcessed 0)) 0
                ltac:(simpl; lia) ltac:(simpl; lia) eq_refl
                ltac:(vm_compute; reflexivity) ltac:(simpl; auto)) as H.
  destruct H as (Hdb & _ & Hnext). split; [exact Hdb | exact Hnext].
Defined.

(** C2 as stated fails on the code: with nonce 0 already minted on Chain B
    and not yet marked locally, each of the three submissions reverts with
    NonceAlreadyProcessed, and the handler ends with no ProcessedMark and
    the cursor still at 40, below the event's block 50. *)
Lemma nonce_already_processed_leaves_no_mark :
  let w1 := LockListener._handleEvent (BridgeMint.submit Sample.tx1) 3 Sample.locked0 55
              (Sample.minted0 Sample.db40) in
  attempt_errors (BridgeMint.submit Sample.tx1) 3 {[ 0 ]} Sample.call0
  = Some (replicate 3 (NonceAlreadyProcessed 0))
  /\ RelayerDB.isProcessed (db w1) 0 "chainA" "Locked" = false
  /\ RelayerDB.processed_events (db w1) = []
  /\ RelayerDB.getLastBlock (db w1) "chainA_lock" = 40.
Proof. repeat split; vm_compute; reflexivity. Qed.

(** C3, as amended.  When every submission of a confirmed, unmarked event
    throws, the handler makes exactly three attempts with a 2000 ms sleep
    after the first and after the second, logs the failure of each, logs
    CRITICAL after the third and returns; it writes no ProcessedMark and
    does not write the cursor, the store being left exactly as it was.
    (What becomes of the cursor afterwards is the caller's doing: a
    recovery pass ends with its own cursor write.) *)
Theorem three_attempts_then_critical :
  forall {DState} (submit : DState -> DestCall -> DState * Outcome)
         (names : Listener.Names) (D : Z) (event : Listener.EventLog)
         (head : Z) (w : World DState) (e1 e2 e3 : TxError),
    head - Listener.blockNumber event >= D ->
    RelayerDB.isProcessed (db w) (Number (Listener.nonce event))
      (Listener.chain names) (Listener.event_type names) = false ->
    attempt_errors submit (Z.to_nat MAX_RETRIES) (dest w)
      (Listener.destination names (Listener.user event) (Listener.amount event)
         (Number (Listener.nonce event))) = Some [e1; e2; e3] ->
    let nonce := Number (Listener.nonce event) in
    let call := Listener.destination names (Listener.user event)
                  (Listener.amount event) nonce in
    let w' := Listener._handleEvent submit names D event head w in
    MAX_RETRIES = 3
    /\ trace w'
       = trace w ++ [Log (Processing nonce);
                     Submit call (Threw e1); Log (AttemptFailed 1 e1); Sleep 2000;
                     Submit call (Threw e2); Log (AttemptFailed 2 e2); Sleep 2000;
                     Submit call (Threw e3); Log (AttemptFailed 3 e3);
                     Log (Critical nonce)]
    /\ db w' = db w
    /\ RelayerDB.isProcessed (db w') nonce (Listener.chain names)
         (Listener.event_type names) = false
    /\ RelayerDB.getLastBlock (db w') (Listener.cursor names)
       = RelayerDB.getLastBlock (db w) (Listener.cursor names).
Proof.
  intros DState submit names D event head w e1 e2 e3 Hge Hfresh Herrs nonce call w'.
  subst w'. rewrite handle_submits by assumption.
  match goal with |- context [submit_with_retry submit ?j ?w0] =>
    destruct (retry_loop_three_throws submit j w0 e1 e2 e3 Herrs) as (Hdb & Htr) end.
  rewrite Htr, Hdb. unfold log; cbn [db trace job_call job_nonce].
  rewrite <- app_assoc. repeat split. exact Hfresh.
Qed.

Lemma three_attempts_then_critical_witness :
  let w' := LockListener._handleEvent (always Sample.timeout) 3 Sample.locked0 55
              (Sample.world Sample.db40) in
  length (submitted (trace w')) = 3%nat /\ db w' = Sample.db40.
Proof.
  pose proof (three_attempts_then_critical (always Sample.timeout) LockListener.names 3
                Sample.locked0 55 (Sample.world Sample.db40)
                (OtherError "timeout") (OtherError "timeout") (OtherError "timeout")
                ltac:(simpl; lia) eq_refl eq_refl) as H.
  destruct H as (_ & Htr & Hdb & _).
  split; [|exact Hdb].
  etransitivity; [exact (f_equal (fun t => length (submitted t)) Htr) | reflexivity].
Defined.

(** C3 as stated fails on the recovery path: a pass at head 60 over the
    lock of block 50, every submission of which throws, leaves the event
    unmarked and still sets the cursor to 60, past block 50; the next pass,
    at head 70, scans from block 61 and submits nothing more. *)
Lemma recovery_moves_cursor_past_failed_event :
  let w1 := LockListener.recoverMissedEvents (always Sample.timeout) 3
              (Listener.MkSource 60 [Sample.locked0]) (Sample.world Sample.db40) in
  let w2 := LockListener.recoverMissedEvents (always Sample.timeout) 3
              (Listener.MkSource 70 [Sample.locked0]) w1 in
  submitted (trace w1) = replicate 3 Sample.call0
  /\ RelayerDB.isProcessed (db w1) 0 "chainA" "Locked" = false
  /\ RelayerDB.getLastBlock (db w1) "chainA_lock" = 60
  /\ Listener.blockNumber Sample.locked0 = 50
  /\ submitted (trace w2) = submitted (trace w1)
  /\ RelayerDB.isProcessed (db w2) 0 "chainA" "Locked" = false.
Proof. repeat split; vm_compute; reflexivity. Qed.

(** ** The governance handler *)

Section GovernanceFacts.

Import GovernanceListener.

Context {DState : Type}.
Variable submit : DState -> DestCall -> DState * Outcome.
Variable D : Z.

Local Abbreviation handle := (_handleEvent submit D).
Local Abbreviation key ev := (Number (proposalId ev)).
Local Abbreviation selector ev := (slice0 10 (data ev)).

Lemma gov_unconfirmed ev H (w : World DState) :
  H - blockNumber ev < D -> handle ev H w = log (NotYetConfirmed (key ev)) w.
Proof.
  intros Hlt. unfold _handleEvent.
  now destruct (Z.ltb_spec (H - blockNumber ev) D); [|lia].
Qed.

Lemma gov_processed ev H (w : World DState) :
  H - blockNumber ev >= D ->
  RelayerDB.isProcessed (db w) (key ev) "chainB" "ProposalPassed" = true ->
  handle ev H w = log (AlreadyProcessed (key ev)) w.
Proof.
  intros Hge Hp. unfold _handleEvent.
  destruct (Z.ltb_spec (H - blockNumber ev) D); [lia|]. now rewrite Hp.
Qed.

Lemma gov_pause ev H (w : World DState) :
  H - blockNumber ev >= D ->
  RelayerDB.isProcessed (db w) (key ev) "chainB" "ProposalPassed" = false ->
  selector ev = "0x6b9a13e3" ->
  handle ev H w
  = _executePauseBridge submit (key ev) ev
      (log (ProcessingProposal (key ev) (selector ev)) w).
Proof.
  intros Hge Hp Hs. unfold _handleEvent.
  destruct (Z.ltb_spec (H - blockNumber ev) D); [lia|]. rewrite Hp.
  now rewrite (proj2 (String.eqb_eq _ _) Hs).
Qed.

Lemma gov_unknown ev H (w : World DState) :
  H - blockNumber ev >= D ->
  RelayerDB.isProcessed (db w) (key ev) "chainB" "ProposalPassed" = false ->
  selector ev <> "0x6b9a13e3" ->
  handle ev H w
  = log (UnknownSelector (selector ev))
        (log (ProcessingProposal (key ev) (selector ev)) w).
Proof.
  intros Hge Hp Hs. unfold _handleEvent.
  destruct (Z.ltb_spec (H - blockNumber ev) D); [lia|]. rewrite Hp.
  now rewrite (proj2 (String.eqb_neq _ _) Hs).
Qed.

(** A confirmed proposal never yields a not-yet-confirmed entry. *)
Lemma gov_step ev H (w : World DState) :
  exists tr,
    trace (handle ev H w) = trace w ++ tr
    /\ (H - blockNumber ev >= D -> gate_logs tr = [])
    /\ (H - blockNumber ev < D -> tr = [Log (NotYetConfirmed (key ev))]).
Proof.
  destruct (Z.lt_ge_cases (H - blockNumber ev) D) as [Hlt|Hge].
  { rewrite gov_unconfirmed by exact Hlt. eexists. split; [reflexivity|].
    split; [lia | reflexivity]. }
  destruct (RelayerDB.isProcessed (db w) (key ev) "chainB" "ProposalPassed") eqn:Hp.
  { rewrite gov_processed by (lia || exact Hp). eexists. split; [reflexivity|].
    split; [reflexivity | lia]. }
  destruct (String.eqb_spec (selector ev) "0x6b9a13e3") as [Hs|Hs].
  - rewrite gov_pause by (lia || assumption).
    unfold _executePauseBridge, submit_with_retry.
    retry_spec R. destruct R as (tr & Htr & Hg & _).
    rewrite Htr. unfold log; cbn [trace]. rewrite <- app_assoc.
    eexists. split; [reflexivity|]. split; [intros _; exact Hg | lia].
  - rewrite gov_unknown by (lia || assumption).
    unfold log; cbn [trace]. rewrite <- app_assoc.
    eexists. split; [reflexivity|]. split; [reflexivity | lia].
Qed.

End GovernanceFacts.

Lemma added_app (before tr : list Effect) : added before (before ++ tr) = tr.
Proof. unfold added. apply drop_app_length. Qed.

(** ** Past the confirmation check *)

Section PastTheGate.

Context {DState : Type}.
Variable submit : DState -> DestCall -> DState * Outcome.

(** The loop opens with a submission of the call, answered by the
    destination as it stands. *)
Lemma retry_loop_opens k a j (w : World DState) :
  exists tr,
    trace (retry_loop submit (S k) a j w)
    = trace w ++ Submit (job_call j) (snd (submit (dest w) (job_call j))) :: tr.
Proof.
  simpl. unfold send.
  destruct (submit (dest w) (job_call j)) as [d' [hash|err]]; cbn [snd].
  - eexists. simpl. rewrite <- !app_assoc. reflexivity.
  - match goal with |- context [retry_loop submit k (a + 1) j ?w3] =>
      destruct (retry_loop_spec submit k (a + 1) j w3) as (tr & -> & _);
      assert (Hw : exists x, trace w3 = trace w ++ [Submit (job_call j) (Threw err);
                     Log (AttemptFailed a err); x])
    end.
    { destruct (a <? MAX_RETRIES); eexists; simpl; rewrite <- !app_assoc; reflexivity. }
    destruct Hw as (x & ->). eexists. rewrite <- !app_assoc. reflexivity.
Qed.

Lemma retry_opens j (w : World DState) :
  exists tr,
    trace (submit_with_retry submit j w)
    = trace w ++ Submit (job_call j) (snd (submit (dest w) (job_call j))) :: tr.
Proof. apply (retry_loop_opens 2 1 j w). Qed.

(** A first submission that is mined: the mark, the cursor, and that is
    all. *)
Lemma retry_mined_at_once j (w : World DState) d hash :
  submit (dest w) (job_call j) = (d, Mined hash) ->
  submit_with_retry submit j w
  = MkWorld (RelayerDB.setLastBlock
               (RelayerDB.markProcessed (db w) (job_nonce j) (job_chain j) hash
                                        (job_event_type j))
               (job_cursor j) (job_block j))
            d (trace w ++ relayed j hash).
Proof.
  intros Hs. unfold submit_with_retry. change (Z.to_nat MAX_RETRIES) with 3%nat.
  simpl. unfold send. rewrite Hs. simpl.
  unfold log, setLastBlock, markProcessed. cbn [db dest trace].
  now rewrite <- !app_assoc.
Qed.

(** One of the three submissions mined: the store holds the mark and the
    cursor. *)
Lemma retry_marks j (w : World DState) hash :
  first_mined submit (Z.to_nat MAX_RETRIES) (dest w) (job_call j) = Some hash ->
  db (submit_with_retry submit j w)
  = RelayerDB.setLastBlock
      (RelayerDB.markProcessed (db w) (job_nonce j) (job_chain j) hash
                               (job_event_type j))
      (job_cursor j) (job_block j).
Proof.
  intros Hmined. unfold submit_with_retry.
  retry_spec R. destruct R as (tr & _ & _ & _ & Hm).
  rewrite Hmined in Hm. apply Hm.
Qed.

End PastTheGate.

(** C4.  In the Lock and Burn handler and in the governance handler alike,
    an event of block B checked against head H under depth D gets past the
    confirmation check exactly when H - B >= D: when H - B < D the handler
    logs the event as not yet confirmed and returns, nothing submitted and
    the store untouched; otherwise no such entry is logged and the handler
    goes on to the replay check.  An event at block H - D is past the
    check; one at block H - D + 1 is not.

    Past the check the event is processed.  A marked event is logged as
    already processed and nothing else is done.  For an unmarked event
    (in the governance handler, one that carries the selector the handler
    dispatches on) the call is submitted, first thing after the processing
    entry; when that submission is mined the handler ends having written
    the mark and the cursor, and whenever one of the three submissions is
    mined the store holds the mark with the mined hash and the cursor at
    the event's block.  So it is for an event exactly at H - D. *)
Theorem confirmation_gate_iff :
  forall {DState} (submit : DState -> DestCall -> DState * Outcome)
         (names : Listener.Names) (D : Z) (event : Listener.EventLog)
         (proposal : GovernanceListener.EventLog) (H : Z) (w : World DState),
    let w1 := Listener._handleEvent submit names D event H w in
    let w2 := GovernanceListener._handleEvent submit D proposal H w in
    (H - Listener.blockNumber event >= D <-> gate_logs (added (trace w) (trace w1)) = [])
    /\ (H - GovernanceListener.blockNumber proposal >= D
        <-> gate_logs (added (trace w) (trace w2)) = [])
    /\ (H - Listener.blockNumber event < D ->
        w1 = log (NotYetConfirmed (Number (Listener.nonce event))) w)
    /\ (H - GovernanceListener.blockNumber proposal < D ->
        w2 = log (NotYetConfirmed (Number (GovernanceListener.proposalId proposal))) w)
    /\ (Listener.blockNumber event = H - D -> gate_logs (added (trace w) (trace w1)) = [])
    /\ (Listener.blockNumber event = H - D + 1 ->
        w1 = log (NotYetConfirmed (Number (Listener.nonce event))) w)
    /\ (GovernanceListener.blockNumber proposal = H - D ->
        gate_logs (added (trace w) (trace w2)) = [])
    /\ (GovernanceListener.blockNumber proposal = H - D + 1 ->
        w2 = log (NotYetConfirmed (Number (GovernanceListener.proposalId proposal))) w)
    /\ (H - Listener.blockNumber event >= D ->
        let n := Number (Listener.nonce event) in
        let job := MkJob (Listener.destination names (Listener.user event)
                                               (Listener.amount event) n)
                         n (Listener.chain names) (Listener.event_type names)
                         (Listener.cursor names) (Listener.blockNumber event) in
        let marked hash :=
          RelayerDB.setLastBlock
            (RelayerDB.markProcessed (db w) n (Listener.chain names) hash
                                     (Listener.event_type names))
            (Listener.cursor names) (Listener.blockNumber event) in
        (RelayerDB.isProcessed (db w) n (Listener.chain names)
                               (Listener.event_type names) = true ->
         w1 = log (AlreadyProcessed n) w)
        /\ (RelayerDB.isProcessed (db w) n (Listener.chain names)
                                  (Listener.event_type names) = false ->
            (exists tr,
               added (trace w) (trace w1)
               = Log (Processing n)
                 :: Submit (job_call job) (snd (submit (dest w) (job_call job))) :: tr)
            /\ (forall d hash,
                  submit (dest w) (job_call job) = (d, Mined hash) ->
                  w1 = MkWorld (marked hash) d
                               (trace w ++ Log (Processing n) :: relayed job hash))
            /\ (forall hash,
                  first_mined submit (Z.to_nat MAX_RETRIES) (dest w) (job_call job)
                  = Some hash ->
                  db w1 = marked hash
                  /\ RelayerDB.isProcessed (db w1) n (Listener.chain names)
                                           (Listener.event_type names) = true
                  /\ RelayerDB.getLastBlock (db w1) (Listener.cursor names)
                     = Listener.blockNumber event)))
    /\ (H - GovernanceListener.blockNumber proposal >= D ->
        let n := Number (GovernanceListener.proposalId proposal) in
        let selector := GovernanceListener.slice0 10 (GovernanceListener.data proposal) in
        let job := MkJob pauseBridge n "chainB" "ProposalPassed" "chainB_governance"
                         (GovernanceListener.blockNumber proposal) in
        let marked hash :=
          RelayerDB.setLastBlock
            (RelayerDB.markProcessed (db w) n "chainB" hash "ProposalPassed")
            "chainB_governance" (GovernanceListener.blockNumber proposal) in
        (RelayerDB.isProcessed (db w) n "chainB" "ProposalPassed" = true ->
         w2 = log (AlreadyProcessed n) w)
        /\ (RelayerDB.isProcessed (db w) n "chainB" "ProposalPassed" = false ->
            selector = "0x6b9a13e3" ->
            (exists tr,
               added (trace w) (trace w2)
               = Log (ProcessingProposal n selector)
                 :: Submit pauseBridge (snd (submit (dest w) pauseBridge)) :: tr)
            /\ (forall d hash,
                  submit (dest w) pauseBridge = (d, Mined hash) ->
                  w2 = MkWorld (marked hash) d
                               (trace w ++ Log (ProcessingProposal n selector)
                                        :: relayed job hash))
            /\ (forall hash,
                  first_mined submit (Z.to_nat MAX_RETRIES) (dest w) pauseBridge
                  = Some hash ->
                  db w2 = marked hash
                  /\ RelayerDB.isProcessed (db w2) n "chainB" "ProposalPassed" = true
                  /\ RelayerDB.getLastBlock (db w2) "chainB_governance"
                     = GovernanceListener.blockNumber proposal)))
    /\ (Listener.blockNumber event = H - D ->
        RelayerDB.isProcessed (db w) (Number (Listener.nonce event)) (Listener.chain names)
                              (Listener.event_type names) = false ->
        forall d hash,
          submit (dest w)
                 (Listener.destination names (Listener.user event) (Listener.amount event)
                                       (Number (Listener.nonce event)))
          = (d, Mined hash) ->
          submissions (added (trace w) (trace w1))
          = [(Listener.destination names (Listener.user event) (Listener.amount event)
                                   (Number (Listener.nonce event)), Mined hash)]
          /\ RelayerDB.isProcessed (db w1) (Number (Listener.nonce event))
                                   (Listener.chain names) (Listener.event_type names)
             = true
          /\ dest w1 = d).
Proof.
  intros DState submit names D event proposal H w w1 w2.
  assert (L : H - Listener.blockNumber event >= D
              <-> gate_logs (added (trace w) (trace w1)) = []).
  { subst w1. destruct (handle_step submit names D event H w) as (tr & Htr & _ & Hg & _).
    rewrite Htr, added_app. split.
    - intros Hge. destruct Hg as [Hg|Hlt]; [exact Hg | lia].
    - intros Hnil. destruct (Z.lt_ge_cases (H - Listener.blockNumber event) D); [|lia].
      rewrite handle_unconfirmed in Htr by assumption.
      unfold log in Htr; cbn [trace] in Htr. apply app_inv_head in Htr. subst tr.
      discriminate. }
  assert (G : H - GovernanceListener.blockNumber proposal >= D
              <-> gate_logs (added (trace w) (trace w2)) = []).
  { subst w2. destruct (gov_step submit D proposal H w) as (tr & Htr & Hge & Hlt).
    rewrite Htr, added_app. split; [exact Hge|].
    intros Hnil. destruct (Z.lt_ge_cases (H - GovernanceListener.blockNumber proposal) D);
      [|lia].
    rewrite (Hlt ltac:(assumption)) in Hnil. discriminate. }
  assert (P : H - Listener.blockNumber event >= D ->
              RelayerDB.isProcessed (db w) (Number (Listener.nonce event))
                                    (Listener.chain names) (Listener.event_type names)
              = false ->
              forall d hash,
                submit (dest w)
                       (Listener.destination names (Listener.user event)
                                             (Listener.amount event)
                                             (Number (Listener.nonce event)))
                = (d, Mined hash) ->
                w1 = MkWorld
                       (RelayerDB.setLastBlock
                          (RelayerDB.markProcessed (db w) (Number (Listener.nonce event))
                                                   (Listener.chain names) hash
                                                   (Listener.event_type names))
                          (Listener.cursor names) (Listener.blockNumber event))
                       d
                       (trace w ++ Log (Processing (Number (Listener.nonce event)))
                          :: relayed
                               (MkJob (Listener.destination names (Listener.user event)
                                         (Listener.amount event)
                                         (Number (Listener.nonce event)))
                                      (Number (Listener.nonce event))
                                      (Listener.chain names) (Listener.event_type names)
                                      (Listener.cursor names)
                                      (Listener.blockNumber event)) hash)).
  { intros Hge Hfresh d hash Hs. subst w1.
    rewrite handle_submits by assumption.
    rewrite (retry_mined_at_once submit _ _ d hash) by exact Hs.
    unfold log. cbn [db dest trace]. now rewrite <- app_assoc. }
  split; [exact L|]. split; [exact G|].
  split; [intros; now apply handle_unconfirmed|].
  split; [intros; now apply gov_unconfirmed|].
  split; [intros; apply L; lia|].
  split; [intros; apply handle_unconfirmed; lia|].
  split; [intros; apply G; lia|].
  split; [intros; apply gov_unconfirmed; lia|].
  split; [|split].
  - intros Hge n job marked. split; [intros Hp; now apply handle_processed|].
    intros Hfresh. split; [|split].
    + subst w1. rewrite handle_submits by assumption.
      match goal with |- context [submit_with_retry submit ?j ?w0] =>
        destruct (retry_opens submit j w0) as (tr & ->) end.
      exists tr. unfold log. cbn [trace dest job_call]. rewrite <- app_assoc, added_app.
      reflexivity.
    + intros d hash Hs. exact (P Hge Hfresh d hash Hs).
    + intros hash Hmined. subst w1. rewrite handle_submits by assumption.
      rewrite (retry_marks submit _ _ hash) by exact Hmined.
      cbn [db log job_nonce job_chain job_event_type job_cursor job_block].
      split; [reflexivity|]. split.
      * rewrite RelayerDBFacts.isProcessed_setLastBlock.
        apply RelayerDBFacts.isProcessed_markProcessed.
      * apply RelayerDBFacts.getLastBlock_setLastBlock.
  - intros Hge n selector job marked. split; [intros Hp; now apply gov_processed|].
    intros Hfresh Hsel. subst w2. rewrite gov_pause by assumption.
    unfold GovernanceListener._executePauseBridge. fold n selector job.
    split; [|split].
    + destruct (retry_opens submit job (log (ProcessingProposal n selector) w))
        as (tr & ->).
      exists tr. unfold log. cbn [trace dest job_call job]. rewrite <- app_assoc, added_app.
      reflexivity.
    + intros d hash Hs.
      rewrite (retry_mined_at_once submit job _ d hash) by exact Hs.
      unfold log. cbn [db dest trace]. now rewrite <- app_assoc.
    + intros hash Hmined.
      rewrite (retry_marks submit job _ hash) by exact Hmined.
      cbn [db log job_nonce job_chain job_event_type job_cursor job_block job].
      split; [reflexivity|]. split.
      * rewrite RelayerDBFacts.isProcessed_setLastBlock.
        apply RelayerDBFacts.isProcessed_markProcessed.
      * apply RelayerDBFacts.getLastBlock_setLastBlock.
  - intros Hat Hfresh d hash Hs.
    rewrite (P ltac:(lia) Hfresh d hash Hs). cbn [db dest trace].
    rewrite added_app. split; [reflexivity|]. split; [|reflexivity].
    rewrite RelayerDBFacts.isProcessed_setLastBlock.
    apply RelayerDBFacts.isProcessed_markProcessed.
Qed.

Lemma confirmation_gate_iff_witness :
  gate_logs (added [] (trace (LockListener._handleEvent (always (Mined Sample.tx1)) 3
                                Sample.locked0 53 (Sample.world RelayerDB.empty)))) = []
  /\ GovernanceListener._handleEvent (always (Mined Sample.tx1)) 3 Sample.passed1 53
       (Sample.world RelayerDB.empty)
     = log (NotYetConfirmed 1) (Sample.world RelayerDB.empty)
  /\ RelayerDB.isProcessed
       (db (LockListener._handleEvent (always (Mined Sample.tx1)) 3 Sample.locked0 53
              (Sample.world RelayerDB.empty))) 0 "chainA" "Locked" = true.
Proof.
  pose proof (confirmation_gate_iff (always (Mined Sample.tx1)) LockListener.names 3
                Sample.locked0 Sample.passed1 53 (Sample.world RelayerDB.empty)) as H.
  destruct H as (_ & _ & _ & _ & Hat & _ & _ & Habove & _ & _ & Hdone).
  split; [exact (Hat eq_refl)|]. split; [exact (Habove eq_refl)|].
  exact (proj1 (proj2 (Hdone eq_refl eq_refl tt Sample.tx1 eq_refl))).
Defined.

(** C5, as amended.  A confirmed, unmarked ProposalPassed event whose
    selector is not 0x6b9a13e3 makes the governance handler log the
    proposal and then the unknown selector, and nothing else: no
    destination call, and no ProcessedMark, the store being left as it
    was.  Handled again, the event goes the same way again. *)
Theorem unknown_selector_logged_not_marked :
  forall {DState} (submit : DState -> DestCall -> DState * Outcome) (D : Z)
         (proposal : GovernanceListener.EventLog) (head1 head2 : Z) (w : World DState),
    head1 - GovernanceListener.blockNumber proposal >= D ->
    head2 - GovernanceListener.blockNumber proposal >= D ->
    RelayerDB.isProcessed (db w) (Number (GovernanceListener.proposalId proposal))
      "chainB" "ProposalPassed" = false ->
    GovernanceListener.slice0 10 (GovernanceListener.data proposal) <> "0x6b9a13e3" ->
    let id := Number (GovernanceListener.proposalId proposal) in
    let selector := GovernanceListener.slice0 10 (GovernanceListener.data proposal) in
    let w1 := GovernanceListener._handleEvent submit D proposal head1 w in
    w1 = MkWorld (db w) (dest w)
           (trace w ++ [Log (ProcessingProposal id selector); Log (UnknownSelector selector)])
    /\ submitted (added (trace w) (trace w1)) = []
    /\ RelayerDB.isProcessed (db w1) id "chainB" "ProposalPassed" = false
    /\ GovernanceListener._handleEvent submit D proposal head2 w1
       = MkWorld (db w) (dest w)
           (trace w1 ++ [Log (ProcessingProposal id selector); Log (UnknownSelector selector)]).
Proof.
  intros DState submit D proposal head1 head2 w H1 H2 Hfresh Hsel id selector w1.
  assert (E : w1 = MkWorld (db w) (dest w)
                     (trace w ++ [Log (ProcessingProposal id selector);
                                  Log (UnknownSelector selector)])).
  { subst w1. rewrite gov_unknown by assumption.
    unfold log; cbn [db dest trace]. now rewrite <- app_assoc. }
  split; [exact E|]. rewrite E. cbn [db dest trace].
  split; [now rewrite added_app|]. split; [exact Hfresh|].
  rewrite gov_unknown by assumption.
  unfold log; cbn [db dest trace]. now rewrite <- !app_assoc.
Qed.

Lemma unknown_selector_logged_not_marked_witness :
  GovernanceListener._handleEvent (always (Mined Sample.tx1)) 3 Sample.passed1 60
    (Sample.world RelayerDB.empty)
  = MkWorld RelayerDB.empty tt
      [Log (ProcessingProposal 1 "0xdeadbeef"); Log (UnknownSelector "0xdeadbeef")].
Proof.
  exact (proj1 (unknown_selector_logged_not_marked (always (Mined Sample.tx1)) 3
                  Sample.passed1 60 60 (Sample.world RelayerDB.empty)
                  ltac:(simpl; lia) ltac:(simpl; lia) eq_refl
                  ltac:(vm_compute; discriminate))).
Defined.

(** C5 as stated fails on the code: after the confirmed proposal 1 with data
    0xdeadbeef is handled, the dedup table is still empty and the proposal
    is not marked. *)
Lemma unknown_selector_leaves_no_mark :
  let w1 := GovernanceListener._handleEvent (always (Mined Sample.tx1)) 3 Sample.passed1 60
              (Sample.world RelayerDB.empty) in
  RelayerDB.processed_events (db w1) = []
  /\ RelayerDB.isProcessed (db w1) 1 "chainB" "ProposalPassed" = false
  /\ submitted (trace w1) = []
  /\ trace w1 = [Log (ProcessingProposal 1 "0xdeadbeef"); Log (UnknownSelector "0xdeadbeef")].
Proof. repeat split; vm_compute; reflexivity. Qed.

(** ** The cursor *)

Section CursorFacts.

Import Listener.

Context {DState : Type}.
Variable submit : DState -> DestCall -> DState * Outcome.
Variable names : Names.
Variable D : Z.

Local Abbreviation cur := (cursor names).

(** A handler call leaves the cursor where it was, writing nothing to
    it, or writes the event's block to it once. *)
Lemma handle_cursor ev H (w : World DState) :
  exists tr,
    trace (_handleEvent submit names D ev H w) = trace w ++ tr
    /\ ((cursor_writes cur tr = []
         /\ RelayerDB.getLastBlock (db (_handleEvent submit names D ev H w)) cur
            = RelayerDB.getLastBlock (db w) cur)
        \/ (cursor_writes cur tr = [blockNumber ev]
            /\ RelayerDB.getLastBlock (db (_handleEvent submit names D ev H w)) cur
               = blockNumber ev)).
Proof.
  destruct (handle_step submit names D ev H w) as (tr & Htr & _ & _ & [A|B]).
  - destruct A as (Hdb & _ & Hc). exists tr. split; [exact Htr|]. left.
    now rewrite Hc, Hdb.
  - destruct B as (_ & _ & _ & Hc & hash & Hdb). exists tr. split; [exact Htr|]. right.
    rewrite Hc, String.eqb_refl, Hdb. split; [reflexivity|].
    apply RelayerDBFacts.getLastBlock_setLastBlock.
Qed.

Lemma sorted_from_lower lo lo' (l : list Z) :
  lo <= lo' -> StronglySorted Z.le (lo' :: l) -> StronglySorted Z.le (lo :: l).
Proof.
  intros Hle Hs. apply StronglySorted_inv in Hs as [Hs Hall].
  constructor; [exact Hs|]. eapply Forall_impl; [exact Hall|]. simpl. intros; lia.
Qed.

(** The cursor writes of a scan over ascending events with blocks in
    [lo .. H] are themselves ascending from [lo] and bounded by [H]. *)
Lemma handle_all_cursor events : forall H lo (w : World DState),
  ascending events ->
  Forall (fun ev => lo <= blockNumber ev <= H) events ->
  exists tr,
    trace (handle_all submit names D events H w) = trace w ++ tr
    /\ StronglySorted Z.le (lo :: cursor_writes cur tr)
    /\ Forall (fun b => b <= H) (cursor_writes cur tr).
Proof.
  induction events as [|ev events IH]; intros H lo w Hasc Hrange.
  - exists []. simpl. rewrite app_nil_r. repeat constructor.
  - apply StronglySorted_inv in Hasc as [Hasc Hhd].
    apply Forall_cons in Hrange as [Hev Hrange].
    change (handle_all submit names D (ev :: events) H w)
      with (handle_all submit names D events H (_handleEvent submit names D ev H w)).
    destruct (handle_cursor ev H w) as (tr1 & Htr1 & Hw1).
    destruct (IH H (blockNumber ev) (_handleEvent submit names D ev H w) Hasc)
      as (tr2 & Htr2 & Hs2 & Hb2).
    { rewrite Forall_forall in Hhd, Hrange. apply Forall_forall. intros x Hx.
      specialize (Hhd x Hx). specialize (Hrange x Hx). lia. }
    exists (tr1 ++ tr2). rewrite Htr2, Htr1, <- app_assoc.
    split; [reflexivity|]. rewrite cursor_writes_app.
    destruct Hw1 as [[-> _]|[-> _]]; simpl.
    + split; [|exact Hb2]. apply sorted_from_lower with (blockNumber ev); [lia | exact Hs2].
    + split.
      * constructor; [exact Hs2|]. constructor; [lia|].
        apply StronglySorted_inv in Hs2 as [_ Hall].
        eapply Forall_impl; [exact Hall|]. simpl. intros; lia.
      * constructor; [lia | exact Hb2].
Qed.

Lemma queryFilter_range src lo hi :
  Forall (fun ev => lo <= blockNumber ev <= hi) (queryFilter src lo hi).
Proof.
  unfold queryFilter. apply Forall_forall. intros ev Hin.
  apply list_elem_of_filter in Hin. tauto.
Qed.

Lemma queryFilter_ascending src lo hi :
  ascending (logs src) -> ascending (queryFilter src lo hi).
Proof.
  unfold ascending, queryFilter. intros Hs.
  induction Hs as [|ev l Hs IH Hall]; [constructor|].
  rewrite filter_cons. case_decide; [|exact IH].
  constructor; [exact IH|].
  apply Forall_forall. intros x Hx.
  apply list_elem_of_filter in Hx as [_ Hx].
  rewrite Forall_forall in Hall. now apply Hall.
Qed.

Lemma sorted_snoc lo (l : list Z) h :
  StronglySorted Z.le (lo :: l) -> lo <= h -> Forall (fun b => b <= h) l ->
  StronglySorted Z.le (lo :: l ++ [h]).
Proof.
  revert lo. induction l as [|x l IH]; intros lo Hs Hlo Hall.
  - repeat constructor. exact Hlo.
  - apply StronglySorted_inv in Hs as [Hs Hhd].
    apply Forall_cons in Hall as [Hx Hall].
    apply Forall_cons in Hhd as [Hlox Hhd].
    simpl. constructor.
    + apply IH; auto.
    + constructor; [exact Hlox|]. apply Forall_app. split; [exact Hhd|].
      repeat constructor. exact Hlo.
Qed.

(** What a recovery pass writes to its cursor. *)
Lemma recover_cursor src (w : World DState) :
  ascending (logs src) ->
  let w' := recoverMissedEvents submit names D src w in
  let c0 := RelayerDB.getLastBlock (db w) cur in
  StronglySorted Z.le (c0 :: cursor_writes cur (added (trace w) (trace w')))
  /\ RelayerDB.getLastBlock (db w') cur = Z.max c0 (getBlockNumber src).
Proof.
  intros Hasc w' c0. subst w'. unfold recoverMissedEvents. fold c0.
  destruct (Z.geb_spec c0 (getBlockNumber src)) as [Hge|Hlt].
  - unfold added. rewrite drop_all. simpl. split; [repeat constructor | lia].
  - match goal with |- context [handle_all submit names D ?evs ?H ?w1] =>
      destruct (handle_all_cursor evs H (c0 + 1) w1) as (tr & Htr & Hs & Hb)
    end.
    { now apply queryFilter_ascending. }
    { apply queryFilter_range. }
    unfold setLastBlock at 1 2. cbn [trace db]. rewrite Htr.
    unfold log at 1. cbn [trace]. rewrite <- !app_assoc, added_app.
    rewrite RelayerDBFacts.getLastBlock_setLastBlock. split; [|lia].
    change (cursor_writes cur ([Log (RecoveryScanning (c0 + 1) (getBlockNumber src))]
                                 ++ tr ++ [SetLastBlock cur (getBlockNumber src)]))
      with (cursor_writes cur (tr ++ [SetLastBlock cur (getBlockNumber src)])).
    rewrite cursor_writes_app. simpl. rewrite String.eqb_refl.
    apply sorted_snoc; [|lia|exact Hb].
    apply sorted_from_lower with (c0 + 1); [lia | exact Hs].
Qed.

End CursorFacts.

(** C6, as amended.  The store's [setLastBlock] is an unconditional upsert:
    the cursor reads back as the value written, whatever it was before.  A
    handler call leaves a stream's cursor as it was or sets it to the
    event's block.  Over a recovery pass on a source whose logs are in
    ascending block order the cursor does not decrease: every value the pass
    writes to it is at least the value before it, starting from the stored
    cursor, and the pass ends with the cursor at the larger of the stored
    cursor and the scanned head. *)
Theorem recovery_cursor_writes_ascend :
  forall {DState} (submit : DState -> DestCall -> DState * Outcome)
         (names : Listener.Names) (D : Z) (src : Listener.Source)
         (event : Listener.EventLog) (head : Z) (w : World DState)
         (store : RelayerDB.t) (c : string) (b : Z),
    ascending (Listener.logs src) ->
    let c0 := RelayerDB.getLastBlock (db w) (Listener.cursor names) in
    let w' := Listener.recoverMissedEvents submit names D src w in
    let w1 := Listener._handleEvent submit names D event head w in
    RelayerDB.getLastBlock (RelayerDB.setLastBlock store c b) c = b
    /\ StronglySorted Z.le
         (c0 :: cursor_writes (Listener.cursor names) (added (trace w) (trace w')))
    /\ RelayerDB.getLastBlock (db w') (Listener.cursor names)
       = Z.max c0 (Listener.getBlockNumber src)
    /\ c0 <= RelayerDB.getLastBlock (db w') (Listener.cursor names)
    /\ (RelayerDB.getLastBlock (db w1) (Listener.cursor names) = c0
        \/ RelayerDB.getLastBlock (db w1) (Listener.cursor names)
           = Listener.blockNumber event).
Proof.
  intros DState submit names D src event head w store c b Hasc c0 w' w1.
  destruct (recover_cursor submit names D src w Hasc) as (Hs & Hend).
  fold c0 w' in Hs, Hend.
  split; [apply RelayerDBFacts.getLastBlock_setLastBlock|].
  split; [exact Hs|]. split; [exact Hend|]. split; [rewrite Hend; lia|].
  destruct (handle_cursor submit names D event head w) as (tr & _ & [[_ E]|[_ E]]);
    [left | right]; exact E.
Qed.

Lemma recovery_cursor_writes_ascend_witness :
  let w' := LockListener.recoverMissedEvents (always (Mined Sample.tx1)) 3
              (Listener.MkSource 60 [Sample.locked0; Sample.locked1])
              (Sample.world Sample.db40) in
  StronglySorted Z.le (40 :: cursor_writes "chainA_lock" (added [] (trace w')))
  /\ RelayerDB.getLastBlock (db w') "chainA_lock" = 60.
Proof.
  pose proof (recovery_cursor_writes_ascend (always (Mined Sample.tx1)) LockListener.names 3
                (Listener.MkSource 60 [Sample.locked0; Sample.locked1])
                Sample.locked0 60 (Sample.world Sample.db40) RelayerDB.empty "chainA_lock" 0
                ltac:(repeat constructor; simpl; lia)) as H.
  destruct H as (_ & Hs & Hend & _). split; [exact Hs | exact Hend].
Defined.

(** C6 as stated fails on the code.  The store accepts a decrease: writing
    5 over 10 leaves 5.  And the pipeline performs one: when the lock of
    block 52 is relayed before the lock of block 50, both mined, the two
    success writes are 52 and then 50, and the cursor ends at 50. *)
Lemma cursor_decreases :
  let store := RelayerDB.setLastBlock
                 (RelayerDB.setLastBlock RelayerDB.empty "chainA_lock" 10) "chainA_lock" 5 in
  let w' := deliver (always (Mined Sample.tx1)) LockListener.names 3
              [(Sample.locked1, 60); (Sample.locked0, 60)] (Sample.world RelayerDB.empty) in
  RelayerDB.getLastBlock store "chainA_lock" = 5
  /\ cursor_writes "chainA_lock" (trace w') = [52; 50]
  /\ RelayerDB.getLastBlock (db w') "chainA_lock" = 50.
Proof. repeat split; vm_compute; reflexivity. Qed.

(** ** Recovery with nothing to do *)

Lemma filter_none {A} (P : A -> Prop) `{forall x, Decision (P x)} (l : list A) :
  Forall (fun x => ~ P x) l -> filter P l = [].
Proof.
  induction 1 as [|x l Hx _ IH]; [reflexivity|].
  rewrite filter_cons. case_decide; [contradiction | exact IH].
Qed.

Section RecoveryFacts.

Import Listener.

Context {DState : Type}.
Variable submit : DState -> DestCall -> DState * Outcome.
Variable names : Names.
Variable D : Z.

Lemma recover_caught_up src (w : World DState) :
  RelayerDB.getLastBlock (db w) (cursor names) >= getBlockNumber src ->
  recoverMissedEvents submit names D src w = w.
Proof.
  intros Hge. unfold recoverMissedEvents.
  now destruct (Z.geb_spec (RelayerDB.getLastBlock (db w) (cursor names))
                           (getBlockNumber src)); [|lia].
Qed.

Lemma recover_empty_range src (w : World DState) :
  RelayerDB.getLastBlock (db w) (cursor names) < getBlockNumber src ->
  queryFilter src (RelayerDB.getLastBlock (db w) (cursor names) + 1)
              (getBlockNumber src) = [] ->
  recoverMissedEvents submit names D src w
  = MkWorld (RelayerDB.setLastBlock (db w) (cursor names) (getBlockNumber src))
            (dest w)
            (trace w ++ [Log (RecoveryScanning
                                (RelayerDB.getLastBlock (db w) (cursor names) + 1)
                                (getBlockNumber src));
                         SetLastBlock (cursor names) (getBlockNumber src)]).
Proof.
  intros Hlt Hq. unfold recoverMissedEvents.
  destruct (Z.geb_spec (RelayerDB.getLastBlock (db w) (cursor names))
                       (getBlockNumber src)); [lia|].
  rewrite Hq. unfold handle_all, setLastBlock, log. cbn [foldl db dest trace].
  now rewrite <- app_assoc.
Qed.

(** A pass over a source with no log above the cursor neither marks nor
    submits. *)
Lemma recover_nothing_new src (w : World DState) :
  Forall (fun ev => blockNumber ev <= RelayerDB.getLastBlock (db w) (cursor names))
         (logs src) ->
  RelayerDB.processed_events (db (recoverMissedEvents submit names D src w))
  = RelayerDB.processed_events (db w)
  /\ submitted (trace (recoverMissedEvents submit names D src w)) = submitted (trace w).
Proof.
  intros Hall.
  destruct (Z.lt_ge_cases (RelayerDB.getLastBlock (db w) (cursor names))
                          (getBlockNumber src)) as [Hlt|Hge].
  - rewrite recover_empty_range; [|exact Hlt|].
    + cbn [db trace]. split; [reflexivity|].
      rewrite submitted_app. simpl. now rewrite app_nil_r.
    + unfold queryFilter. apply filter_none.
      eapply Forall_impl; [exact Hall|]. simpl. intros; lia.
  - rewrite recover_caught_up by lia. auto.
Qed.

Lemma recover_cursor_value src (w : World DState) :
  RelayerDB.getLastBlock (db (recoverMissedEvents submit names D src w)) (cursor names)
  = Z.max (RelayerDB.getLastBlock (db w) (cursor names)) (getBlockNumber src).
Proof.
  unfold recoverMissedEvents.
  destruct (Z.geb_spec (RelayerDB.getLastBlock (db w) (cursor names))
                       (getBlockNumber src)); [lia|].
  unfold setLastBlock at 1. cbn [db].
  rewrite RelayerDBFacts.getLastBlock_setLastBlock. lia.
Qed.

End RecoveryFacts.

Section GovernanceRecoveryFacts.

Import GovernanceListener.

Context {DState : Type}.
Variable submit : DState -> DestCall -> DState * Outcome.
Variable D : Z.

Lemma gov_recover_caught_up src (w : World DState) :
  RelayerDB.getLastBlock (db w) "chainB_governance" >= getBlockNumber src ->
  recoverMissedEvents submit D src w = w.
Proof.
  intros Hge. unfold recoverMissedEvents.
  now destruct (Z.geb_spec (RelayerDB.getLastBlock (db w) "chainB_governance")
                           (getBlockNumber src)); [|lia].
Qed.

Lemma gov_recover_empty_range src (w : World DState) :
  RelayerDB.getLastBlock (db w) "chainB_governance" < getBlockNumber src ->
  queryFilter src (RelayerDB.getLastBlock (db w) "chainB_governance" + 1)
              (getBlockNumber src) = [] ->
  recoverMissedEvents submit D src w
  = MkWorld (RelayerDB.setLastBlock (db w) "chainB_governance" (getBlockNumber src))
            (dest w)
            (trace w ++ [Log (RecoveryScanning
                                (RelayerDB.getLastBlock (db w) "chainB_governance" + 1)
                                (getBlockNumber src));
                         SetLastBlock "chainB_governance" (getBlockNumber src)]).
Proof.
  intros Hlt Hq. unfold recoverMissedEvents.
  destruct (Z.geb_spec (RelayerDB.getLastBlock (db w) "chainB_governance")
                       (getBlockNumber src)); [lia|].
  rewrite Hq. unfold handle_all, setLastBlock, log. cbn [foldl db dest trace].
  now rewrite <- app_assoc.
Qed.

End GovernanceRecoveryFacts.

(** C8.  A recovery pass with the stored cursor C at or above the head H
    does nothing at all.  With C < H and no matching event in blocks
    C+1..H, the pass logs the scan and upserts the cursor to H, and that is
    all: the dedup table and the destination are untouched.  This holds for
    the Lock and Burn listeners and for the governance listener.  Hence
    running a pass again on a source with no event above the head the
    previous pass scanned adds no ProcessedMark and no destination call. *)
Theorem recovery_without_new_events :
  forall {DState} (submit : DState -> DestCall -> DState * Outcome)
         (names : Listener.Names) (D : Z) (src again : Listener.Source)
         (gsrc : GovernanceListener.Source) (w : World DState),
    let C := RelayerDB.getLastBlock (db w) (Listener.cursor names) in
    let H := Listener.getBlockNumber src in
    let w' := Listener.recoverMissedEvents submit names D src w in
    let gC := RelayerDB.getLastBlock (db w) "chainB_governance" in
    let gH := GovernanceListener.getBlockNumber gsrc in
    let gw' := GovernanceListener.recoverMissedEvents submit D gsrc w in
    (C >= H -> w' = w)
    /\ (C < H -> Listener.queryFilter src (C + 1) H = [] ->
        w' = MkWorld (RelayerDB.setLastBlock (db w) (Listener.cursor names) H) (dest w)
               (trace w ++ [Log (RecoveryScanning (C + 1) H);
                            SetLastBlock (Listener.cursor names) H])
        /\ RelayerDB.processed_events (db w') = RelayerDB.processed_events (db w)
        /\ submitted (added (trace w) (trace w')) = [])
    /\ (gC >= gH -> gw' = w)
    /\ (gC < gH -> GovernanceListener.queryFilter gsrc (gC + 1) gH = [] ->
        gw' = MkWorld (RelayerDB.setLastBlock (db w) "chainB_governance" gH) (dest w)
                (trace w ++ [Log (RecoveryScanning (gC + 1) gH);
                             SetLastBlock "chainB_governance" gH])
        /\ RelayerDB.processed_events (db gw') = RelayerDB.processed_events (db w)
        /\ submitted (added (trace w) (trace gw')) = [])
    /\ (Forall (fun ev => Listener.blockNumber ev <= H) (Listener.logs again) ->
        RelayerDB.processed_events
          (db (Listener.recoverMissedEvents submit names D again w'))
        = RelayerDB.processed_events (db w')
        /\ submitted (trace (Listener.recoverMissedEvents submit names D again w'))
           = submitted (trace w')).
Proof.
  intros DState submit names D src again gsrc w C H w' gC gH gw'.
  split; [intros; now apply recover_caught_up|].
  split.
  { intros Hlt Hq. subst w'. rewrite recover_empty_range by assumption.
    cbn [db trace]. fold C H. split; [reflexivity|]. split; [reflexivity|].
    now rewrite added_app. }
  split; [intros; now apply gov_recover_caught_up|].
  split.
  { intros Hlt Hq. subst gw'. rewrite gov_recover_empty_range by assumption.
    cbn [db trace]. fold gC gH. split; [reflexivity|]. split; [reflexivity|].
    now rewrite added_app. }
  intros Hall. apply recover_nothing_new.
  subst w'. rewrite recover_cursor_value. fold C H.
  eapply Forall_impl; [exact Hall|]. simpl. intros; lia.
Qed.

Lemma recovery_without_new_events_witness :
  LockListener.recoverMissedEvents (always (Mined Sample.tx1)) 3
    (Listener.MkSource 40 [Sample.locked0]) (Sample.world Sample.db40)
  = Sample.world Sample.db40
  /\ LockListener.recoverMissedEvents (always (Mined Sample.tx1)) 3
       (Listener.MkSource 45 [Sample.locked0]) (Sample.world Sample.db40)
     = MkWorld (RelayerDB.setLastBlock Sample.db40 "chainA_lock" 45) tt
         [Log (RecoveryScanning 41 45); SetLastBlock "chainA_lock" 45].
Proof.
  split.
  - exact (proj1 (recovery_without_new_events (always (Mined Sample.tx1)) LockListener.names
                    3 (Listener.MkSource 40 [Sample.locked0]) (Listener.MkSource 40 [])
                    (GovernanceListener.MkSource 0 []) (Sample.world Sample.db40))
             ltac:(vm_compute; discriminate)).
  - exact (proj1 (proj1 (proj2 (recovery_without_new_events (always (Mined Sample.tx1))
                    LockListener.names 3 (Listener.MkSource 45 [Sample.locked0])
                    (Listener.MkSource 45 []) (GovernanceListener.MkSource 0 [])
                    (Sample.world Sample.db40)))
             ltac:(vm_compute; reflexivity) eq_refl)).
Defined.

(** ** The dedup table *)

Lemma isProcessed_apply_writes ws : forall db n c e,
  RelayerDB.isProcessed db n c e = true ->
  RelayerDB.isProcessed (RelayerDB.apply_writes db ws) n c e = true.
Proof.
  induction ws as [|wr ws IH]; intros db n c e H; [exact H|].
  simpl. apply IH. destruct wr; simpl.
  - now apply RelayerDBFacts.isProcessed_markProcessed_mono.
  - exact H.
Qed.

(** C7.  [markProcessed] inserts if absent and is idempotent: a second call
    with the same (nonce, chain, event type), whatever tx hash it brings,
    returns the store exactly as the first call left it, so the hash stored
    under the key is the one that was there or else the first call's;
    [isProcessed] is true for the key after the call and stays true under
    all later writes; and no store reached from the empty one by any
    sequence of writes holds more than one row under any key. *)
Theorem markProcessed_insert_if_absent :
  forall (store : RelayerDB.t) (n : Z) (c e tx1 tx2 : string)
         (later history : list RelayerDB.write) (n' : Z) (c' e' : string),
    let store1 := RelayerDB.markProcessed store n c tx1 e in
    RelayerDB.markProcessed store1 n c tx2 e = store1
    /\ RelayerDB.stored_tx_hash (RelayerDB.markProcessed store1 n c tx2 e) n c e
       = Some (default tx1 (RelayerDB.stored_tx_hash store n c e))
    /\ RelayerDB.isProcessed store1 n c e = true
    /\ RelayerDB.isProcessed (RelayerDB.apply_writes store1 later) n c e = true
    /\ (RelayerDB.marks (RelayerDB.apply_writes RelayerDB.empty history) n' c' e' <= 1)%nat.
Proof.
  intros store n c e tx1 tx2 later history n' c' e' store1. subst store1.
  split; [apply RelayerDBFacts.markProcessed_absorbs|].
  split; [rewrite RelayerDBFacts.markProcessed_absorbs;
          apply RelayerDBFacts.stored_tx_hash_markProcessed|].
  split; [apply RelayerDBFacts.isProcessed_markProcessed|].
  split; [apply isProcessed_apply_writes, RelayerDBFacts.isProcessed_markProcessed|].
  apply RelayerDBFacts.marks_apply_writes. change (0 <= 1)%nat. lia.
Qed.

(** ** Number(...) as the dedup key *)

Lemma Number_exact n : 0 <= n <= 2 ^ 53 -> Number n = n.
Proof.
  intros [H0 H53]. unfold Number.
  destruct (Z.ltb_spec n (2 ^ 53)) as [Hlt|Hge]; [reflexivity|].
  change (2 ^ 53) with 9007199254740992 in *.
  assert (n = 9007199254740992) as -> by lia. vm_compute. reflexivity.
Qed.

(** C9.  Each listener keys its [isProcessed] check and its [markProcessed]
    write by [Number] of the event's nonce (or proposal id).  That key is the
    nonce itself for every nonce from 0 to 2^53, but distinct uint256 nonces
    above 2^53 can share it: 2^53 + 3 and 2^53 + 4 do, so a mark written
    for the one makes [isProcessed] true for the other, and a handler that
    finds the one marked skips the confirmed event that carries the other
    as already processed; in particular, once the event with the one is
    relayed and marked, the event with the other is skipped. *)
Theorem number_key_exact_then_conflated :
  (forall n, 0 <= n <= 2 ^ 53 -> Number n = n)
  /\ exists n1 n2,
       2 ^ 53 < n1 /\ n1 < n2 /\ n2 < 2 ^ 256
       /\ Number n1 = Number n2
       /\ (forall store c tx e,
             RelayerDB.isProcessed (RelayerDB.markProcessed store (Number n1) c tx e)
                                   (Number n2) c e = true)
       /\ (forall (DState : Type) (submit : DState -> DestCall -> DState * Outcome)
                  (names : Listener.Names) (D H : Z) (event : Listener.EventLog)
                  (w : World DState),
             Listener.nonce event = n2 ->
             H - Listener.blockNumber event >= D ->
             RelayerDB.isProcessed (db w) (Number n1) (Listener.chain names)
                                   (Listener.event_type names) = true ->
             Listener._handleEvent submit names D event H w
             = log (AlreadyProcessed (Number n2)) w)
       /\ (forall (DState : Type) (submit : DState -> DestCall -> DState * Outcome)
                  (D H : Z) (proposal : GovernanceListener.EventLog) (w : World DState),
             GovernanceListener.proposalId proposal = n2 ->
             H - GovernanceListener.blockNumber proposal >= D ->
             RelayerDB.isProcessed (db w) (Number n1) "chainB" "ProposalPassed" = true ->
             GovernanceListener._handleEvent submit D proposal H w
             = log (AlreadyProcessed (Number n2)) w)
       /\ (forall (DState : Type) (submit : DState -> DestCall -> DState * Outcome)
                  (names : Listener.Names) (D H1 H2 : Z)
                  (event1 event2 : Listener.EventLog) (w : World DState) (hash : string),
             Listener.nonce event1 = n1 ->
             Listener.nonce event2 = n2 ->
             H1 - Listener.blockNumber event1 >= D ->
             H2 - Listener.blockNumber event2 >= D ->
             RelayerDB.isProcessed (db w) (Number n1) (Listener.chain names)
                                   (Listener.event_type names) = false ->
             first_mined submit (Z.to_nat MAX_RETRIES) (dest w)
               (Listener.destination names (Listener.user event1)
                  (Listener.amount event1) (Number n1)) = Some hash ->
             let w1 := Listener._handleEvent submit names D event1 H1 w in
             Listener._handleEvent submit names D event2 H2 w1
             = log (AlreadyProcessed (Number n2)) w1).
Proof.
  split; [exact Number_exact|].
  exists (2 ^ 53 + 3), (2 ^ 53 + 4).
  assert (E : Number (2 ^ 53 + 3) = Number (2 ^ 53 + 4)) by (vm_compute; reflexivity).
  split; [vm_compute; reflexivity|]. split; [lia|]. split; [vm_compute; reflexivity|].
  split; [exact E|].
  split; [|split; [|split]].
  - intros store c tx e. rewrite E. apply RelayerDBFacts.isProcessed_markProcessed.
  - intros DState submit names D H event w Hn Hge Hp.
    rewrite <- Hn. apply handle_processed; [exact Hge|]. rewrite Hn, <- E. exact Hp.
  - intros DState submit D H proposal w Hn Hge Hp.
    rewrite <- Hn. apply gov_processed; [exact Hge|]. rewrite Hn, <- E. exact Hp.
  - intros DState submit names D H1 H2 event1 event2 w hash Hn1 Hn2 Hge1 Hge2 Hfresh
           Hmined w1.
    rewrite <- Hn2. apply handle_processed; [exact Hge2|].
    subst w1. rewrite <- Hn1 in Hfresh, Hmined.
    rewrite (handle_mined submit names D event1 H1 w hash Hge1 Hfresh Hmined).
    rewrite RelayerDBFacts.isProcessed_setLastBlock, Hn1, Hn2, <- E.
    apply RelayerDBFacts.isProcessed_markProcessed.
Qed.

Lemma number_key_exact_then_conflated_witness :
  Number 9007199254740992 = 9007199254740992
  /\ Number 9007199254740995 = 9007199254740996.
Proof.
  split.
  - exact (proj1 number_key_exact_then_conflated 9007199254740992
             ltac:(vm_compute; split; discriminate)).
  - vm_compute. reflexivity.
Defined.

(** ** The live path *)

Section LiveFacts.

Import Listener.

Context {DState : Type}.
Variable submit : DState -> DestCall -> DState * Outcome.
Variable names : Names.
Variable D : Z.

(** The polling loop hands the event to the handler at the first head
    that reaches the target, and only then. *)
Lemma wait_spec ev polls : forall (w : World DState),
  match _waitForConfirmation submit names D polls ev w with
  | Some w' =>
    Exists (fun h => h >= blockNumber ev + D) polls
    /\ exists tr, trace w' = trace w ++ tr /\ gate_logs tr = []
  | None => Forall (fun h => h < blockNumber ev + D) polls
  end.
Proof.
  induction polls as [|h polls IH]; intros w; simpl; [constructor|].
  destruct (Z.geb_spec h (blockNumber ev + D)) as [Hge|Hlt].
  - split; [left; lia|].
    destruct (handle_step submit names D ev h w) as (tr & Htr & _ & Hg & _).
    exists tr. split; [exact Htr|]. destruct Hg as [Hg|Hg]; [exact Hg | lia].
  - specialize (IH (sleep 1000 w)).
    destruct (_waitForConfirmation submit names D polls ev (sleep 1000 w)) as [w'|].
    + destruct IH as (Hex & tr & Htr & Hg). split; [right; exact Hex|].
      exists (Sleep 1000 :: tr). rewrite Htr. unfold sleep; cbn [trace].
      rewrite <- app_assoc. split; [reflexivity | exact Hg].
    + constructor; [lia | exact IH].
Qed.

Lemma handle_all_extends events : forall H (w : World DState),
  exists tr, trace (handle_all submit names D events H w) = trace w ++ tr.
Proof.
  induction events as [|ev events IH]; intros H w.
  - exists []. simpl. now rewrite app_nil_r.
  - change (handle_all submit names D (ev :: events) H w)
      with (handle_all submit names D events H (_handleEvent submit names D ev H w)).
    destruct (IH H (_handleEvent submit names D ev H w)) as (tr2 & ->).
    destruct (handle_step submit names D ev H w) as (tr1 & -> & _).
    exists (tr1 ++ tr2). now rewrite app_assoc.
Qed.

(** A scanned event short of the depth is logged as not yet confirmed. *)
Lemma handle_all_defers ev events : forall H (w : World DState),
  ev ∈ events ->
  H - blockNumber ev < D ->
  exists tr,
    trace (handle_all submit names D events H w) = trace w ++ tr
    /\ Number (nonce ev) ∈ gate_logs tr.
Proof.
  induction events as [|x events IH]; intros H w Hin Hlt; [inversion Hin|].
  change (handle_all submit names D (x :: events) H w)
    with (handle_all submit names D events H (_handleEvent submit names D x H w)).
  apply elem_of_cons in Hin as [<-|Hin].
  - destruct (handle_all_extends events H (_handleEvent submit names D ev H w))
      as (tr2 & ->).
    rewrite handle_unconfirmed by exact Hlt. unfold log; cbn [trace].
    exists (Log (NotYetConfirmed (Number (nonce ev))) :: tr2).
    rewrite <- app_assoc. split; [reflexivity|]. simpl. left.
  - destruct (IH H (_handleEvent submit names D x H w) Hin Hlt) as (tr2 & -> & Hg).
    destruct (handle_step submit names D x H w) as (tr1 & -> & _).
    exists (tr1 ++ tr2). rewrite app_assoc. split; [reflexivity|].
    rewrite gate_logs_app. apply elem_of_app. now right.
Qed.

End LiveFacts.

Section GovernanceLiveFacts.

Import GovernanceListener.

Context {DState : Type}.
Variable submit : DState -> DestCall -> DState * Outcome.
Variable D : Z.

Lemma gov_wait_spec ev polls : forall (w : World DState),
  match _waitForConfirmation submit D polls ev w with
  | Some w' =>
    Exists (fun h => h >= blockNumber ev + D) polls
    /\ exists tr, trace w' = trace w ++ tr /\ gate_logs tr = []
  | None => Forall (fun h => h < blockNumber ev + D) polls
  end.
Proof.
  induction polls as [|h polls IH]; intros w; simpl; [constructor|].
  destruct (Z.geb_spec h (blockNumber ev + D)) as [Hge|Hlt].
  - split; [left; lia|].
    destruct (gov_step submit D ev h w) as (tr & Htr & Hg & _).
    exists tr. split; [exact Htr|]. apply Hg. lia.
  - specialize (IH (sleep 1000 w)).
    destruct (_waitForConfirmation submit D polls ev (sleep 1000 w)) as [w'|].
    + destruct IH as (Hex & tr & Htr & Hg). split; [right; exact Hex|].
      exists (Sleep 1000 :: tr). rewrite Htr. unfold sleep; cbn [trace].
      rewrite <- app_assoc. split; [reflexivity | exact Hg].
    + constructor; [lia | exact IH].
Qed.

End GovernanceLiveFacts.

(** C10.  [_waitForConfirmation] calls [_handleEvent] only with a polled
    head that has reached the event's block plus the depth, so on the live
    path the handler never takes its not-yet-confirmed return: a run of the
    polling loop that returns has logged no such entry, and a run returns
    exactly when one of the polled heads reaches the target.  This holds for
    the Lock and Burn listeners and for the governance listener, whatever
    the depth.  The branch is taken from a recovery scan: every scanned
    event short of the depth at the scan's head is logged as not yet
    confirmed. *)
Theorem live_path_never_unconfirmed :
  forall {DState} (submit : DState -> DestCall -> DState * Outcome)
         (names : Listener.Names) (D : Z) (polls : list Z)
         (event : Listener.EventLog) (proposal : GovernanceListener.EventLog)
         (src : Listener.Source) (w : World DState),
    match Listener._waitForConfirmation submit names D polls event w with
    | Some w' =>
      gate_logs (added (trace w) (trace w')) = []
      /\ Exists (fun h => h >= Listener.blockNumber event + D) polls
    | None => Forall (fun h => h < Listener.blockNumber event + D) polls
    end
    /\ match GovernanceListener._waitForConfirmation submit D polls proposal w with
       | Some w' =>
         gate_logs (added (trace w) (trace w')) = []
         /\ Exists (fun h => h >= GovernanceListener.blockNumber proposal + D) polls
       | None => Forall (fun h => h < GovernanceListener.blockNumber proposal + D) polls
       end
    /\ (let C := RelayerDB.getLastBlock (db w) (Listener.cursor names) in
        let H := Listener.getBlockNumber src in
        C < H ->
        event ∈ Listener.queryFilter src (C + 1) H ->
        H - Listener.blockNumber event < D ->
        Number (Listener.nonce event)
        ∈ gate_logs (added (trace w)
                       (trace (Listener.recoverMissedEvents submit names D src w)))).
Proof.
  intros DState submit names D polls event proposal src w.
  split; [|split].
  - pose proof (wait_spec submit names D event polls w) as S.
    destruct (Listener._waitForConfirmation submit names D polls event w) as [w'|];
      [|exact S].
    destruct S as (Hex & tr & -> & Hg). rewrite added_app. auto.
  - pose proof (gov_wait_spec submit D proposal polls w) as S.
    destruct (GovernanceListener._waitForConfirmation submit D polls proposal w) as [w'|];
      [|exact S].
    destruct S as (Hex & tr & -> & Hg). rewrite added_app. auto.
  - intros C H Hlt Hin Hshort. unfold Listener.recoverMissedEvents. fold C H.
    destruct (Z.geb_spec C H); [lia|].
    match goal with |- context [Listener.handle_all submit names D ?evs H ?w1] =>
      destruct (handle_all_defers submit names D event evs H w1 Hin Hshort)
        as (tr & Htr & Hg)
    end.
    unfold setLastBlock at 1. cbn [trace]. rewrite Htr.
    unfold log at 1. cbn [trace]. rewrite <- !app_assoc, added_app.
    rewrite !gate_logs_app. apply elem_of_app. right. apply elem_of_app. now left.
Qed.

Lemma live_path_never_unconfirmed_witness :
  (exists w',
     LockListener._waitForConfirmation (always (Mined Sample.tx1)) 3 [51; 52; 53]
       Sample.locked0 (Sample.world RelayerDB.empty) = Some w'
     /\ gate_logs (trace w') = [])
  /\ 0 ∈ gate_logs (trace (LockListener.recoverMissedEvents (always (Mined Sample.tx1)) 3
                             (Listener.MkSource 51 [Sample.locked0])
                             (Sample.world Sample.db40))).
Proof.
  split.
  - pose proof (proj1 (live_path_never_unconfirmed (always (Mined Sample.tx1))
                         LockListener.names 3 [51; 52; 53] Sample.locked0 Sample.passed1
                         (Listener.MkSource 51 [Sample.locked0])
                         (Sample.world RelayerDB.empty))) as H.
    eexists. split; [reflexivity|]. exact (proj1 H).
  - exact (proj2 (proj2 (live_path_never_unconfirmed (always (Mined Sample.tx1))
                           LockListener.names 3 [] Sample.locked0 Sample.passed1
                           (Listener.MkSource 51 [Sample.locked0])
                           (Sample.world Sample.db40)))
             ltac:(vm_compute; reflexivity)
             ltac:(vm_compute; left)
             ltac:(vm_compute; reflexivity)).
Defined.

(** * Further properties of the relayer *)

(** ** The store as a function of its history *)

Lemma last_cons_default {A} (x d : A) (l : list A) :
  List.last (x :: l) d = List.last l x.
Proof.
  revert x d. induction l as [|y l IH]; intros x d; [reflexivity|].
  change (List.last (x :: y :: l) d) with (List.last (y :: l) d).
  now rewrite (IH y d), (IH y x).
Qed.

Lemma stored_tx_hash_setLastBlock db k b n c e :
  RelayerDB.stored_tx_hash (RelayerDB.setLastBlock db k b) n c e
  = RelayerDB.stored_tx_hash db n c e.
Proof. reflexivity. Qed.

Lemma stored_tx_hash_markProcessed_other db n c tx e n' c' e' :
  RelayerDB.where_key n' c' e' (RelayerDB.Row n c tx e) = false ->
  RelayerDB.stored_tx_hash (RelayerDB.markProcessed db n c tx e) n' c' e'
  = RelayerDB.stored_tx_hash db n' c' e'.
Proof.
  intros Hk. unfold RelayerDB.stored_tx_hash, RelayerDB.markProcessed,
    RelayerDB.insert_or_ignore. simpl.
  destruct (existsb (RelayerDB.where_key n c e) (RelayerDB.processed_events db));
    [reflexivity|].
  induction (RelayerDB.processed_events db) as [|r rows IH]; simpl.
  - now rewrite Hk.
  - destruct (RelayerDB.where_key n' c' e' r); [reflexivity | exact IH].
Qed.

Lemma stored_tx_hash_is_processed db n c e :
  RelayerDB.isProcessed db n c e = true <-> is_Some (RelayerDB.stored_tx_hash db n c e).
Proof.
  unfold RelayerDB.isProcessed, RelayerDB.stored_tx_hash.
  induction (RelayerDB.processed_events db) as [|r rows IH]; simpl.
  - split; [discriminate | intros [? [=]]].
  - destruct (RelayerDB.where_key n c e r); simpl; [split; eauto | exact IH].
Qed.

(** X1.  The dedup table answers by the history of writes alone, first
    writer winning: after any sequence of writes, the hash stored under a
    key is the one the store already held, or else the one brought by the
    first [markProcessed] of the sequence that names the key, and
    [isProcessed] is true exactly when there is such a hash.  Marks under
    other keys and cursor writes play no part. *)
Theorem dedup_first_writer_wins :
  forall (store : RelayerDB.t) (ws : list RelayerDB.write) (n : Z) (c e : string),
    RelayerDB.stored_tx_hash (RelayerDB.apply_writes store ws) n c e
    = match RelayerDB.stored_tx_hash store n c e with
      | Some tx => Some tx
      | None => head (mark_hashes n c e ws)
      end
    /\ (RelayerDB.isProcessed (RelayerDB.apply_writes store ws) n c e = true
        <-> RelayerDB.isProcessed store n c e = true \/ mark_hashes n c e ws <> []).
Proof.
  intros store ws n c e.
  assert (H : RelayerDB.stored_tx_hash (RelayerDB.apply_writes store ws) n c e
              = match RelayerDB.stored_tx_hash store n c e with
                | Some tx => Some tx
                | None => head (mark_hashes n c e ws)
                end).
  { revert store. induction ws as [|wr ws IH]; intros store.
    - simpl. now destruct (RelayerDB.stored_tx_hash store n c e).
    - change (RelayerDB.apply_writes store (wr :: ws))
        with (RelayerDB.apply_writes (RelayerDB.apply_write store wr) ws).
      rewrite IH. destruct wr as [n' c' tx e'|k b]; simpl.
      + destruct (RelayerDB.where_key n c e (RelayerDB.Row n' c' tx e')) eqn:K.
        * apply RelayerDBFacts.where_key_true in K. injection K as -> -> ->.
          rewrite RelayerDBFacts.stored_tx_hash_markProcessed.
          now destruct (RelayerDB.stored_tx_hash store n c e).
        * now rewrite stored_tx_hash_markProcessed_other by exact K.
      + reflexivity. }
  split; [exact H|].
  rewrite !stored_tx_hash_is_processed, H.
  destruct (RelayerDB.stored_tx_hash store n c e) as [tx|].
  - split; eauto.
  - destruct (mark_hashes n c e ws) as [|tx l]; simpl.
    + split; [intros [? [=]] | intros [[? [=]]|Hne]; now destruct Hne].
    + split; [intros _; right; discriminate | intros _; eauto].
Qed.

(** X2.  A stream's cursor answers by the history of writes alone, last
    writer winning: after any sequence of writes [getLastBlock] returns the
    block of the last [setLastBlock] of the sequence for that stream, or
    what the store held before when there is none, which is 0 on a new
    store.  Writes to other streams and marks play no part. *)
Theorem cursor_last_writer_wins :
  forall (store : RelayerDB.t) (ws : list RelayerDB.write) (c : string),
    RelayerDB.getLastBlock (RelayerDB.apply_writes store ws) c
    = List.last (cursor_values c ws) (RelayerDB.getLastBlock store c)
    /\ RelayerDB.getLastBlock (RelayerDB.apply_writes RelayerDB.empty ws) c
       = List.last (cursor_values c ws) 0.
Proof.
  assert (H : forall ws store c,
             RelayerDB.getLastBlock (RelayerDB.apply_writes store ws) c
             = List.last (cursor_values c ws) (RelayerDB.getLastBlock store c)).
  { induction ws as [|wr ws IH]; intros store c; [reflexivity|].
    change (RelayerDB.apply_writes store (wr :: ws))
      with (RelayerDB.apply_writes (RelayerDB.apply_write store wr) ws).
    rewrite IH. destruct wr as [n' c' tx e'|k b]; simpl; [reflexivity|].
    destruct (String.eqb_spec k c) as [->|Hne].
    - rewrite RelayerDBFacts.getLastBlock_setLastBlock. symmetry. apply last_cons_default.
    - now rewrite RelayerDBFacts.getLastBlock_setLastBlock_ne. }
  intros store ws c. split; [apply H|]. rewrite H. reflexivity.
Qed.

(** ** The retry loop, path by path *)

(** X3.  All a run of the retry loop can do, for the Lock, Burn and
    governance listeners alike: it submits the call at most three times and
    stops at the first submission that is mined, writing the mark and then
    the cursor right after it; each failed attempt is logged, a 2000 ms
    sleep follows the first and the second failure only, and a CRITICAL
    entry the third, after which the store is as it was. *)
Theorem retry_loop_paths :
  forall {DState} (submit : DState -> DestCall -> DState * Outcome) (j : Job)
         (w : World DState),
    let w' := submit_with_retry submit j w in
    let c := job_call j in
    let tr := added (trace w) (trace w') in
    let marked hash :=
      RelayerDB.setLastBlock
        (RelayerDB.markProcessed (db w) (job_nonce j) (job_chain j) hash
                                 (job_event_type j))
        (job_cursor j) (job_block j) in
    (exists h, tr = relayed j h /\ db w' = marked h)
    \/ (exists e1 h,
          tr = failed_attempt c 1 e1 ++ [Sleep 2000] ++ relayed j h
          /\ db w' = marked h)
    \/ (exists e1 e2 h,
          tr = failed_attempt c 1 e1 ++ [Sleep 2000]
               ++ failed_attempt c 2 e2 ++ [Sleep 2000] ++ relayed j h
          /\ db w' = marked h)
    \/ (exists e1 e2 e3,
          tr = failed_attempt c 1 e1 ++ [Sleep 2000]
               ++ failed_attempt c 2 e2 ++ [Sleep 2000]
               ++ failed_attempt c 3 e3 ++ [Log (Critical (job_nonce j))]
          /\ db w' = db w).
Proof.
  intros DState submit j w w' c tr marked. subst w' tr.
  unfold submit_with_retry. change (Z.to_nat MAX_RETRIES) with 3%nat.
  simpl. unfold send. fold c.
  destruct (submit (dest w) c) as [d1 [h1|e1]]; simpl.
  { left. exists h1. rewrite <- !app_assoc, added_app. split; reflexivity. }
  destruct (submit d1 c) as [d2 [h2|e2]]; simpl.
  { right; left. exists e1, h2. rewrite <- !app_assoc, added_app. split; reflexivity. }
  destruct (submit d2 c) as [d3 [h3|e3]]; simpl.
  { right; right; left. exists e1, e2, h3. rewrite <- !app_assoc, added_app.
    split; reflexivity. }
  right; right; right. exists e1, e2, e3. rewrite <- !app_assoc, added_app.
  split; reflexivity.
Qed.

(** ** What gets submitted *)

Section SubmissionFacts.

Import Listener.

Context {DState : Type}.
Variable submit : DState -> DestCall -> DState * Outcome.
Variable names : Names.
Variable D : Z.

Local Abbreviation call ev :=
  (destination names (user ev) (amount ev) (Number (nonce ev))).

Lemma handle_submits_only ev H (w : World DState) :
  exists tr,
    trace (_handleEvent submit names D ev H w) = trace w ++ tr
    /\ Forall (fun c => c = call ev) (submitted tr)
    /\ (submitted tr = []
        \/ (H - blockNumber ev >= D
            /\ RelayerDB.isProcessed (db w) (Number (nonce ev)) (chain names)
                 (event_type names) = false)).
Proof.
  destruct (Z.lt_ge_cases (H - blockNumber ev) D) as [Hlt|Hge].
  { rewrite handle_unconfirmed by exact Hlt. eexists. split; [reflexivity|].
    simpl. split; [constructor | now left]. }
  destruct (RelayerDB.isProcessed (db w) (Number (nonce ev)) (chain names)
              (event_type names)) eqn:Hp.
  { rewrite handle_processed by (lia || exact Hp). eexists. split; [reflexivity|].
    simpl. split; [constructor | now left]. }
  destruct (handle_step submit names D ev H w) as (tr & Htr & Hs & _).
  exists tr. split; [exact Htr|]. split; [exact Hs|]. right. split; [lia | reflexivity].
Qed.

Lemma handle_all_submits_only events : forall H (w : World DState),
  exists tr,
    trace (handle_all submit names D events H w) = trace w ++ tr
    /\ Forall (fun c => exists ev, ev ∈ events /\ H - blockNumber ev >= D /\ c = call ev)
              (submitted tr).
Proof.
  induction events as [|x events IH]; intros H w.
  - exists []. simpl. rewrite app_nil_r. split; [reflexivity | constructor].
  - change (handle_all submit names D (x :: events) H w)
      with (handle_all submit names D events H (_handleEvent submit names D x H w)).
    destruct (IH H (_handleEvent submit names D x H w)) as (tr2 & -> & H2).
    destruct (handle_submits_only x H w) as (tr1 & -> & Hall & Hcase).
    exists (tr1 ++ tr2). rewrite app_assoc. split; [reflexivity|].
    rewrite submitted_app. apply Forall_app. split.
    + destruct Hcase as [->|[Hge _]]; [constructor|].
      eapply Forall_impl; [exact Hall|]. simpl. intros c ->.
      exists x. split; [left | split; [exact Hge | reflexivity]].
    + eapply Forall_impl; [exact H2|]. simpl. intros c (ev & Hin & Hge & ->).
      exists ev. split; [now right | split; [exact Hge | reflexivity]].
Qed.

End SubmissionFacts.

(** X4.  Nothing is submitted for an event short of the confirmation depth
    or already marked.  A call of the Lock or Burn handler submits nothing
    but the event's own call (its user and amount, and [Number] of its
    nonce), and submits at all only when the head is at least D past the
    event's block and the event is unmarked.  Every call a recovery pass
    submits is the call of a log of the source in blocks C+1..H that is at
    least D below the scanned head H. *)
Theorem only_confirmed_events_submitted :
  forall {DState} (submit : DState -> DestCall -> DState * Outcome)
         (names : Listener.Names) (D : Z) (event : Listener.EventLog) (head : Z)
         (src : Listener.Source) (w : World DState),
    let call ev := Listener.destination names (Listener.user ev) (Listener.amount ev)
                     (Number (Listener.nonce ev)) in
    let tr := added (trace w) (trace (Listener._handleEvent submit names D event head w)) in
    let C := RelayerDB.getLastBlock (db w) (Listener.cursor names) in
    let H := Listener.getBlockNumber src in
    Forall (fun c => c = call event) (submitted tr)
    /\ (submitted tr = []
        \/ (head - Listener.blockNumber event >= D
            /\ RelayerDB.isProcessed (db w) (Number (Listener.nonce event))
                 (Listener.chain names) (Listener.event_type names) = false))
    /\ Forall (fun c => exists ev,
                 ev ∈ Listener.logs src
                 /\ C < Listener.blockNumber ev <= H
                 /\ H - Listener.blockNumber ev >= D
                 /\ c = call ev)
         (submitted (added (trace w)
                       (trace (Listener.recoverMissedEvents submit names D src w)))).
Proof.
  intros DState submit names D event head src w call tr C H. subst tr.
  destruct (handle_submits_only submit names D event head w) as (tr & -> & Hall & Hcase).
  rewrite added_app. split; [exact Hall|]. split; [exact Hcase|].
  unfold Listener.recoverMissedEvents. fold C H.
  destruct (Z.geb_spec C H) as [Hge|Hlt].
  { unfold added. rewrite drop_all. constructor. }
  match goal with |- context [Listener.handle_all submit names D ?evs H ?w1] =>
    destruct (handle_all_submits_only submit names D evs H w1) as (tr2 & Htr2 & H2)
  end.
  unfold setLastBlock at 1. cbn [trace]. rewrite Htr2.
  unfold log at 1. cbn [trace]. rewrite <- !app_assoc, added_app.
  rewrite !submitted_app. simpl. rewrite app_nil_r.
  eapply Forall_impl; [exact H2|]. simpl. intros c (ev & Hin & Hge & ->).
  apply list_elem_of_filter in Hin as [Hrange Hin].
  exists ev. split; [exact Hin|]. split; [lia|]. split; [exact Hge | reflexivity].
Qed.

(** ** Marks stay *)

Section MarksStay.

Import Listener.

Context {DState : Type}.
Variable submit : DState -> DestCall -> DState * Outcome.
Variable names : Names.
Variable D : Z.

Lemma handle_all_keeps_marks events : forall H (w : World DState) n c e,
  RelayerDB.isProcessed (db w) n c e = true ->
  RelayerDB.isProcessed (db (handle_all submit names D events H w)) n c e = true.
Proof.
  induction events as [|x events IH]; intros H w n c e Hp; [exact Hp|].
  change (handle_all submit names D (x :: events) H w)
    with (handle_all submit names D events H (_handleEvent submit names D x H w)).
  apply IH. now apply handle_keeps_marks.
Qed.

End MarksStay.

(** ** The governance relay *)

Section GovernanceRelay.

Import GovernanceListener.

Context {DState : Type}.
Variable submit : DState -> DestCall -> DState * Outcome.
Variable D : Z.

(** The loop never submits more often than it has iterations. *)
Lemma retry_loop_count k : forall a j (w : World DState),
  exists tr,
    trace (retry_loop submit k a j w) = trace w ++ tr
    /\ (length (submitted tr) <= k)%nat.
Proof.
  induction k as [|k IH]; intros a j w.
  - exists []. simpl. rewrite app_nil_r. split; [reflexivity | lia].
  - simpl. unfold send.
    destruct (submit (dest w) (job_call j)) as [d' [hash|err]].
    + eexists. simpl. rewrite <- !app_assoc. split; [reflexivity|]. simpl. lia.
    + match goal with |- context [retry_loop submit k (a + 1) j ?w3] =>
        destruct (IH (a + 1) j w3) as (tr & -> & Hlen);
        assert (Hw : exists x, trace w3 = trace w ++ [Submit (job_call j) (Threw err);
                       Log (AttemptFailed a err); x] /\ submitted [x] = [])
      end.
      { destruct (a <? MAX_RETRIES); eexists; simpl; rewrite <- !app_assoc;
          split; reflexivity. }
      destruct Hw as (x & -> & Hx).
      exists ([Submit (job_call j) (Threw err); Log (AttemptFailed a err); x] ++ tr).
      rewrite <- app_assoc. split; [reflexivity|].
      rewrite submitted_app.
      change (submitted [Submit (job_call j) (Threw err); Log (AttemptFailed a err); x])
        with (job_call j :: submitted [x]).
      rewrite Hx. simpl. lia.
Qed.

Lemma slice0_selector rest : slice0 10 ("0x6b9a13e3" ++ rest)%string = "0x6b9a13e3".
Proof. unfold slice0. simpl. now destruct rest. Qed.

Lemma gov_submits_only ev H (w : World DState) :
  exists tr,
    trace (_handleEvent submit D ev H w) = trace w ++ tr
    /\ Forall (fun c => c = pauseBridge) (submitted tr)
    /\ (length (submitted tr) <= 3)%nat
    /\ (submitted tr = []
        \/ (H - blockNumber ev >= D
            /\ RelayerDB.isProcessed (db w) (Number (proposalId ev)) "chainB"
                 "ProposalPassed" = false
            /\ slice0 10 (data ev) = "0x6b9a13e3")).
Proof.
  destruct (Z.lt_ge_cases (H - blockNumber ev) D) as [Hlt|Hge].
  { rewrite gov_unconfirmed by exact Hlt. eexists. split; [reflexivity|].
    simpl. split; [constructor|]. split; [lia | now left]. }
  destruct (RelayerDB.isProcessed (db w) (Number (proposalId ev)) "chainB"
              "ProposalPassed") eqn:Hp.
  { rewrite gov_processed by (lia || exact Hp). eexists. split; [reflexivity|].
    simpl. split; [constructor|]. split; [lia | now left]. }
  destruct (String.eqb_spec (slice0 10 (data ev)) "0x6b9a13e3") as [Hs|Hs].
  - rewrite gov_pause by (lia || assumption).
    unfold _executePauseBridge, submit_with_retry.
    retry_spec R. destruct R as (tr & Htr & _ & Hall & _).
    match goal with |- context [retry_loop submit ?k ?a ?j ?w0] =>
      destruct (retry_loop_count k a j w0) as (tr' & Htr' & Hlen) end.
    rewrite Htr in Htr'. apply app_inv_head in Htr'. subst tr'.
    rewrite Htr. unfold log; cbn [trace]. rewrite <- app_assoc.
    eexists. split; [reflexivity|].
    change (submitted ([Log (ProcessingProposal (Number (proposalId ev))
                              (slice0 10 (data ev)))] ++ tr)) with (submitted tr).
    split; [exact Hall|]. split; [exact Hlen|]. right.
    split; [lia|]. split; [reflexivity | exact Hs].
  - rewrite gov_unknown by (lia || assumption).
    unfold log; cbn [trace]. rewrite <- app_assoc.
    eexists. split; [reflexivity|]. simpl. split; [constructor|]. split; [lia | now left].
Qed.

Lemma gov_mined ev H (w : World DState) hash :
  H - blockNumber ev >= D ->
  RelayerDB.isProcessed (db w) (Number (proposalId ev)) "chainB" "ProposalPassed" = false ->
  slice0 10 (data ev) = "0x6b9a13e3" ->
  first_mined submit (Z.to_nat MAX_RETRIES) (dest w) pauseBridge = Some hash ->
  exists tr,
    trace (_handleEvent submit D ev H w) = trace w ++ tr
    /\ mined tr = [pauseBridge]
    /\ db (_handleEvent submit D ev H w)
       = RelayerDB.setLastBlock
           (RelayerDB.markProcessed (db w) (Number (proposalId ev)) "chainB" hash
                                    "ProposalPassed")
           "chainB_governance" (blockNumber ev).
Proof.
  intros Hge Hfresh Hsel Hmined. rewrite gov_pause by assumption.
  unfold _executePauseBridge, submit_with_retry.
  retry_spec R. destruct R as (tr & Htr & _ & _ & Hm).
  unfold log in Hm.
  cbn [dest db job_call job_nonce job_chain job_event_type job_cursor job_block] in Hm.
  rewrite Hmined in Hm. destruct Hm as (Hdb & Hmi & _).
  exists (Log (ProcessingProposal (Number (proposalId ev)) (slice0 10 (data ev))) :: tr).
  rewrite Htr. unfold log at 1; cbn [trace]. rewrite <- app_assoc.
  split; [reflexivity|]. split; [exact Hmi | exact Hdb].
Qed.

End GovernanceRelay.

(** The hash of the empty message and a selector every ERC-20 has, as
    published. *)
Lemma keccak256_known_values :
  Keccak.hex (Keccak.keccak256 [])
  = "c5d2460186f7233c927e7db2dcc703c0e500b653ca82273b7bfad8045d85a470"
  /\ Keccak.selector "transfer(address,uint256)" = "0xa9059cbb".
Proof. split; vm_compute; reflexivity. Qed.

Lemma pauseBridge_calldata_value : pauseBridge_calldata = "0x7dd0480f".
Proof. vm_compute. reflexivity. Qed.

Lemma slice0_calldata rest :
  GovernanceListener.slice0 10 (pauseBridge_calldata ++ rest)%string = "0x7dd0480f".
Proof.
  rewrite pauseBridge_calldata_value. unfold GovernanceListener.slice0. simpl.
  now destruct rest.
Qed.

(** X6.  What the governance handler relays, and what it does not.  The
    handler dispatches on the literal 0x6b9a13e3.  For a confirmed,
    unmarked ProposalPassed event whose data begins with these ten
    characters, whatever follows them, when one of the three submissions of
    [pauseBridge()] is mined the handler marks the proposal under [Number]
    of its id, "chainB" and "ProposalPassed" with the mined hash and sets
    the cursor "chainB_governance" to the event's block; a later call for
    the same event returns as already processed and submits nothing.  The
    calldata of [pauseBridge()] is not that literal: the first four bytes of
    Keccak-256 of the signature are 0x7dd0480f.  A confirmed, unmarked event
    whose data is that calldata, or begins with it, is logged as an unknown
    selector: nothing is submitted, nothing is marked, and a later call for
    the same event goes the same way. *)
Theorem governance_relays_literal_not_calldata :
  forall {DState} (submit : DState -> DestCall -> DState * Outcome) (D : Z)
         (proposal : GovernanceListener.EventLog) (head1 head2 : Z) (w : World DState)
         (rest : string),
    head1 - GovernanceListener.blockNumber proposal >= D ->
    head2 - GovernanceListener.blockNumber proposal >= D ->
    RelayerDB.isProcessed (db w) (Number (GovernanceListener.proposalId proposal))
      "chainB" "ProposalPassed" = false ->
    let id := Number (GovernanceListener.proposalId proposal) in
    let w1 := GovernanceListener._handleEvent submit D proposal head1 w in
    (GovernanceListener.data proposal = ("0x6b9a13e3" ++ rest)%string ->
     forall hash,
       first_mined submit (Z.to_nat MAX_RETRIES) (dest w) pauseBridge = Some hash ->
       mined (added (trace w) (trace w1)) = [pauseBridge]
       /\ RelayerDB.stored_tx_hash (db w1) id "chainB" "ProposalPassed" = Some hash
       /\ RelayerDB.getLastBlock (db w1) "chainB_governance"
          = GovernanceListener.blockNumber proposal
       /\ GovernanceListener._handleEvent submit D proposal head2 w1
          = log (AlreadyProcessed id) w1)
    /\ pauseBridge_calldata = "0x7dd0480f"
    /\ (GovernanceListener.data proposal = (pauseBridge_calldata ++ rest)%string ->
        w1 = log (UnknownSelector "0x7dd0480f")
                 (log (ProcessingProposal id "0x7dd0480f") w)
        /\ submitted (added (trace w) (trace w1)) = []
        /\ RelayerDB.isProcessed (db w1) id "chainB" "ProposalPassed" = false
        /\ GovernanceListener._handleEvent submit D proposal head2 w1
           = log (UnknownSelector "0x7dd0480f")
                 (log (ProcessingProposal id "0x7dd0480f") w1)).
Proof.
  intros DState submit D proposal head1 head2 w rest H1 H2 Hfresh id w1.
  split; [|split; [exact pauseBridge_calldata_value|]].
  - intros Hdata hash Hmined.
    assert (Hsel : GovernanceListener.slice0 10 (GovernanceListener.data proposal)
                   = "0x6b9a13e3") by (rewrite Hdata; apply slice0_selector).
    destruct (gov_mined submit D proposal head1 w hash H1 Hfresh Hsel Hmined)
      as (tr & Htr & Hmi & Hdb).
    fold w1 in Htr, Hdb. rewrite Htr, added_app, Hdb.
    split; [exact Hmi|]. split; [|split].
    + rewrite stored_tx_hash_setLastBlock, RelayerDBFacts.stored_tx_hash_markProcessed.
      now rewrite stored_tx_hash_absent by exact Hfresh.
    + apply RelayerDBFacts.getLastBlock_setLastBlock.
    + apply gov_processed; [exact H2|]. rewrite Hdb.
      rewrite RelayerDBFacts.isProcessed_setLastBlock.
      apply RelayerDBFacts.isProcessed_markProcessed.
  - intros Hdata.
    assert (Hsel : GovernanceListener.slice0 10 (GovernanceListener.data proposal)
                   = "0x7dd0480f") by (rewrite Hdata; apply slice0_calldata).
    assert (Hother : GovernanceListener.slice0 10 (GovernanceListener.data proposal)
                     <> "0x6b9a13e3") by (rewrite Hsel; discriminate).
    assert (Hw1 : w1 = log (UnknownSelector "0x7dd0480f")
                           (log (ProcessingProposal id "0x7dd0480f") w)).
    { subst w1. rewrite (gov_unknown submit D proposal head1 w H1 Hfresh Hother).
      now rewrite Hsel. }
    split; [exact Hw1|]. rewrite Hw1. unfold log at 1 2 3 4. cbn [db trace].
    rewrite <- app_assoc, added_app. split; [reflexivity|]. split; [exact Hfresh|].
    match goal with |- GovernanceListener._handleEvent submit D proposal head2 ?w0 = _ =>
      rewrite (gov_unknown submit D proposal head2 w0 H2 Hfresh Hother) end.
    now rewrite Hsel.
Qed.

Lemma governance_relays_literal_not_calldata_witness :
  let proposal := GovernanceListener.MkEventLog 200 0 "0x7dd0480f" in
  let w1 := GovernanceListener._handleEvent (always (Mined Sample.tx1)) 3 proposal 210
              (Sample.world RelayerDB.empty) in
  submitted (trace w1) = []
  /\ RelayerDB.isProcessed (db w1) 0 "chainB" "ProposalPassed" = false.
Proof.
  pose proof (governance_relays_literal_not_calldata (always (Mined Sample.tx1)) 3
                (GovernanceListener.MkEventLog 200 0 "0x7dd0480f") 210 210
                (Sample.world RelayerDB.empty) ""
                ltac:(simpl; lia) ltac:(simpl; lia) eq_refl) as H.
  destruct H as (_ & _ & H).
  destruct (H ltac:(vm_compute; reflexivity)) as (_ & Hs & Hm & _).
  split; [exact Hs | exact Hm].
Defined.

(** X7.  The governance handler never submits anything but
    [pauseBridge()], never more than three times in one call, and only for
    an event that is at least D below the head, unmarked, and whose data
    begins with the ten characters 0x6b9a13e3; data shorter than that, the
    empty 0x included, is an unknown selector. *)
Theorem governance_submits_only_pause :
  forall {DState} (submit : DState -> DestCall -> DState * Outcome) (D : Z)
         (proposal : GovernanceListener.EventLog) (head : Z) (w : World DState),
    let tr := added (trace w)
                (trace (GovernanceListener._handleEvent submit D proposal head w)) in
    Forall (fun c => c = pauseBridge) (submitted tr)
    /\ (length (submitted tr) <= 3)%nat
    /\ (submitted tr = []
        \/ (head - GovernanceListener.blockNumber proposal >= D
            /\ RelayerDB.isProcessed (db w)
                 (Number (GovernanceListener.proposalId proposal))
                 "chainB" "ProposalPassed" = false
            /\ exists rest, GovernanceListener.data proposal = ("0x6b9a13e3" ++ rest)%string))
    /\ ((String.length (GovernanceListener.data proposal) < 10)%nat -> submitted tr = []).
Proof.
  intros DState submit D proposal head w tr. subst tr.
  destruct (gov_submits_only submit D proposal head w) as (tr & -> & Hall & Hlen & Hcase).
  rewrite added_app.
  assert (Hpre : forall s, GovernanceListener.slice0 10 s = "0x6b9a13e3" ->
                           exists rest, s = ("0x6b9a13e3" ++ rest)%string).
  { intros s. unfold GovernanceListener.slice0.
    do 10 (destruct s as [|? s]; [discriminate|]). simpl.
    intros [= -> -> -> -> -> -> -> -> -> -> _]. now exists s. }
  split; [exact Hall|]. split; [exact Hlen|]. split.
  - destruct Hcase as [E|(Hge & Hp & Hs)]; [now left|]. right.
    split; [exact Hge|]. split; [exact Hp|]. now apply Hpre.
  - intros Hshort. destruct Hcase as [E|(_ & _ & Hs)]; [exact E|].
    destruct (Hpre _ Hs) as (rest & Hd). rewrite Hd in Hshort.
    simpl in Hshort. lia.
Qed.

(** ** Streams keep to themselves *)

Lemma isProcessed_markProcessed_other db n c tx e n' c' e' :
  RelayerDB.where_key n' c' e' (RelayerDB.Row n c tx e) = false ->
  RelayerDB.isProcessed (RelayerDB.markProcessed db n c tx e) n' c' e'
  = RelayerDB.isProcessed db n' c' e'.
Proof.
  intros Hk. unfold RelayerDB.isProcessed, RelayerDB.markProcessed,
    RelayerDB.insert_or_ignore. simpl.
  destruct (existsb (RelayerDB.where_key n c e) (RelayerDB.processed_events db));
    [reflexivity|].
  rewrite RelayerDBFacts.existsb_snoc, Hk. apply orb_false_r.
Qed.

Lemma where_key_other_stream n c e n' c' e' tx :
  (c', e') <> (c, e) ->
  RelayerDB.where_key n' c' e' (RelayerDB.Row n c tx e) = false.
Proof.
  intros Hne. destruct (RelayerDB.where_key n' c' e' (RelayerDB.Row n c tx e)) eqn:K;
    [|reflexivity].
  apply RelayerDBFacts.where_key_true in K. injection K as -> -> ->. now destruct Hne.
Qed.

Section Isolation.

Context {DState : Type}.
Variable submit : DState -> DestCall -> DState * Outcome.

Lemma retry_loop_elsewhere k a j (w : World DState) :
  same_elsewhere (job_cursor j) (job_chain j) (job_event_type j)
    (db (retry_loop submit k a j w)) (db w).
Proof.
  destruct (retry_loop_spec submit k a j w) as (tr & _ & _ & _ & Hm).
  destruct (first_mined submit k (dest w) (job_call j)) as [hash|].
  - destruct Hm as (-> & _). split.
    + intros c Hc. rewrite RelayerDBFacts.getLastBlock_setLastBlock_ne by congruence.
      apply RelayerDBFacts.getLastBlock_markProcessed.
    + intros n c' e' Hne. rewrite RelayerDBFacts.isProcessed_setLastBlock.
      apply isProcessed_markProcessed_other. now apply where_key_other_stream.
  - destruct Hm as (-> & _). split; reflexivity.
Qed.

Lemma handle_elsewhere names D ev H (w : World DState) :
  same_elsewhere (Listener.cursor names) (Listener.chain names) (Listener.event_type names)
    (db (Listener._handleEvent submit names D ev H w)) (db w).
Proof.
  unfold Listener._handleEvent.
  destruct (H - Listener.blockNumber ev <? D); [split; reflexivity|].
  destruct (RelayerDB.isProcessed (db w) (Number (Listener.nonce ev))
              (Listener.chain names) (Listener.event_type names)); [split; reflexivity|].
  unfold submit_with_retry.
  match goal with |- same_elsewhere _ _ _ (db (retry_loop submit ?k ?a ?j ?w0)) _ =>
    exact (retry_loop_elsewhere k a j w0) end.
Qed.

Lemma gov_handle_elsewhere D ev H (w : World DState) :
  same_elsewhere "chainB_governance" "chainB" "ProposalPassed"
    (db (GovernanceListener._handleEvent submit D ev H w)) (db w).
Proof.
  unfold GovernanceListener._handleEvent.
  destruct (H - GovernanceListener.blockNumber ev <? D); [split; reflexivity|].
  destruct (RelayerDB.isProcessed (db w) (Number (GovernanceListener.proposalId ev))
              "chainB" "ProposalPassed"); [split; reflexivity|].
  destruct (String.eqb _ _); [|split; reflexivity].
  unfold GovernanceListener._executePauseBridge, submit_with_retry.
  match goal with |- same_elsewhere _ _ _ (db (retry_loop submit ?k ?a ?j ?w0)) _ =>
    exact (retry_loop_elsewhere k a j w0) end.
Qed.

Lemma same_elsewhere_trans cur ch ev a b c :
  same_elsewhere cur ch ev a b -> same_elsewhere cur ch ev b c ->
  same_elsewhere cur ch ev a c.
Proof.
  intros [H1 H2] [H3 H4]. split.
  - intros k Hk. now rewrite H1, H3.
  - intros n c' e' Hne. now rewrite H2, H4.
Qed.

Lemma handle_all_elsewhere names D events : forall H (w0 : World DState),
  same_elsewhere (Listener.cursor names) (Listener.chain names) (Listener.event_type names)
    (db (Listener.handle_all submit names D events H w0)) (db w0).
Proof.
  induction events as [|x events IH]; intros H w0; [split; reflexivity|].
  change (Listener.handle_all submit names D (x :: events) H w0)
    with (Listener.handle_all submit names D events H
            (Listener._handleEvent submit names D x H w0)).
  eapply same_elsewhere_trans; [apply IH | apply handle_elsewhere].
Qed.

Lemma recover_elsewhere names D src (w : World DState) :
  same_elsewhere (Listener.cursor names) (Listener.chain names) (Listener.event_type names)
    (db (Listener.recoverMissedEvents submit names D src w)) (db w).
Proof.
  unfold Listener.recoverMissedEvents.
  destruct (_ >=? _); [split; reflexivity|].
  match goal with |- context [Listener.handle_all submit names D ?evs ?H ?w1] =>
    pose proof (handle_all_elsewhere names D evs H w1) as A end.
  unfold log in A at 2. cbn [db] in A. destruct A as [A1 A2]. split.
  - intros c Hc. unfold setLastBlock; cbn [db].
    rewrite RelayerDBFacts.getLastBlock_setLastBlock_ne by congruence. now apply A1.
  - intros n c' e' Hne. unfold setLastBlock; cbn [db].
    rewrite RelayerDBFacts.isProcessed_setLastBlock. now apply A2.
Qed.

Lemma gov_handle_all_elsewhere D events : forall H (w0 : World DState),
  same_elsewhere "chainB_governance" "chainB" "ProposalPassed"
    (db (GovernanceListener.handle_all submit D events H w0)) (db w0).
Proof.
  induction events as [|x events IH]; intros H w0; [split; reflexivity|].
  change (GovernanceListener.handle_all submit D (x :: events) H w0)
    with (GovernanceListener.handle_all submit D events H
            (GovernanceListener._handleEvent submit D x H w0)).
  eapply same_elsewhere_trans; [apply IH | apply gov_handle_elsewhere].
Qed.

Lemma gov_recover_elsewhere D src (w : World DState) :
  same_elsewhere "chainB_governance" "chainB" "ProposalPassed"
    (db (GovernanceListener.recoverMissedEvents submit D src w)) (db w).
Proof.
  unfold GovernanceListener.recoverMissedEvents.
  destruct (_ >=? _); [split; reflexivity|].
  match goal with |- context [GovernanceListener.handle_all submit D ?evs ?H ?w1] =>
    pose proof (gov_handle_all_elsewhere D evs H w1) as A end.
  unfold log in A at 2. cbn [db] in A. destruct A as [A1 A2]. split.
  - intros c Hc. unfold setLastBlock; cbn [db].
    rewrite RelayerDBFacts.getLastBlock_setLastBlock_ne by congruence. now apply A1.
  - intros n c' e' Hne. unfold setLastBlock; cbn [db].
    rewrite RelayerDBFacts.isProcessed_setLastBlock. now apply A2.
Qed.

End Isolation.

(** X8.  Each listener writes to its own stream only.  A handler call or a
    whole recovery pass of the Lock or Burn listener leaves every cursor but
    its own, and every mark kept under another (chain, event type) pair,
    exactly as they were; so does a handler call or a recovery pass of the
    governance listener.  In particular a burn and a proposal that carry
    the same number on Chain B never hide one another. *)
Theorem listeners_write_own_stream_only :
  forall {DState} (submit : DState -> DestCall -> DState * Outcome)
         (names : Listener.Names) (D : Z) (src : Listener.Source)
         (gsrc : GovernanceListener.Source) (event : Listener.EventLog)
         (proposal : GovernanceListener.EventLog) (head : Z) (w : World DState),
    same_elsewhere (Listener.cursor names) (Listener.chain names)
      (Listener.event_type names)
      (db (Listener._handleEvent submit names D event head w)) (db w)
    /\ same_elsewhere (Listener.cursor names) (Listener.chain names)
         (Listener.event_type names)
         (db (Listener.recoverMissedEvents submit names D src w)) (db w)
    /\ same_elsewhere "chainB_governance" "chainB" "ProposalPassed"
         (db (GovernanceListener._handleEvent submit D proposal head w)) (db w)
    /\ same_elsewhere "chainB_governance" "chainB" "ProposalPassed"
         (db (GovernanceListener.recoverMissedEvents submit D gsrc w)) (db w)
    /\ (forall n,
          RelayerDB.isProcessed
            (db (BurnListener.recoverMissedEvents submit D src w)) n "chainB" "ProposalPassed"
          = RelayerDB.isProcessed (db w) n "chainB" "ProposalPassed")
    /\ (forall n,
          RelayerDB.isProcessed
            (db (GovernanceListener.recoverMissedEvents submit D gsrc w)) n "chainB" "Burned"
          = RelayerDB.isProcessed (db w) n "chainB" "Burned").
Proof.
  intros DState submit names D src gsrc event proposal head w.
  split; [apply handle_elsewhere|]. split; [apply recover_elsewhere|].
  split; [apply gov_handle_elsewhere|]. split; [apply gov_recover_elsewhere|].
  split; intros n.
  - apply (recover_elsewhere submit BurnListener.names D src w). discriminate.
  - apply (gov_recover_elsewhere submit D gsrc w). discriminate.
Qed.

(** ** Start-up *)

Lemma gov_recover_cursor_value {DState} (submit : DState -> DestCall -> DState * Outcome)
    D src (w : World DState) :
  RelayerDB.getLastBlock (db (GovernanceListener.recoverMissedEvents submit D src w))
    "chainB_governance"
  = Z.max (RelayerDB.getLastBlock (db w) "chainB_governance")
          (GovernanceListener.getBlockNumber src).
Proof.
  unfold GovernanceListener.recoverMissedEvents.
  destruct (Z.geb_spec (RelayerDB.getLastBlock (db w) "chainB_governance")
                       (GovernanceListener.getBlockNumber src)); [lia|].
  unfold setLastBlock at 1. cbn [db].
  rewrite RelayerDBFacts.getLastBlock_setLastBlock. lia.
Qed.

(** X9.  Start-up recovery, as [main] runs it (the Lock pass, then the Burn
    pass, then the governance pass, on one store), brings each of the three
    cursors to the larger of its stored value and the head its pass read;
    and running the three passes again while the heads have not moved
    changes nothing at all: no write, no log entry, no submission. *)
Theorem startup_recovery_settles :
  forall {DState} (submit : DState -> DestCall -> DState * Outcome) (D : Z)
         (chainA chainB : Listener.Source) (gov : GovernanceListener.Source)
         (w : World DState),
    let startup w :=
      GovernanceListener.recoverMissedEvents submit D gov
        (BurnListener.recoverMissedEvents submit D chainB
           (LockListener.recoverMissedEvents submit D chainA w)) in
    RelayerDB.getLastBlock (db (startup w)) "chainA_lock"
    = Z.max (RelayerDB.getLastBlock (db w) "chainA_lock") (Listener.getBlockNumber chainA)
    /\ RelayerDB.getLastBlock (db (startup w)) "chainB_burn"
       = Z.max (RelayerDB.getLastBlock (db w) "chainB_burn") (Listener.getBlockNumber chainB)
    /\ RelayerDB.getLastBlock (db (startup w)) "chainB_governance"
       = Z.max (RelayerDB.getLastBlock (db w) "chainB_governance")
               (GovernanceListener.getBlockNumber gov)
    /\ startup (startup w) = startup w.
Proof.
  intros DState submit D chainA chainB gov w startup.
  set (w1 := LockListener.recoverMissedEvents submit D chainA w).
  set (w2 := BurnListener.recoverMissedEvents submit D chainB w1).
  assert (L1 : RelayerDB.getLastBlock (db w1) "chainA_lock"
               = Z.max (RelayerDB.getLastBlock (db w) "chainA_lock")
                       (Listener.getBlockNumber chainA))
    by apply (recover_cursor_value submit LockListener.names D chainA w).
  assert (B2 : RelayerDB.getLastBlock (db w2) "chainB_burn"
               = Z.max (RelayerDB.getLastBlock (db w1) "chainB_burn")
                       (Listener.getBlockNumber chainB))
    by apply (recover_cursor_value submit BurnListener.names D chainB w1).
  assert (G3 : RelayerDB.getLastBlock (db (startup w)) "chainB_governance"
               = Z.max (RelayerDB.getLastBlock (db w2) "chainB_governance")
                       (GovernanceListener.getBlockNumber gov))
    by apply gov_recover_cursor_value.
  pose proof (recover_elsewhere submit LockListener.names D chainA w) as [E1 _].
  pose proof (recover_elsewhere submit BurnListener.names D chainB w1) as [E2 _].
  pose proof (gov_recover_elsewhere submit D gov w2) as [E3 _].
  fold w1 in E1. fold w2 in E2. change (GovernanceListener.recoverMissedEvents submit D gov w2)
    with (startup w) in E3.
  simpl in E1, E2, E3.
  assert (CL : RelayerDB.getLastBlock (db (startup w)) "chainA_lock"
               = Z.max (RelayerDB.getLastBlock (db w) "chainA_lock")
                       (Listener.getBlockNumber chainA)).
  { rewrite E3 by discriminate. rewrite E2 by discriminate. exact L1. }
  assert (CB : RelayerDB.getLastBlock (db (startup w)) "chainB_burn"
               = Z.max (RelayerDB.getLastBlock (db w) "chainB_burn")
                       (Listener.getBlockNumber chainB)).
  { rewrite E3 by discriminate. rewrite B2. now rewrite E1 by discriminate. }
  assert (CG : RelayerDB.getLastBlock (db (startup w)) "chainB_governance"
               = Z.max (RelayerDB.getLastBlock (db w) "chainB_governance")
                       (GovernanceListener.getBlockNumber gov)).
  { rewrite G3. rewrite E2 by discriminate. now rewrite E1 by discriminate. }
  split; [exact CL|]. split; [exact CB|]. split; [exact CG|].
  unfold startup at 1.
  assert (S1 : LockListener.recoverMissedEvents submit D chainA (startup w) = startup w).
  { apply (recover_caught_up submit LockListener.names D chainA (startup w)).
    change (Listener.cursor LockListener.names) with "chainA_lock". rewrite CL. lia. }
  rewrite S1.
  assert (S2 : BurnListener.recoverMissedEvents submit D chainB (startup w) = startup w).
  { apply (recover_caught_up submit BurnListener.names D chainB (startup w)).
    change (Listener.cursor BurnListener.names) with "chainB_burn". rewrite CB. lia. }
  rewrite S2.
  apply gov_recover_caught_up. rewrite CG. lia.
Qed.

(** ** The trace against the destination *)

Section Follows.

Context {DState : Type}.
Variable submit : DState -> DestCall -> DState * Outcome.

Lemma submissions_app (a b : list Effect) :
  submissions (a ++ b) = submissions a ++ submissions b.
Proof. apply omap_app. Qed.

Lemma follows_app d l1 d1 l2 d2 :
  follows submit d l1 d1 -> follows submit d1 l2 d2 -> follows submit d (l1 ++ l2) d2.
Proof.
  revert d. induction l1 as [|[c o] l1 IH]; intros d; simpl.
  - now intros ->.
  - intros (d' & Hs & Hf) H2. exists d'. split; [exact Hs|]. now apply IH.
Qed.

(** The submissions a run of the loop records are the destination's own
    answers, in order, and lead to the state the run ends in. *)
Lemma retry_loop_follows k : forall a j (w : World DState),
  exists tr,
    trace (retry_loop submit k a j w) = trace w ++ tr
    /\ follows submit (dest w) (submissions tr) (dest (retry_loop submit k a j w)).
Proof.
  induction k as [|k IH]; intros a j w.
  - exists []. simpl. rewrite app_nil_r. split; reflexivity.
  - simpl. unfold send.
    destruct (submit (dest w) (job_call j)) as [d' [hash|err]] eqn:E.
    + eexists. simpl. rewrite <- !app_assoc. split; [reflexivity|].
      simpl. exists d'. split; [exact E | reflexivity].
    + match goal with |- context [retry_loop submit k (a + 1) j ?w3] =>
        destruct (IH (a + 1) j w3) as (tr & Htr & Hf);
        assert (Hw : exists x, trace w3 = trace w ++ [Submit (job_call j) (Threw err);
                       Log (AttemptFailed a err); x]
                       /\ submissions [x] = [] /\ dest w3 = d')
      end.
      { destruct (a <? MAX_RETRIES); eexists; simpl; rewrite <- !app_assoc;
          repeat split; reflexivity. }
      destruct Hw as (x & Hx & Hxs & Hd).
      exists ([Submit (job_call j) (Threw err); Log (AttemptFailed a err); x] ++ tr).
      rewrite Htr, Hx, <- app_assoc. split; [reflexivity|].
      rewrite submissions_app.
      change (submissions [Submit (job_call j) (Threw err); Log (AttemptFailed a err); x])
        with ((job_call j, Threw err) :: submissions [x]).
      rewrite Hxs. simpl. exists d'. split; [exact E|]. rewrite Hd in Hf. exact Hf.
Qed.

Lemma handle_follows names D ev H (w : World DState) :
  exists tr,
    trace (Listener._handleEvent submit names D ev H w) = trace w ++ tr
    /\ follows submit (dest w) (submissions tr)
         (dest (Listener._handleEvent submit names D ev H w)).
Proof.
  unfold Listener._handleEvent.
  destruct (H - Listener.blockNumber ev <? D).
  { eexists. split; [reflexivity|]. reflexivity. }
  destruct (RelayerDB.isProcessed (db w) (Number (Listener.nonce ev))
              (Listener.chain names) (Listener.event_type names)).
  { eexists. split; [reflexivity|]. reflexivity. }
  unfold submit_with_retry.
  match goal with |- context [retry_loop submit ?k ?a ?j ?w0] =>
    destruct (retry_loop_follows k a j w0) as (tr & Htr & Hf) end.
  exists (Log (Processing (Number (Listener.nonce ev))) :: tr).
  rewrite Htr. unfold log at 1; cbn [trace]. rewrite <- app_assoc.
  split; [reflexivity | exact Hf].
Qed.

Lemma deliver_follows names D deliveries : forall (w : World DState),
  exists tr,
    trace (deliver submit names D deliveries w) = trace w ++ tr
    /\ follows submit (dest w) (submissions tr) (dest (deliver submit names D deliveries w)).
Proof.
  induction deliveries as [|[ev H] ds IH]; intros w.
  - exists []. simpl. rewrite app_nil_r. split; reflexivity.
  - change (deliver submit names D ((ev, H) :: ds) w)
      with (deliver submit names D ds (Listener._handleEvent submit names D ev H w)).
    destruct (IH (Listener._handleEvent submit names D ev H w)) as (tr2 & -> & H2).
    destruct (handle_follows names D ev H w) as (tr1 & -> & H1).
    exists (tr1 ++ tr2). rewrite app_assoc. split; [reflexivity|].
    rewrite submissions_app. eapply follows_app; eassumption.
Qed.

End Follows.

(** BridgeMint's replay map against any exchange: what was minted was not
    in the map before, is minted once, and is in the map after. *)
Lemma bridge_mint_follows hash (l : list (DestCall * Outcome)) :
  forall st st' : gset Z,
    follows (BridgeMint.submit hash) st l st' ->
    NoDup (minted_nonces l)
    /\ (forall n, n ∈ minted_nonces l -> n ∉ st)
    /\ (forall n, n ∈ st' <-> n ∈ st \/ n ∈ minted_nonces l).
Proof.
  induction l as [|[c o] l IH]; intros st st'; simpl.
  - intros ->. split; [constructor|]. split; [intros n Hn; inversion Hn|].
    intros n. split; [auto | intros [H|H]; [exact H | inversion H]].
  - intros (d' & Hs & Hf). destruct (IH d' st' Hf) as (Hnd & Hfresh & Hend).
    unfold BridgeMint.submit in Hs.
    destruct c as [u a n|u a n|].
    + destruct (MAX_SAFE_INTEGER <? n).
      { injection Hs as <- <-. simpl. auto. }
      destruct (decide (n ∈ st)) as [Hin|Hnin].
      { injection Hs as <- <-. simpl. auto. }
      destruct (a =? 0).
      { injection Hs as <- <-. simpl. auto. }
      injection Hs as <- <-. simpl. split; [|split].
      * constructor; [|exact Hnd]. intros Hn. apply Hfresh in Hn.
        apply Hn, elem_of_union. left. now apply elem_of_singleton.
      * intros m Hm. apply elem_of_cons in Hm as [->|Hm]; [exact Hnin|].
        apply Hfresh in Hm. intros X. apply Hm, elem_of_union. now right.
      * intros m. rewrite Hend, elem_of_union, elem_of_singleton, elem_of_cons. tauto.
    + injection Hs as <- <-. simpl. auto.
    + injection Hs as <- <-. simpl. auto.
Qed.

(** X10.  Against BridgeMint the destination effect is exactly-once even
    when the relayer's store is not to be trusted.  Run the Lock handler
    over any deliveries, replace the store by any other (lost, rewound,
    restored from a copy), and run it over any further deliveries: no nonce
    is minted twice, no nonce that BridgeMint had already processed is
    minted again, and BridgeMint's replay map ends as what it was plus the
    nonces minted. *)
Theorem bridge_mint_never_mints_twice :
  forall (hash : string) (D : Z)
         (before after : list (Listener.EventLog * Z))
         (store0 store1 : RelayerDB.t) (processedMintNonces : gset Z),
    let submit := BridgeMint.submit hash in
    let w1 := deliver submit LockListener.names D before
                (MkWorld store0 processedMintNonces []) in
    let w2 := deliver submit LockListener.names D after
                (MkWorld store1 (dest w1) (trace w1)) in
    let minted := minted_nonces (submissions (trace w2)) in
    NoDup minted
    /\ (forall n, n ∈ minted -> n ∉ processedMintNonces)
    /\ (forall n, n ∈ dest w2 <-> n ∈ processedMintNonces \/ n ∈ minted).
Proof.
  intros hash D before after store0 store1 st submit w1 w2 minted.
  destruct (deliver_follows submit LockListener.names D before (MkWorld store0 st []))
    as (tr1 & Htr1 & H1).
  destruct (deliver_follows submit LockListener.names D after
              (MkWorld store1 (dest w1) (trace w1))) as (tr2 & Htr2 & H2).
  fold w1 in Htr1, H1. fold w2 in Htr2, H2. cbn [trace dest] in Htr1, H1, Htr2, H2.
  apply (bridge_mint_follows hash (submissions (trace w2))).
  rewrite Htr2, Htr1. simpl. rewrite submissions_app.
  eapply follows_app; eassumption.
Qed.

(** ** The live path, in closed form *)

Lemma iter_sleep_shift {DState} k (w : World DState) :
  Nat.iter k (sleep 1000) (sleep 1000 w) = Nat.iter (S k) (sleep 1000) w.
Proof.
  induction k as [|k IH]; [reflexivity|].
  change (Nat.iter (S k) (sleep 1000) (sleep 1000 w))
    with (sleep 1000 (Nat.iter k (sleep 1000) (sleep 1000 w))).
  now rewrite IH.
Qed.

(** X11.  The polling loop of the live path hands the event to the handler
    exactly once, with the first polled head that has reached the event's
    block plus the depth, after one 1000 ms sleep for each poll before it;
    while it waits it only sleeps, touching neither store nor destination.
    With no such head among the polls it is still waiting.  So for the
    Lock and Burn listeners and for the governance listener. *)
Theorem wait_for_confirmation_first_ripe_head :
  forall {DState} (submit : DState -> DestCall -> DState * Outcome)
         (names : Listener.Names) (D : Z) (polls : list Z)
         (event : Listener.EventLog) (proposal : GovernanceListener.EventLog)
         (w : World DState),
    Listener._waitForConfirmation submit names D polls event w
    = match list_find (fun h => h >= Listener.blockNumber event + D) polls with
      | Some (k, h) =>
        Some (Listener._handleEvent submit names D event h (Nat.iter k (sleep 1000) w))
      | None => None
      end
    /\ GovernanceListener._waitForConfirmation submit D polls proposal w
       = match list_find (fun h => h >= GovernanceListener.blockNumber proposal + D)
                         polls with
         | Some (k, h) =>
           Some (GovernanceListener._handleEvent submit D proposal h
                   (Nat.iter k (sleep 1000) w))
         | None => None
         end
    /\ forall k, db (Nat.iter k (sleep 1000) w) = db w
                 /\ dest (Nat.iter k (sleep 1000) w) = dest w
                 /\ trace (Nat.iter k (sleep 1000) w) = trace w ++ replicate k (Sleep 1000).
Proof.
  intros DState submit names D polls event proposal w.
  split; [|split].
  - revert w. induction polls as [|h polls IH]; intros w; [reflexivity|].
    cbn [Listener._waitForConfirmation GovernanceListener._waitForConfirmation list_find].
    destruct (Z.geb_spec h (Listener.blockNumber event + D)) as [Hge|Hlt].
    + destruct (decide (h >= Listener.blockNumber event + D)); [reflexivity | lia].
    + destruct (decide (h >= Listener.blockNumber event + D)); [lia|]. rewrite IH.
      destruct (list_find _ polls) as [[k h']|]; simpl; [|reflexivity].
      now rewrite iter_sleep_shift.
  - revert w. induction polls as [|h polls IH]; intros w; [reflexivity|].
    cbn [Listener._waitForConfirmation GovernanceListener._waitForConfirmation list_find].
    destruct (Z.geb_spec h (GovernanceListener.blockNumber proposal + D)) as [Hge|Hlt].
    + destruct (decide (h >= GovernanceListener.blockNumber proposal + D)); [reflexivity | lia].
    + destruct (decide (h >= GovernanceListener.blockNumber proposal + D)); [lia|]. rewrite IH.
      destruct (list_find _ polls) as [[k h']|]; simpl; [|reflexivity].
      now rewrite iter_sleep_shift.
  - induction k as [|k (Hdb & Hd & Htr)].
    + simpl. rewrite app_nil_r. auto.
    + change (Nat.iter (S k) (sleep 1000) w) with (sleep 1000 (Nat.iter k (sleep 1000) w)).
      unfold sleep at 1 3 5. cbn [db dest trace]. rewrite Htr, <- app_assoc.
      split; [exact Hdb|]. split; [exact Hd|]. f_equal.
      symmetry. apply (replicate_S_end k (Sleep 1000)).
Qed.

(** ** Waiting for the endpoints and the address files *)

Section InitFacts.

Import Index.

Lemma slept_waiting m tr : slept (ILog m :: ISleep 2000 :: tr) = 2000 + slept tr.
Proof. reflexivity. Qed.

Lemma waitForRpc_from_exhausted answers name maxRetries remaining : forall i,
  (forall q, (i <= q < i + remaining)%nat -> answers q = false) ->
  fst (waitForRpc_from answers name maxRetries remaining i) = RpcNotAvailable name maxRetries
  /\ slept (snd (waitForRpc_from answers name maxRetries remaining i))
     = 2000 * Z.of_nat remaining.
Proof.
  induction remaining as [|r IH]; intros i Hall; [split; reflexivity|].
  simpl. rewrite (Hall i) by lia.
  destruct (IH (S i)) as (Hr & Hs); [intros q Hq; apply Hall; lia|].
  destruct (waitForRpc_from answers name maxRetries r (S i)) as [res tr].
  cbn [fst snd] in *. split; [exact Hr|]. rewrite slept_waiting, Hs. lia.
Qed.

Lemma waitForRpc_from_ready answers name maxRetries remaining : forall i k,
  (k < remaining)%nat ->
  answers (i + k)%nat = true ->
  (forall q, (q < k)%nat -> answers (i + q)%nat = false) ->
  fst (waitForRpc_from answers name maxRetries remaining i) = Provider
  /\ slept (snd (waitForRpc_from answers name maxRetries remaining i)) = 2000 * Z.of_nat k
  /\ exists pre, snd (waitForRpc_from answers name maxRetries remaining i)
                 = pre ++ [ILog (RpcReady name)].
Proof.
  induction remaining as [|r IH]; intros i k Hk Hyes Hno; [lia|].
  cbn [waitForRpc_from loadDeployments_from]. destruct k as [|k].
  - rewrite Nat.add_0_r in Hyes. rewrite Hyes. simpl.
    split; [reflexivity|]. split; [reflexivity|]. now exists [].
  - assert (Hi : answers i = false)
      by (rewrite <- (Nat.add_0_r i); apply Hno; lia).
    rewrite Hi.
    destruct (IH (S i) k) as (Hr & Hs & pre & Hpre).
    + lia.
    + now replace (S i + k)%nat with (i + S k)%nat by lia.
    + intros q Hq. replace (S i + q)%nat with (i + S q)%nat by lia. apply Hno. lia.
    + destruct (waitForRpc_from answers name maxRetries r (S i)) as [res tr].
      cbn [fst snd] in *. split; [exact Hr|]. split; [rewrite slept_waiting, Hs; lia|].
      eexists (_ :: _ :: pre). rewrite Hpre. reflexivity.
Qed.

Lemma loadDeployments_from_exhausted {A} (fs : nat -> Files A) remaining : forall i,
  (forall q, (i <= q < i + remaining)%nat -> existsA (fs q) && existsB (fs q) = false) ->
  fst (loadDeployments_from fs remaining i) = None
  /\ slept (snd (loadDeployments_from fs remaining i)) = 2000 * Z.of_nat remaining.
Proof.
  induction remaining as [|r IH]; intros i Hall; [split; reflexivity|].
  simpl. rewrite (Hall i) by lia.
  destruct (IH (S i)) as (Hr & Hs); [intros q Hq; apply Hall; lia|].
  destruct (loadDeployments_from fs r (S i)) as [res tr].
  cbn [fst snd] in *. split; [exact Hr|]. rewrite slept_waiting, Hs. lia.
Qed.

Lemma loadDeployments_from_found {A} (fs : nat -> Files A) remaining : forall i k,
  (k < remaining)%nat ->
  existsA (fs (i + k)%nat) && existsB (fs (i + k)%nat) = true ->
  (forall q, (q < k)%nat -> existsA (fs (i + q)%nat) && existsB (fs (i + q)%nat) = false) ->
  fst (loadDeployments_from fs remaining i)
  = Some (parsedA (fs (i + k)%nat), parsedB (fs (i + k)%nat))
  /\ slept (snd (loadDeployments_from fs remaining i)) = 2000 * Z.of_nat k.
Proof.
  induction remaining as [|r IH]; intros i k Hk Hyes Hno; [lia|].
  cbn [waitForRpc_from loadDeployments_from]. destruct k as [|k].
  - rewrite Nat.add_0_r in *. rewrite Hyes. simpl. split; reflexivity.
  - assert (Hi : existsA (fs i) && existsB (fs i) = false)
      by (rewrite <- (Nat.add_0_r i); apply Hno; lia).
    rewrite Hi.
    destruct (IH (S i) k) as (Hr & Hs).
    + lia.
    + now replace (S i + k)%nat with (i + S k)%nat by lia.
    + intros q Hq. replace (S i + q)%nat with (i + S q)%nat by lia. apply Hno. lia.
    + destruct (loadDeployments_from fs r (S i)) as [res tr].
      cbn [fst snd] in *. replace (i + S k)%nat with (S i + k)%nat by lia.
      split; [exact Hr|]. rewrite slept_waiting, Hs. lia.
Qed.

End InitFacts.

(** X12.  [waitForRpc] polls the endpoint at most [maxRetries] times and
    returns at the first call that succeeds, having slept 2000 ms for each
    call that failed before it.  When none of [maxRetries] calls succeeds it
    throws, after sleeping 2000 ms after every one of them, the last
    included: 60 s for the default of 30 retries.  With [maxRetries] at 0 it
    throws without polling at all. *)
Theorem waitForRpc_first_success_or_gives_up :
  forall (answers : nat -> bool) (name : string) (maxRetries k : nat),
    ((forall i, (i < maxRetries)%nat -> answers i = false) ->
     fst (Index.waitForRpc answers name maxRetries) = Index.RpcNotAvailable name maxRetries
     /\ Index.slept (snd (Index.waitForRpc answers name maxRetries))
        = 2000 * Z.of_nat maxRetries)
    /\ ((k < maxRetries)%nat ->
        answers k = true ->
        (forall i, (i < k)%nat -> answers i = false) ->
        fst (Index.waitForRpc answers name maxRetries) = Index.Provider
        /\ Index.slept (snd (Index.waitForRpc answers name maxRetries)) = 2000 * Z.of_nat k
        /\ exists pre, snd (Index.waitForRpc answers name maxRetries)
                       = pre ++ [Index.ILog (Index.RpcReady name)])
    /\ Index.waitForRpc answers name 0 = (Index.RpcNotAvailable name 0, []).
Proof.
  intros answers name maxRetries k. split; [|split; [|reflexivity]].
  - intros Hall. apply waitForRpc_from_exhausted. intros q Hq. apply Hall. lia.
  - intros Hk Hyes Hno. apply (waitForRpc_from_ready answers name maxRetries maxRetries 0 k);
      assumption.
Qed.

Lemma waitForRpc_first_success_or_gives_up_witness :
  Index.slept (snd (Index.waitForRpc (fun _ => false) "Chain A" 30)) = 60000
  /\ fst (Index.waitForRpc (fun i => Nat.eqb i 2) "Chain A" 30) = Index.Provider
  /\ Index.slept (snd (Index.waitForRpc (fun i => Nat.eqb i 2) "Chain A" 30)) = 4000.
Proof.
  split.
  - exact (proj2 (proj1 (waitForRpc_first_success_or_gives_up (fun _ => false) "Chain A"
                            30 0) (fun _ _ => eq_refl))).
  - pose proof (proj1 (proj2 (waitForRpc_first_success_or_gives_up
                                (fun i => Nat.eqb i 2) "Chain A" 30 2))
                  ltac:(lia) eq_refl) as H.
    destruct H as (Hr & Hs & _); [|split; [exact Hr | exact Hs]].
    intros i Hi. destruct i as [|[|i]]; [reflexivity | reflexivity | lia].
Defined.

(** X13.  [loadDeployments] checks for the two address files at most 60
    times and returns what they hold at the first check at which both
    exist, having slept 2000 ms for each check before it; one file without
    the other is never enough.  When no check among the 60 finds both it
    throws, 120 s of sleep after it began. *)
Theorem loadDeployments_needs_both_files :
  forall {A : Type} (fs : nat -> Index.Files A) (k : nat),
    ((forall i, (i < 60)%nat ->
                Index.existsA (fs i) && Index.existsB (fs i) = false) ->
     fst (Index.loadDeployments fs) = None
     /\ Index.slept (snd (Index.loadDeployments fs)) = 120000)
    /\ ((k < 60)%nat ->
        Index.existsA (fs k) = true ->
        Index.existsB (fs k) = true ->
        (forall i, (i < k)%nat -> Index.existsA (fs i) && Index.existsB (fs i) = false) ->
        fst (Index.loadDeployments fs) = Some (Index.parsedA (fs k), Index.parsedB (fs k))
        /\ Index.slept (snd (Index.loadDeployments fs)) = 2000 * Z.of_nat k).
Proof.
  intros A fs k. split.
  - intros Hall. apply (loadDeployments_from_exhausted fs 60 0).
    intros q Hq. apply Hall. lia.
  - intros Hk HA HB Hno.
    apply (loadDeployments_from_found fs 60 0 k); [exact Hk| |exact Hno].
    simpl. now rewrite HA, HB.
Qed.

Lemma loadDeployments_needs_both_files_witness :
  fst (Index.loadDeployments
         (fun i => Index.MkFiles true (Nat.leb 3 i) "a.json" "b.json"))
  = Some ("a.json", "b.json")
  /\ fst (Index.loadDeployments (fun _ => Index.MkFiles true false "a.json" "b.json"))
     = None.
Proof.
  split.
  - pose proof (proj2 (loadDeployments_needs_both_files
                         (fun i => Index.MkFiles true (Nat.leb 3 i) "a.json" "b.json") 3)
                  ltac:(lia) eq_refl eq_refl) as H.
    destruct H as (Hr & _); [|exact Hr].
    intros i Hi. destruct i as [|[|[|i]]]; [reflexivity | reflexivity | reflexivity | lia].
  - exact (proj1 (proj1 (loadDeployments_needs_both_files
                           (fun _ => Index.MkFiles true false "a.json" "b.json") 0)
                    (fun _ _ => eq_refl))).
Defined.

(** * The contracts *)

(** ** GovernanceVoting *)

Section GovernanceVotingFacts.

Import GovernanceVoting.

Lemma votes_of_cons p v e es :
  votes_of p v (e :: es)
  = match e with
    | Voted p' v' s w =>
      if (p' =? p) && String.eqb v' v then ((s, w) :: votes_of p v es) else votes_of p v es
    | _ => votes_of p v es
    end.
Proof.
  unfold votes_of. simpl. destruct e; try reflexivity.
  now destruct ((proposalId =? p) && String.eqb voter v).
Qed.

Lemma passed_cons p e es :
  passed p (e :: es)
  = match e with
    | ProposalPassed p' d => if p' =? p then (d :: passed p es) else passed p es
    | _ => passed p es
    end.
Proof.
  unfold passed. simpl. destruct e; try reflexivity. now destruct (proposalId =? p).
Qed.

(** What a successful call does to the set of those who have voted. *)
Lemma call_hasVoted st b c st' e :
  call st b c = inr (st', e) ->
  (forall k, k ∈ hasVoted st -> k ∈ hasVoted st')
  /\ (forall p v s w, e = Voted p v s w -> ((p, v) ∉ hasVoted st) /\ ((p, v) ∈ hasVoted st')).
Proof.
  destruct c as [sender description data|sender weight proposalId support|sender proposalId];
    simpl.
  - unfold createProposal.
    destruct (_ =? _); [discriminate|]. destruct (_ <? _); [discriminate|].
    intros [= <- <-]. simpl. split; [auto | discriminate].
  - unfold vote.
    destruct (_ <? _); [discriminate|].
    destruct (bool_decide_reflect ((proposalId, sender) ∈ hasVoted st)) as [|Hnot];
      [discriminate|].
    destruct (_ =? _); [discriminate|]. destruct (_ <? _); [discriminate|].
    intros [= <- <-]. simpl. split.
    + intros k Hk. apply elem_of_union. now right.
    + intros p v s w [= <- <- _ _]. split; [exact Hnot|].
      apply elem_of_union. left. now apply elem_of_singleton.
  - unfold executeProposal.
    destruct (executed _); [discriminate|]. destruct (_ <=? _); [discriminate|].
    destruct (_ <=? _); [discriminate|]. destruct (_ <? _); [discriminate|].
    intros [= <- <-]. simpl. split; [auto | discriminate].
Qed.

Lemma run_no_second_vote txs : forall st p v,
  (p, v) ∈ hasVoted st -> votes_of p v (snd (run st txs)) = [].
Proof.
  induction txs as [|[b c] txs IH]; intros st p v Hin; [reflexivity|].
  simpl. destruct (call st b c) as [r|[st' e]] eqn:E; [now apply IH|].
  destruct (call_hasVoted st b c st' e E) as (Hmono & Hvote).
  specialize (IH st' p v (Hmono _ Hin)).
  destruct (run st' txs) as [st'' es]. cbn [snd] in *.
  rewrite votes_of_cons, IH. destruct e as [| p' v' s w |]; try reflexivity.
  destruct ((p' =? p) && String.eqb v' v) eqn:K; [|reflexivity].
  apply andb_true_iff in K as [Kp Kv]. apply Z.eqb_eq in Kp. apply String.eqb_eq in Kv.
  subst. destruct (Hvote p v s w eq_refl) as [Hnot _]. contradiction.
Qed.

End GovernanceVotingFacts.

(** X14.  One vote per voter and proposal.  Whatever the state the contract
    is in and whatever transactions follow, the ledger holds at most one
    Voted event for any voter on any proposal, and none for a voter who had
    voted on it before: [hasVoted] is only ever added to, and [vote] reverts
    on it. *)
Theorem one_vote_per_voter_and_proposal :
  forall (st : GovernanceVoting.t) (txs : list (Z * GovernanceVoting.Call))
         (proposalId : Z) (voter : address),
    let es := snd (GovernanceVoting.run st txs) in
    (length (GovernanceVoting.votes_of proposalId voter es) <= 1)%nat
    /\ ((proposalId, voter) ∈ GovernanceVoting.hasVoted st ->
        GovernanceVoting.votes_of proposalId voter es = []).
Proof.
  intros st txs p v es. subst es. split; [|apply run_no_second_vote].
  revert st. induction txs as [|[b c] txs IH]; intros st; [simpl; lia|].
  simpl. destruct (GovernanceVoting.call st b c) as [r|[st' e]] eqn:E; [apply IH|].
  destruct (call_hasVoted st b c st' e E) as (_ & Hvote).
  pose proof (IH st') as Hlen. pose proof (run_no_second_vote txs st' p v) as Hnone.
  destruct (GovernanceVoting.run st' txs) as [st'' es]. cbn [snd] in *.
  rewrite votes_of_cons. destruct e as [| p' v' s w |]; try exact Hlen.
  destruct ((p' =? p) && String.eqb v' v) eqn:K; [|exact Hlen].
  apply andb_true_iff in K as [Kp Kv]. apply Z.eqb_eq in Kp. apply String.eqb_eq in Kv.
  subst. destruct (Hvote p v s w eq_refl) as [_ Hin].
  rewrite (Hnone Hin). simpl. lia.
Qed.

Lemma one_vote_per_voter_and_proposal_witness :
  GovernanceVoting.votes_of 0 "0xA11ce"
    (snd (GovernanceVoting.run
            (GovernanceVoting.Mk 1 ∅ {[ (0, "0xA11ce") ]})
            [(5, GovernanceVoting.Vote "0xA11ce" 100 0 true)]))
  = [].
Proof.
  apply (one_vote_per_voter_and_proposal (GovernanceVoting.Mk 1 ∅ {[ (0, "0xA11ce") ]})
           [(5, GovernanceVoting.Vote "0xA11ce" 100 0 true)] 0 "0xA11ce").
  simpl. now apply elem_of_singleton.
Defined.

Section GovernanceExecution.

Import GovernanceVoting.

Lemma proposal_at_insert n m h id pr id' :
  proposal_at (Mk n (<[id := pr]> m) h) id'
  = if decide (id = id') then pr else default unset (m !! id').
Proof.
  unfold proposal_at. cbn [proposals]. destruct (decide (id = id')) as [->|Hne].
  - now rewrite lookup_insert_eq.
  - now rewrite lookup_insert_ne.
Qed.

Lemma proposal_at_unset st id : proposals st !! id = None -> proposal_at st id = unset.
Proof. unfold proposal_at. now intros ->. Qed.

Lemma proposal_at_present st id :
  proposal_at st id <> unset -> is_Some (proposals st !! id).
Proof.
  intros Hne. destruct (proposals st !! id) as [pr|] eqn:E; [eauto|].
  now apply proposal_at_unset in E.
Qed.

Lemma indexed_update st id pr n h :
  indexed st -> is_Some (proposals st !! id) -> proposalCount st <= n ->
  indexed (Mk n (<[id := pr]> (proposals st)) h).
Proof.
  intros Hwf [pr0 E0] Hn id' pr'. cbn [proposals proposalCount]. intros Hl.
  destruct (decide (id = id')) as [<-|Hne].
  - apply Hwf in E0. lia.
  - rewrite lookup_insert_ne in Hl by exact Hne. apply Hwf in Hl. lia.
Qed.

(** What a successful call does to the proposals. *)
Lemma call_proposals st b c st' e :
  indexed st -> 1 <= b ->
  call st b c = inr (st', e) ->
  indexed st'
  /\ (forall id, executed (proposal_at st id) = true ->
                 executed (proposal_at st' id) = true)
  /\ (forall p d, e = ProposalPassed p d ->
                  executed (proposal_at st p) = false
                  /\ executed (proposal_at st' p) = true
                  /\ d = data (proposal_at st p)
                  /\ is_Some (proposals st !! p))
  /\ (forall p, is_Some (proposals st' !! p) ->
                (is_Some (proposals st !! p)
                 /\ data (proposal_at st' p) = data (proposal_at st p))
                \/ exists desc, e = ProposalCreated p desc (data (proposal_at st' p))).
Proof.
  intros Hwf Hb.
  destruct c as [sender description data|sender weight proposalId support|sender proposalId];
    cbn [call].
  - unfold createProposal.
    destruct (_ =? _); [discriminate|]. destruct (_ <? _); [discriminate|].
    intros [= <- <-].
    assert (Hfresh : proposals st !! proposalCount st = None).
    { destruct (proposals st !! proposalCount st) as [pr|] eqn:E; [|reflexivity].
      apply Hwf in E. lia. }
    split; [|split; [|split; [discriminate|]]].
    + intros id pr. cbn [proposals proposalCount]. intros Hl.
      destruct (decide (proposalCount st = id)) as [<-|Hne]; [lia|].
      rewrite lookup_insert_ne in Hl by exact Hne. apply Hwf in Hl. lia.
    + intros id. rewrite proposal_at_insert.
      destruct (decide (proposalCount st = id)) as [<-|Hne]; [|auto].
      rewrite (proposal_at_unset _ _ Hfresh). discriminate.
    + intros p. rewrite proposal_at_insert. cbn [proposals].
      destruct (decide (proposalCount st = p)) as [<-|Hne].
      * intros _. right. now exists description.
      * rewrite lookup_insert_ne by exact Hne. intros Hs. left. auto.
  - unfold vote.
    destruct (Z.ltb_spec (deadline (proposal_at st proposalId)) b) as [|Hdl];
      [discriminate|].
    destruct (bool_decide _); [discriminate|].
    destruct (_ =? _); [discriminate|]. destruct (_ <? _); [discriminate|].
    intros [= <- <-].
    assert (Hpresent : is_Some (proposals st !! proposalId)).
    { apply proposal_at_present. intros E. rewrite E in Hdl. simpl in Hdl. lia. }
    split; [|split; [|split; [discriminate|]]].
    + apply indexed_update; [exact Hwf | exact Hpresent | lia].
    + intros id. rewrite proposal_at_insert.
      destruct (decide (proposalId = id)) as [<-|Hne]; [|auto].
      now destruct support.
    + intros p. rewrite proposal_at_insert. cbn [proposals].
      destruct (decide (proposalId = p)) as [<-|Hne].
      * intros _. left. split; [exact Hpresent|]. now destruct support.
      * rewrite lookup_insert_ne by exact Hne. intros Hs. left. auto.
  - unfold executeProposal.
    destruct (executed (proposal_at st proposalId)) eqn:Hex; [discriminate|].
    destruct (_ <=? _); [discriminate|].
    destruct (Z.leb_spec (votesFor (proposal_at st proposalId))
                         (votesAgainst (proposal_at st proposalId))) as [|Hvotes];
      [discriminate|].
    destruct (_ <? _); [discriminate|].
    intros [= <- <-].
    assert (Hpresent : is_Some (proposals st !! proposalId)).
    { apply proposal_at_present. intros E. rewrite E in Hvotes. simpl in Hvotes. lia. }
    split; [|split; [|split]].
    + apply indexed_update; [exact Hwf | exact Hpresent | lia].
    + intros id. rewrite proposal_at_insert.
      destruct (decide (proposalId = id)) as [<-|Hne]; auto.
    + intros p d [= <- <-]. rewrite proposal_at_insert.
      rewrite decide_True by reflexivity. auto.
    + intros p. rewrite proposal_at_insert. cbn [proposals].
      destruct (decide (proposalId = p)) as [<-|Hne].
      * intros _. left. auto.
      * rewrite lookup_insert_ne by exact Hne. intros Hs. left. auto.
Qed.

Lemma run_executed_stays txs : forall st p,
  indexed st -> after_genesis txs ->
  executed (proposal_at st p) = true ->
  passed p (snd (run st txs)) = [].
Proof.
  induction txs as [|[b c] txs IH]; intros st p Hwf Hblocks Hex; [reflexivity|].
  apply Forall_cons in Hblocks as [Hb Hblocks]. simpl in Hb.
  simpl. destruct (call st b c) as [r|[st' e]] eqn:E; [now apply IH|].
  destruct (call_proposals st b c st' e Hwf Hb E) as (Hwf' & Hmono & Hpass & _).
  specialize (IH st' p Hwf' Hblocks (Hmono _ Hex)).
  destruct (run st' txs) as [st'' es]. cbn [snd] in *.
  rewrite passed_cons, IH. destruct e as [| |p' d]; try reflexivity.
  destruct (Z.eqb_spec p' p) as [->|]; [|reflexivity].
  destruct (Hpass p d eq_refl) as (Hno & _). congruence.
Qed.

Lemma run_passed_once txs : forall st p,
  indexed st -> after_genesis txs ->
  (length (passed p (snd (run st txs))) <= 1)%nat.
Proof.
  induction txs as [|[b c] txs IH]; intros st p Hwf Hblocks; [simpl; lia|].
  apply Forall_cons in Hblocks as [Hb Hblocks]. simpl in Hb.
  simpl. destruct (call st b c) as [r|[st' e]] eqn:E; [now apply IH|].
  destruct (call_proposals st b c st' e Hwf Hb E) as (Hwf' & _ & Hpass & _).
  pose proof (IH st' p Hwf' Hblocks) as Hlen.
  pose proof (run_executed_stays txs st' p Hwf' Hblocks) as Hnone.
  destruct (run st' txs) as [st'' es]. cbn [snd] in *.
  rewrite passed_cons. destruct e as [| |p' d]; try exact Hlen.
  destruct (Z.eqb_spec p' p) as [->|]; [|exact Hlen].
  destruct (Hpass p d eq_refl) as (_ & Hyes & _).
  rewrite (Hnone Hyes). simpl. lia.
Qed.

Lemma elem_of_passed p d es : d ∈ passed p es <-> ProposalPassed p d ∈ es.
Proof.
  induction es as [|e es IH].
  - split; intros H; inversion H.
  - rewrite passed_cons, elem_of_cons. destruct e as [| |p' d'].
    + rewrite IH. split; [auto | intros [[=]|]; auto].
    + rewrite IH. split; [auto | intros [[=]|]; auto].
    + destruct (Z.eqb_spec p' p) as [->|Hne].
      * rewrite elem_of_cons, IH. split.
        -- intros [->|H]; [now left | now right].
        -- intros [[= ->]|H]; [now left | now right].
      * rewrite IH. split; [auto | intros [[=]|]; [lia | auto]].
Qed.

(** The data a proposal passes with is the data it holds, which is the
    data it was created with. *)
Lemma run_passed_data txs : forall st p d,
  indexed st -> after_genesis txs ->
  d ∈ passed p (snd (run st txs)) ->
  (is_Some (proposals st !! p) /\ d = data (proposal_at st p))
  \/ exists desc, ProposalCreated p desc d ∈ snd (run st txs).
Proof.
  induction txs as [|[b c] txs IH]; intros st p d Hwf Hblocks Hin; [inversion Hin|].
  apply Forall_cons in Hblocks as [Hb Hblocks]. simpl in Hb.
  simpl in *. destruct (call st b c) as [r|[st' e]] eqn:E; [now apply IH|].
  destruct (call_proposals st b c st' e Hwf Hb E) as (Hwf' & _ & Hpass & Hdata).
  specialize (IH st' p d Hwf' Hblocks).
  destruct (run st' txs) as [st'' es]. cbn [snd] in *.
  rewrite passed_cons in Hin.
  assert (Hrest : d ∈ passed p es ->
                  (is_Some (proposals st !! p) /\ d = data (proposal_at st p))
                  \/ exists desc, ProposalCreated p desc d ∈ e :: es).
  { intros Hd. destruct (IH Hd) as [(Hs & ->)|(desc & Hc)].
    - destruct (Hdata p Hs) as [(Hs0 & ->)|(desc & ->)]; [left; auto|].
      right. exists desc. left.
    - right. exists desc. now right. }
  destruct e as [| |p' d']; try (now apply Hrest).
  destruct (Z.eqb_spec p' p) as [->|]; [|now apply Hrest].
  apply elem_of_cons in Hin as [->|Hin]; [|now apply Hrest].
  destruct (Hpass p d' eq_refl) as (_ & _ & -> & Hs). left. auto.
Qed.

End GovernanceExecution.

(** X15.  A proposal passes at most once, with the data it was created
    with.  On a ledger of transactions to the contract as deployed, none in
    the genesis block, there is at most one ProposalPassed event for any
    proposal id, and the data it carries is the data of the ProposalCreated
    event of that id: what the relayer reads from the event is what was
    proposed, under an id it meets once. *)
Theorem proposal_passes_once_with_its_data :
  forall (txs : list (Z * GovernanceVoting.Call)) (proposalId : Z) (data : string),
    after_genesis txs ->
    let es := snd (GovernanceVoting.run GovernanceVoting.deployed txs) in
    (length (GovernanceVoting.passed proposalId es) <= 1)%nat
    /\ (GovernanceVoting.ProposalPassed proposalId data ∈ es ->
        exists description,
          GovernanceVoting.ProposalCreated proposalId description data ∈ es).
Proof.
  intros txs p d Hblocks es. subst es.
  assert (Hwf : indexed GovernanceVoting.deployed).
  { intros id pr. simpl. rewrite lookup_empty. discriminate. }
  split; [now apply run_passed_once|].
  intros Hin. apply elem_of_passed in Hin.
  destruct (run_passed_data txs GovernanceVoting.deployed p d Hwf Hblocks Hin)
    as [(Hs & _)|H]; [|exact H].
  simpl in Hs. rewrite lookup_empty in Hs. now destruct Hs.
Qed.

Lemma proposal_passes_once_with_its_data_witness :
  GovernanceVoting.passed 0
    (snd (GovernanceVoting.run GovernanceVoting.deployed pause_ledger))
  = ["0x6b9a13e3"]
  /\ (length (GovernanceVoting.passed 0
                (snd (GovernanceVoting.run GovernanceVoting.deployed pause_ledger)))
      <= 1)%nat.
Proof.
  split; [vm_compute; reflexivity|].
  apply (proposal_passes_once_with_its_data pause_ledger 0 "0x6b9a13e3").
  repeat constructor; simpl; lia.
Defined.

Section GovernanceTally.

Import GovernanceVoting.

Lemma call_tally st b c st' e p :
  indexed st -> 1 <= b ->
  call st b c = inr (st', e) ->
  votesFor (proposal_at st' p) = votesFor (proposal_at st p) + tally p true [e]
  /\ votesAgainst (proposal_at st' p) = votesAgainst (proposal_at st p) + tally p false [e].
Proof.
  intros Hwf Hb.
  destruct c as [sender description data|sender weight proposalId support|sender proposalId];
    cbn [call].
  - unfold createProposal.
    destruct (_ =? _); [discriminate|]. destruct (_ <? _); [discriminate|].
    intros [= <- <-]. rewrite proposal_at_insert. cbn [tally].
    destruct (decide (proposalCount st = p)) as [<-|Hne]; [|split; apply Zplus_0_r_reverse].
    assert (Hfresh : proposals st !! proposalCount st = None).
    { destruct (proposals st !! proposalCount st) as [pr|] eqn:E; [|reflexivity].
      apply Hwf in E. lia. }
    rewrite (proposal_at_unset _ _ Hfresh). now split.
  - unfold vote.
    destruct (_ <? _); [discriminate|]. destruct (bool_decide _); [discriminate|].
    destruct (_ =? _); [discriminate|]. destruct (_ <? _); [discriminate|].
    intros [= <- <-]. rewrite proposal_at_insert. cbn [tally].
    destruct (decide (proposalId = p)) as [<-|Hne].
    + rewrite Z.eqb_refl. destruct support; cbn; split; lia.
    + destruct (Z.eqb_spec proposalId p) as [|_]; [contradiction|].
      cbn. split; apply Zplus_0_r_reverse.
  - unfold executeProposal.
    destruct (executed _); [discriminate|]. destruct (_ <=? _); [discriminate|].
    destruct (_ <=? _); [discriminate|]. destruct (_ <? _); [discriminate|].
    intros [= <- <-]. rewrite proposal_at_insert. cbn [tally].
    destruct (decide (proposalId = p)) as [<-|Hne]; unfold proposal_at; cbn; split; lia.
Qed.

Lemma tally_cons p s e es : tally p s (e :: es) = tally p s [e] + tally p s es.
Proof.
  cbn [tally]. destruct e as [|p' v s' w|]; try reflexivity.
  destruct ((p' =? p) && Bool.eqb s' s); lia.
Qed.

Lemma tally_app p s es1 es2 : tally p s (es1 ++ es2) = tally p s es1 + tally p s es2.
Proof.
  induction es1 as [|e es1 IH]; [reflexivity|].
  rewrite <- app_comm_cons, (tally_cons p s e (es1 ++ es2)), (tally_cons p s e es1), IH.
  lia.
Qed.

(** The stored counts are what they were plus what the events record. *)
Lemma run_tally txs : forall st p,
  indexed st -> after_genesis txs ->
  votesFor (proposal_at (fst (run st txs)) p)
  = votesFor (proposal_at st p) + tally p true (snd (run st txs))
  /\ votesAgainst (proposal_at (fst (run st txs)) p)
     = votesAgainst (proposal_at st p) + tally p false (snd (run st txs)).
Proof.
  induction txs as [|[b c] txs IH]; intros st p Hwf Hblocks.
  { cbn. split; lia. }
  apply Forall_cons in Hblocks as [Hb Hblocks]. simpl in Hb.
  cbn [run]. destruct (call st b c) as [r|[st' e]] eqn:E; [now apply IH|].
  destruct (call_proposals st b c st' e Hwf Hb E) as (Hwf' & _).
  destruct (call_tally st b c st' e p Hwf Hb E) as (Hfor & Hagainst).
  destruct (IH st' p Hwf' Hblocks) as (IHfor & IHagainst).
  destruct (run st' txs) as [st'' es]. cbn [fst snd] in *.
  rewrite (tally_cons p true e es), (tally_cons p false e es). lia.
Qed.

(** At a ProposalPassed event the weight for exceeds the weight against,
    counting from the stored counts. *)
Lemma run_passed_majority txs : forall st p d es1 es2,
  indexed st -> after_genesis txs ->
  snd (run st txs) = es1 ++ ProposalPassed p d :: es2 ->
  votesAgainst (proposal_at st p) + tally p false es1
  < votesFor (proposal_at st p) + tally p true es1.
Proof.
  induction txs as [|[b c] txs IH]; intros st p d es1 es2 Hwf Hblocks Hes.
  { now destruct es1. }
  apply Forall_cons in Hblocks as [Hb Hblocks]. simpl in Hb.
  cbn [run] in Hes. destruct (call st b c) as [r|[st' e]] eqn:E; [now apply (IH _ _ d _ es2)|].
  destruct (call_proposals st b c st' e Hwf Hb E) as (Hwf' & _).
  destruct (call_tally st b c st' e p Hwf Hb E) as (Hfor & Hagainst).
  specialize (IH st' p d).
  destruct (run st' txs) as [st'' es]. cbn [snd] in *.
  destruct es1 as [|e1 es1].
  - injection Hes as -> _. cbn [tally].
    destruct c as [?|?|sender proposalId]; cbn [call] in E.
    + unfold createProposal in E.
      destruct (_ =? _); [discriminate|]. destruct (_ <? _); discriminate.
    + unfold vote in E.
      destruct (_ <? _); [discriminate|]. destruct (bool_decide _); [discriminate|].
      destruct (_ =? _); [discriminate|]. destruct (_ <? _); discriminate.
    + unfold executeProposal in E.
      destruct (executed _); [discriminate|]. destruct (_ <=? _); [discriminate|].
      destruct (Z.leb_spec (votesFor (proposal_at st proposalId))
                           (votesAgainst (proposal_at st proposalId))) as [|Hvotes];
        [discriminate|].
      destruct (_ <? _); [discriminate|].
      injection E as _ -> _. lia.
  - injection Hes as He Hes. subst e1.
    specialize (IH es1 es2 Hwf' Hblocks Hes).
    rewrite (tally_cons p true e es1), (tally_cons p false e es1). lia.
Qed.

Lemma run_weights_unsigned txs : forall st,
  unsigned_weights txs ->
  Forall (fun e => match e with Voted _ _ _ w => 0 <= w | _ => True end)
         (snd (run st txs)).
Proof.
  induction txs as [|[b c] txs IH]; intros st Hw; [constructor|].
  apply Forall_cons in Hw as [Hc Hw]. simpl in Hc.
  cbn [run]. destruct (call st b c) as [r|[st' e]] eqn:E; [now apply IH|].
  specialize (IH st' Hw).
  destruct (run st' txs) as [st'' es]. cbn [snd] in *.
  constructor; [|exact IH].
  destruct c as [?|sender weight proposalId support|?]; cbn [call] in E.
  - unfold createProposal in E.
    destruct (_ =? _); [discriminate|]. destruct (_ <? _); [discriminate|].
    now injection E as _ <-.
  - unfold vote in E.
    destruct (_ <? _); [discriminate|]. destruct (bool_decide _); [discriminate|].
    destruct (_ =? _); [discriminate|]. destruct (_ <? _); [discriminate|].
    now injection E as _ <-.
  - unfold executeProposal in E.
    destruct (executed _); [discriminate|]. destruct (_ <=? _); [discriminate|].
    destruct (_ <=? _); [discriminate|]. destruct (_ <? _); [discriminate|].
    now injection E as _ <-.
Qed.

Lemma tally_unsigned p s es :
  Forall (fun e => match e with Voted _ _ _ w => 0 <= w | _ => True end) es ->
  0 <= tally p s es.
Proof.
  induction 1 as [|e es He _ IH]; [reflexivity|].
  cbn [tally]. destruct e as [|p' v s' w|]; try exact IH.
  destruct (_ && _); lia.
Qed.

End GovernanceTally.

(** X16.  A proposal passes on a strict majority of the weight voted.  On a
    ledger of transactions to the contract as deployed, none in the genesis
    block, the counts a proposal holds are the sums of the weights of its
    Voted events on each side, and where a ProposalPassed event is emitted
    the weight voted for the proposal by then exceeds the weight voted
    against it.  With unsigned weights the weight for is then at least
    QUORUM: whenever the majority check of executeProposal lets an
    execution through, so does its quorum check. *)
Theorem proposal_passes_on_majority_of_votes :
  forall (txs : list (Z * GovernanceVoting.Call)) (proposalId : Z),
    after_genesis txs ->
    let st := fst (GovernanceVoting.run GovernanceVoting.deployed txs) in
    let es := snd (GovernanceVoting.run GovernanceVoting.deployed txs) in
    GovernanceVoting.votesFor (GovernanceVoting.proposal_at st proposalId)
    = tally proposalId true es
    /\ GovernanceVoting.votesAgainst (GovernanceVoting.proposal_at st proposalId)
       = tally proposalId false es
    /\ (forall data es1 es2,
          es = es1 ++ GovernanceVoting.ProposalPassed proposalId data :: es2 ->
          tally proposalId false es1 < tally proposalId true es1
          /\ (unsigned_weights txs ->
              GovernanceVoting.QUORUM <= tally proposalId true es1)).
Proof.
  intros txs p Hblocks st es. subst st es.
  assert (Hwf : indexed GovernanceVoting.deployed).
  { intros id pr. simpl. rewrite lookup_empty. discriminate. }
  destruct (run_tally txs GovernanceVoting.deployed p Hwf Hblocks) as (Hfor & Hagainst).
  split; [exact Hfor|]. split; [exact Hagainst|].
  intros d es1 es2 Hes.
  pose proof (run_passed_majority txs GovernanceVoting.deployed p d es1 es2 Hwf Hblocks Hes)
    as Hmaj.
  change (0 + tally p false es1 < 0 + tally p true es1) in Hmaj.
  split; [lia|]. intros Hw.
  pose proof (run_weights_unsigned txs GovernanceVoting.deployed Hw) as Hpos.
  rewrite Hes in Hpos. apply Forall_app in Hpos as [Hpos _].
  apply (tally_unsigned p false) in Hpos.
  unfold GovernanceVoting.QUORUM. lia.
Qed.

Lemma proposal_passes_on_majority_of_votes_witness :
  tally 0 true (snd (GovernanceVoting.run GovernanceVoting.deployed pause_ledger)) = 100
  /\ GovernanceVoting.votesFor
       (GovernanceVoting.proposal_at
          (fst (GovernanceVoting.run GovernanceVoting.deployed pause_ledger)) 0)
     = tally 0 true (snd (GovernanceVoting.run GovernanceVoting.deployed pause_ledger)).
Proof.
  split; [vm_compute; reflexivity|].
  apply (proposal_passes_on_majority_of_votes pause_ledger 0).
  repeat constructor; simpl; lia.
Defined.

Section GovernanceDeadline.

Import GovernanceVoting.

(** A call leaves the proposals there are in place, with their
    deadlines. *)
Lemma call_deadline st b c st' e p :
  indexed st -> call st b c = inr (st', e) ->
  is_Some (proposals st !! p) ->
  is_Some (proposals st' !! p)
  /\ deadline (proposal_at st' p) = deadline (proposal_at st p).
Proof.
  intros Hwf E Hp.
  assert (Hkeep : forall id pr,
            is_Some (<[id := pr]> (proposals st) !! p)).
  { intros id pr. destruct (decide (id = p)) as [->|Hne].
    - rewrite lookup_insert_eq. eauto.
    - now rewrite lookup_insert_ne. }
  destruct c as [sender description data|sender weight proposalId support|sender proposalId];
    cbn [call] in E.
  - unfold createProposal in E.
    destruct (_ =? _); [discriminate|]. destruct (_ <? _); [discriminate|].
    injection E as <- <-. rewrite proposal_at_insert. cbn [proposals].
    split; [apply Hkeep|].
    destruct (decide (proposalCount st = p)) as [<-|Hne]; [|reflexivity].
    destruct Hp as [pr Hp]. apply Hwf in Hp. lia.
  - unfold vote in E.
    destruct (_ <? _); [discriminate|]. destruct (bool_decide _); [discriminate|].
    destruct (_ =? _); [discriminate|]. destruct (_ <? _); [discriminate|].
    injection E as <- <-. rewrite proposal_at_insert. cbn [proposals].
    split; [apply Hkeep|].
    destruct (decide (proposalId = p)) as [<-|Hne]; [|reflexivity].
    now destruct support.
  - unfold executeProposal in E.
    destruct (executed _); [discriminate|]. destruct (_ <=? _); [discriminate|].
    destruct (_ <=? _); [discriminate|]. destruct (_ <? _); [discriminate|].
    injection E as <- <-. rewrite proposal_at_insert. cbn [proposals].
    split; [apply Hkeep|].
    destruct (decide (proposalId = p)) as [<-|Hne]; reflexivity.
Qed.

(** Past its deadline a proposal takes no vote. *)
Lemma run_closed txs : forall st p,
  indexed st -> after_genesis txs ->
  is_Some (proposals st !! p) ->
  Forall (fun tx => deadline (proposal_at st p) < fst tx) txs ->
  forall v s w, Voted p v s w ∉ snd (run st txs).
Proof.
  induction txs as [|[b c] txs IH]; intros st p Hwf Hblocks Hp Hlate v s w.
  { cbn. apply not_elem_of_nil. }
  apply Forall_cons in Hblocks as [Hb Hblocks]. simpl in Hb.
  apply Forall_cons in Hlate as [Hd Hlate]. simpl in Hd.
  cbn [run]. destruct (call st b c) as [r|[st' e]] eqn:E; [now apply IH|].
  destruct (call_proposals st b c st' e Hwf Hb E) as (Hwf' & _).
  destruct (call_deadline st b c st' e p Hwf E Hp) as (Hp' & Hsame).
  rewrite <- Hsame in Hlate.
  specialize (IH st' p Hwf' Hblocks Hp' Hlate v s w).
  destruct (run st' txs) as [st'' es]. cbn [snd] in *.
  apply not_elem_of_cons. split; [|exact IH].
  intros <-.
  destruct c as [?|sender weight proposalId support|?]; cbn [call] in E.
  - unfold createProposal in E.
    destruct (_ =? _); [discriminate|]. destruct (_ <? _); discriminate.
  - unfold vote in E.
    destruct (Z.ltb_spec (deadline (proposal_at st proposalId)) b) as [|Hopen];
      [discriminate|].
    destruct (bool_decide _); [discriminate|].
    destruct (_ =? _); [discriminate|]. destruct (_ <? _); [discriminate|].
    injection E as _ -> _ _ _. lia.
  - unfold executeProposal in E.
    destruct (executed _); [discriminate|]. destruct (_ <=? _); [discriminate|].
    destruct (_ <=? _); [discriminate|]. destruct (_ <? _); discriminate.
Qed.

Lemma run_votes_before_pass txs : forall st p d es1 es2,
  indexed st -> after_genesis txs -> in_block_order txs ->
  snd (run st txs) = es1 ++ ProposalPassed p d :: es2 ->
  forall v s w, Voted p v s w ∉ es2.
Proof.
  induction txs as [|[b c] txs IH]; intros st p d es1 es2 Hwf Hblocks Hord Hes.
  { now destruct es1. }
  apply Forall_cons in Hblocks as [Hb Hblocks]. simpl in Hb.
  apply StronglySorted_inv in Hord as [Hord Hlater].
  cbn [run] in Hes.
  destruct (call st b c) as [r|[st' e]] eqn:E; [now apply (IH st p d es1 es2)|].
  destruct (call_proposals st b c st' e Hwf Hb E) as (Hwf' & _ & Hpass & _).
  pose proof (run_closed txs st' p Hwf' Hblocks) as Hclosed.
  specialize (IH st' p d).
  destruct (run st' txs) as [st'' es]. cbn [snd] in *.
  destruct es1 as [|e1 es1].
  - injection Hes as He Hes. subst e es.
    destruct (Hpass p d eq_refl) as (_ & _ & _ & Hp).
    destruct (call_deadline st b c st' _ p Hwf E Hp) as (Hp' & Hsame).
    apply Hclosed; [exact Hp'|]. rewrite Hsame.
    assert (Hdl : deadline (proposal_at st p) < b).
    { destruct c as [?|?|sender proposalId]; cbn [call] in E.
      - unfold createProposal in E.
        destruct (_ =? _); [discriminate|]. destruct (_ <? _); discriminate.
      - unfold vote in E.
        destruct (_ <? _); [discriminate|]. destruct (bool_decide _); [discriminate|].
        destruct (_ =? _); [discriminate|]. destruct (_ <? _); discriminate.
      - unfold executeProposal in E.
        destruct (executed _); [discriminate|].
        destruct (Z.leb_spec b (deadline (proposal_at st proposalId))) as [|Hdl];
          [discriminate|].
        destruct (_ <=? _); [discriminate|]. destruct (_ <? _); [discriminate|].
        injection E as _ -> _. exact Hdl. }
    eapply Forall_impl; [exact Hlater|]. cbn. intros tx Htx. lia.
  - injection Hes as He Hes. subst e1.
    now apply (IH es1 es2).
Qed.

End GovernanceDeadline.

(** X17.  The votes are in when a proposal passes.  On a ledger of
    transactions to the contract as deployed, in the order of their blocks
    and none in the genesis block, no Voted event of a proposal follows its
    ProposalPassed event: voting needs a block up to the deadline,
    execution a block past it, and the deadline is set once. *)
Theorem no_vote_after_proposal_passed :
  forall (txs : list (Z * GovernanceVoting.Call)) (proposalId : Z) (data : string)
         (es1 es2 : list GovernanceVoting.Event),
    after_genesis txs ->
    in_block_order txs ->
    snd (GovernanceVoting.run GovernanceVoting.deployed txs)
    = es1 ++ GovernanceVoting.ProposalPassed proposalId data :: es2 ->
    forall voter support weight,
      GovernanceVoting.Voted proposalId voter support weight ∉ es2.
Proof.
  intros txs p d es1 es2 Hblocks Hord Hes.
  apply (run_votes_before_pass txs GovernanceVoting.deployed p d es1 es2);
    [|exact Hblocks | exact Hord | exact Hes].
  intros id pr. simpl. rewrite lookup_empty. discriminate.
Qed.

Lemma no_vote_after_proposal_passed_witness :
  snd (GovernanceVoting.run GovernanceVoting.deployed late_vote_ledger)
  = [GovernanceVoting.ProposalCreated 0 "Pause" "0x6b9a13e3";
     GovernanceVoting.Voted 0 "0xA11ce" true 100]
    ++ GovernanceVoting.ProposalPassed 0 "0x6b9a13e3" :: []
  /\ GovernanceVoting.Voted 0 "0xB0b" false 5 ∉ @nil GovernanceVoting.Event.
Proof.
  split; [vm_compute; reflexivity|].
  apply (no_vote_after_proposal_passed late_vote_ledger 0 "0x6b9a13e3"
           [GovernanceVoting.ProposalCreated 0 "Pause" "0x6b9a13e3";
            GovernanceVoting.Voted 0 "0xA11ce" true 100] []).
  - repeat constructor; simpl; lia.
  - repeat constructor; simpl; lia.
  - vm_compute; reflexivity.
Defined.

(** ** The bridge contracts *)

Lemma consecutive_from_nil start : consecutive_from start [] start.
Proof. split; [reflexivity | cbn; lia]. Qed.

Lemma consecutive_from_one start : consecutive_from start [start] (start + 1).
Proof. split; reflexivity. Qed.

Lemma consecutive_from_app a l1 b l2 c :
  consecutive_from a l1 b -> consecutive_from b l2 c ->
  consecutive_from a (l1 ++ l2) c.
Proof.
  intros [H1 ->] [H2 ->]. split.
  - rewrite length_app, Nat2Z.inj_add, seqZ_app by lia. now rewrite <- H1, <- H2.
  - rewrite length_app. lia.
Qed.

Lemma consecutive_from_keys start nonces final :
  consecutive_from start nonces final ->
  NoDup nonces
  /\ (0 <= start -> final <= 2 ^ 53 -> map Number nonces = nonces).
Proof.
  intros [Hn ->]. split.
  - rewrite Hn. apply NoDup_seqZ.
  - intros H0 H53.
    assert (Hall : Forall (fun n => 0 <= n <= 2 ^ 53) nonces).
    { rewrite Hn. apply Forall_forall. intros n Hin. apply elem_of_seqZ in Hin. lia. }
    clear Hn H53. induction Hall as [|n l Hn _ IH]; [reflexivity|].
    cbn [map]. now rewrite (Number_exact n Hn), IH.
Qed.

Section BridgeLedgers.

Lemma chainA_call_lockNonce st c st' es :
  ChainA.call st c = inr (st', es) ->
  consecutive_from (BridgeLock.lockNonce (ChainA.bridgeLock st))
                   (ChainA.locked_nonces es)
                   (BridgeLock.lockNonce (ChainA.bridgeLock st')).
Proof.
  destruct c as [sender amount tr|sender user amount nonce tr|sender|sender|sender|r a g];
    cbn [ChainA.call].
  - unfold BridgeLock.lock.
    destruct (BridgeLock.paused _); [discriminate|].
    destruct (_ =? _); [discriminate|]. destruct (_ =? _); [discriminate|].
    destruct tr; [|discriminate]. cbn. intros [= <- <-]. apply consecutive_from_one.
  - unfold BridgeLock.unlock.
    destruct (bool_decide _); [|discriminate]. destruct (bool_decide _); [discriminate|].
    destruct (_ =? _); [discriminate|]. destruct tr; [|discriminate].
    cbn. intros [= <- <-]. apply consecutive_from_nil.
  - unfold BridgeLock.pause.
    destruct (bool_decide _); [|discriminate]. destruct (BridgeLock.paused _); [discriminate|].
    cbn. intros [= <- <-]. apply consecutive_from_nil.
  - unfold BridgeLock.unpause.
    destruct (bool_decide _); [|discriminate]. destruct (BridgeLock.paused _); [|discriminate].
    cbn. intros [= <- <-]. apply consecutive_from_nil.
  - unfold GovernanceEmergency.pauseBridge, BridgeLock.pause.
    destruct (bool_decide _); [|discriminate].
    destruct (bool_decide _); [|discriminate]. destruct (BridgeLock.paused _); [discriminate|].
    cbn. intros [= <- <-]. apply consecutive_from_nil.
  - intros [= <- <-]. apply consecutive_from_nil.
Qed.

Lemma chainA_locked_app es es' :
  ChainA.locked_nonces (es ++ es') = ChainA.locked_nonces es ++ ChainA.locked_nonces es'.
Proof. apply omap_app. Qed.

Lemma chainA_run_lockNonce txs : forall st,
  consecutive_from (BridgeLock.lockNonce (ChainA.bridgeLock st))
                   (ChainA.locked_nonces (snd (ChainA.run st txs)))
                   (BridgeLock.lockNonce (ChainA.bridgeLock (fst (ChainA.run st txs)))).
Proof.
  induction txs as [|c txs IH]; intros st; [apply consecutive_from_nil|].
  cbn [ChainA.run]. destruct (ChainA.call st c) as [r|[st' es]] eqn:E; [apply IH|].
  apply chainA_call_lockNonce in E. specialize (IH st').
  destruct (ChainA.run st' txs) as [st'' es']. cbn [fst snd] in *.
  rewrite chainA_locked_app. eapply consecutive_from_app; eassumption.
Qed.

Lemma mint_call_burnNonce st c st' es :
  BridgeMintContract.call st c = inr (st', es) ->
  consecutive_from (BridgeMintContract.burnNonce st)
                   (BridgeMintContract.burned_nonces es)
                   (BridgeMintContract.burnNonce st').
Proof.
  destruct c as [sender user amount nonce tc|sender amount tc|r];
    cbn [BridgeMintContract.call].
  - unfold BridgeMintContract.mintWrapped.
    destruct (bool_decide _); [|discriminate]. destruct (bool_decide _); [discriminate|].
    destruct (_ =? _); [discriminate|]. destruct tc; [|discriminate].
    cbn. intros [= <- <-]. apply consecutive_from_nil.
  - unfold BridgeMintContract.burn.
    destruct (_ =? _); [discriminate|]. destruct (_ =? _); [discriminate|].
    destruct tc; [|discriminate]. cbn. intros [= <- <-]. apply consecutive_from_one.
  - intros [= <- <-]. apply consecutive_from_nil.
Qed.

Lemma mint_run_burnNonce txs : forall st,
  consecutive_from (BridgeMintContract.burnNonce st)
                   (BridgeMintContract.burned_nonces (snd (BridgeMintContract.run st txs)))
                   (BridgeMintContract.burnNonce (fst (BridgeMintContract.run st txs))).
Proof.
  induction txs as [|c txs IH]; intros st; [apply consecutive_from_nil|].
  cbn [BridgeMintContract.run].
  destruct (BridgeMintContract.call st c) as [r|[st' es]] eqn:E; [apply IH|].
  apply mint_call_burnNonce in E. specialize (IH st').
  destruct (BridgeMintContract.run st' txs) as [st'' es']. cbn [fst snd] in *.
  unfold BridgeMintContract.burned_nonces. rewrite omap_app.
  eapply consecutive_from_app; eassumption.
Qed.

End BridgeLedgers.

(** X18.  Lock and burn nonces are handed out one by one.  Over any ledger
    of transactions to chain A, from any state, the nonces of the Locked
    events are the numbers from the starting [lockNonce] on, in order, and
    [lockNonce] ends as the next one: a reverted call takes no nonce and no
    nonce is given twice.  So it is for the Burned events of BridgeMint and
    [burnNonce].  While the counter has not passed 2^53 the relayer's
    Number(nonce) keys of these events are the nonces themselves, pairwise
    different. *)
Theorem event_nonces_consecutive :
  forall (a : ChainA.t) (txsA : list ChainA.Call)
         (b : BridgeMintContract.t) (txsB : list BridgeMintContract.Call),
    let a' := fst (ChainA.run a txsA) in
    let locked := ChainA.locked_nonces (snd (ChainA.run a txsA)) in
    let b' := fst (BridgeMintContract.run b txsB) in
    let burned := BridgeMintContract.burned_nonces (snd (BridgeMintContract.run b txsB)) in
    (consecutive_from (BridgeLock.lockNonce (ChainA.bridgeLock a)) locked
                      (BridgeLock.lockNonce (ChainA.bridgeLock a'))
     /\ NoDup locked
     /\ (0 <= BridgeLock.lockNonce (ChainA.bridgeLock a) ->
         BridgeLock.lockNonce (ChainA.bridgeLock a') <= 2 ^ 53 ->
         map Number locked = locked /\ NoDup (map Number locked)))
    /\ (consecutive_from (BridgeMintContract.burnNonce b) burned
                         (BridgeMintContract.burnNonce b')
        /\ NoDup burned
        /\ (0 <= BridgeMintContract.burnNonce b ->
            BridgeMintContract.burnNonce b' <= 2 ^ 53 ->
            map Number burned = burned /\ NoDup (map Number burned))).
Proof.
  intros a txsA b txsB a' locked b' burned. split.
  - pose proof (chainA_run_lockNonce txsA a) as Hc. fold a' locked in Hc.
    destruct (consecutive_from_keys _ _ _ Hc) as [Hnd Hkeys].
    split; [exact Hc|]. split; [exact Hnd|]. intros H0 H53.
    rewrite (Hkeys H0 H53). split; [reflexivity | exact Hnd].
  - pose proof (mint_run_burnNonce txsB b) as Hc. fold b' burned in Hc.
    destruct (consecutive_from_keys _ _ _ Hc) as [Hnd Hkeys].
    split; [exact Hc|]. split; [exact Hnd|]. intros H0 H53.
    rewrite (Hkeys H0 H53). split; [reflexivity | exact Hnd].
Qed.

Lemma added_once_nil s : added_once s [] s.
Proof.
  split; [constructor|]. split; [intros n Hn; inversion Hn|].
  intros n. split; [auto | intros [H|H]; [exact H | inversion H]].
Qed.

Lemma added_once_one s n : n ∉ s -> added_once s [n] ({[n]} ∪ s).
Proof.
  intros Hn. split; [|split].
  - apply NoDup_singleton.
  - intros m Hm. apply list_elem_of_singleton in Hm as ->. exact Hn.
  - intros m. rewrite elem_of_union, elem_of_singleton, list_elem_of_singleton. tauto.
Qed.

Lemma added_once_app s l1 s' l2 s'' :
  added_once s l1 s' -> added_once s' l2 s'' -> added_once s (l1 ++ l2) s''.
Proof.
  intros (Hnd1 & Hf1 & He1) (Hnd2 & Hf2 & He2). split; [|split].
  - apply NoDup_app. split; [exact Hnd1|]. split; [|exact Hnd2].
    intros n H1 H2. apply (Hf2 n H2), He1. now right.
  - intros n Hn. apply elem_of_app in Hn as [Hn|Hn]; [now apply Hf1|].
    intros Hs. apply (Hf2 n Hn), He1. now left.
  - intros n. rewrite He2, He1, elem_of_app. tauto.
Qed.

Section ReplayMaps.

Lemma chainA_call_unlocked st c st' es :
  ChainA.call st c = inr (st', es) ->
  added_once (BridgeLock.processedUnlockNonces (ChainA.bridgeLock st))
             (ChainA.unlocked_nonces es)
             (BridgeLock.processedUnlockNonces (ChainA.bridgeLock st')).
Proof.
  destruct c as [sender amount tr|sender user amount nonce tr|sender|sender|sender|r a g];
    cbn [ChainA.call].
  - unfold BridgeLock.lock.
    destruct (BridgeLock.paused _); [discriminate|].
    destruct (_ =? _); [discriminate|]. destruct (_ =? _); [discriminate|].
    destruct tr; [|discriminate]. cbn. intros [= <- <-]. apply added_once_nil.
  - unfold BridgeLock.unlock.
    destruct (bool_decide _); [|discriminate].
    destruct (bool_decide_reflect
                (nonce ∈ BridgeLock.processedUnlockNonces (ChainA.bridgeLock st)))
      as [|Hnew]; [discriminate|].
    destruct (_ =? _); [discriminate|]. destruct tr; [|discriminate].
    cbn. intros [= <- <-]. now apply added_once_one.
  - unfold BridgeLock.pause.
    destruct (bool_decide _); [|discriminate]. destruct (BridgeLock.paused _); [discriminate|].
    cbn. intros [= <- <-]. apply added_once_nil.
  - unfold BridgeLock.unpause.
    destruct (bool_decide _); [|discriminate]. destruct (BridgeLock.paused _); [|discriminate].
    cbn. intros [= <- <-]. apply added_once_nil.
  - unfold GovernanceEmergency.pauseBridge, BridgeLock.pause.
    destruct (bool_decide _); [|discriminate].
    destruct (bool_decide _); [|discriminate]. destruct (BridgeLock.paused _); [discriminate|].
    cbn. intros [= <- <-]. apply added_once_nil.
  - intros [= <- <-]. apply added_once_nil.
Qed.

Lemma chainA_run_unlocked txs : forall st,
  added_once (BridgeLock.processedUnlockNonces (ChainA.bridgeLock st))
             (ChainA.unlocked_nonces (snd (ChainA.run st txs)))
             (BridgeLock.processedUnlockNonces (ChainA.bridgeLock (fst (ChainA.run st txs)))).
Proof.
  induction txs as [|c txs IH]; intros st; [apply added_once_nil|].
  cbn [ChainA.run]. destruct (ChainA.call st c) as [r|[st' es]] eqn:E; [apply IH|].
  apply chainA_call_unlocked in E. specialize (IH st').
  destruct (ChainA.run st' txs) as [st'' es']. cbn [fst snd] in *.
  unfold ChainA.unlocked_nonces. rewrite omap_app.
  eapply added_once_app; eassumption.
Qed.

Lemma mint_call_minted st c st' es :
  BridgeMintContract.call st c = inr (st', es) ->
  added_once (BridgeMintContract.processedMintNonces st)
             (BridgeMintContract.minted_nonces es)
             (BridgeMintContract.processedMintNonces st').
Proof.
  destruct c as [sender user amount nonce tc|sender amount tc|r];
    cbn [BridgeMintContract.call].
  - unfold BridgeMintContract.mintWrapped.
    destruct (bool_decide _); [|discriminate].
    destruct (bool_decide_reflect (nonce ∈ BridgeMintContract.processedMintNonces st))
      as [|Hnew]; [discriminate|].
    destruct (_ =? _); [discriminate|]. destruct tc; [|discriminate].
    cbn. intros [= <- <-]. now apply added_once_one.
  - unfold BridgeMintContract.burn.
    destruct (_ =? _); [discriminate|]. destruct (_ =? _); [discriminate|].
    destruct tc; [|discriminate]. cbn. intros [= <- <-]. apply added_once_nil.
  - intros [= <- <-]. apply added_once_nil.
Qed.

Lemma mint_run_minted txs : forall st,
  added_once (BridgeMintContract.processedMintNonces st)
             (BridgeMintContract.minted_nonces (snd (BridgeMintContract.run st txs)))
             (BridgeMintContract.processedMintNonces (fst (BridgeMintContract.run st txs))).
Proof.
  induction txs as [|c txs IH]; intros st; [apply added_once_nil|].
  cbn [BridgeMintContract.run].
  destruct (BridgeMintContract.call st c) as [r|[st' es]] eqn:E; [apply IH|].
  apply mint_call_minted in E. specialize (IH st').
  destruct (BridgeMintContract.run st' txs) as [st'' es']. cbn [fst snd] in *.
  unfold BridgeMintContract.minted_nonces. rewrite omap_app.
  eapply added_once_app; eassumption.
Qed.

End ReplayMaps.

(** X19.  The contracts release a nonce once.  Over any ledger of
    transactions to chain A, from any state, whoever sends them and
    whatever the roles and the pause flag are, the nonces of the Unlocked
    events are pairwise different, none was in [processedUnlockNonces]
    before, and the map ends as what it was plus these nonces; so it is for
    the Minted events of BridgeMint and [processedMintNonces].  And the
    Lock listener's [mintWrapped] call, sent by a holder of RELAYER_ROLE,
    the token accepting the mint, is answered by the contract's
    [mintWrapped] (the replay check, then the amount check, then the mint)
    once ethers has let the nonce through: above 2^53 - 1 the call throws
    "overflow" and the contract is not reached. *)
Theorem contracts_release_a_nonce_once :
  forall (a : ChainA.t) (txsA : list ChainA.Call)
         (b : BridgeMintContract.t) (txsB : list BridgeMintContract.Call),
    added_once (BridgeLock.processedUnlockNonces (ChainA.bridgeLock a))
               (ChainA.unlocked_nonces (snd (ChainA.run a txsA)))
               (BridgeLock.processedUnlockNonces
                  (ChainA.bridgeLock (fst (ChainA.run a txsA))))
    /\ added_once (BridgeMintContract.processedMintNonces b)
                  (BridgeMintContract.minted_nonces (snd (BridgeMintContract.run b txsB)))
                  (BridgeMintContract.processedMintNonces
                     (fst (BridgeMintContract.run b txsB)))
    /\ (forall (hash : string) (relayer user : address) (amount nonce : Z),
          relayer ∈ BridgeMintContract.relayers b ->
          BridgeMint.submit hash (BridgeMintContract.processedMintNonces b)
                            (mintWrapped user amount nonce)
          = if MAX_SAFE_INTEGER <? nonce then
              (BridgeMintContract.processedMintNonces b, Threw (OtherError "overflow"))
            else
              match BridgeMintContract.mintWrapped b relayer user amount nonce true with
              | inl r =>
                (BridgeMintContract.processedMintNonces b, Threw (mint_error_of r))
              | inr (b', _) => (BridgeMintContract.processedMintNonces b', Mined hash)
              end).
Proof.
  intros a txsA b txsB. split; [apply chainA_run_unlocked|].
  split; [apply mint_run_minted|].
  intros hash relayer user amount nonce Hrole.
  unfold BridgeMint.submit, BridgeMintContract.mintWrapped.
  destruct (MAX_SAFE_INTEGER <? nonce); [reflexivity|].
  rewrite (bool_decide_eq_true_2 _ Hrole). cbn [negb].
  destruct (decide (nonce ∈ BridgeMintContract.processedMintNonces b)) as [Hin|Hnew].
  - now rewrite (bool_decide_eq_true_2 _ Hin).
  - rewrite (bool_decide_eq_false_2 _ Hnew). now destruct (amount =? 0).
Qed.

Section PauseFacts.

(** While the bridge is paused a call that goes through emits no Locked
    event, and leaves the bridge paused unless it emits Unpaused. *)
Lemma chainA_call_paused st c st' es :
  BridgeLock.paused (ChainA.bridgeLock st) = true ->
  ChainA.call st c = inr (st', es) ->
  (forall u a n, ChainA.OfLock (BridgeLock.Locked u a n) ∉ es)
  /\ (BridgeLock.paused (ChainA.bridgeLock st') = true
      \/ exists account, es = [ChainA.OfLock (BridgeLock.Unpaused account)]).
Proof.
  intros Hp.
  destruct c as [sender amount tr|sender user amount nonce tr|sender|sender|sender|r a g];
    cbn [ChainA.call].
  - unfold BridgeLock.lock. rewrite Hp. discriminate.
  - unfold BridgeLock.unlock.
    destruct (bool_decide _); [|discriminate]. destruct (bool_decide _); [discriminate|].
    destruct (_ =? _); [discriminate|]. destruct tr; [|discriminate].
    cbn. intros [= <- <-]. split; [|now left].
    intros u a n Hin. apply list_elem_of_singleton in Hin. discriminate.
  - unfold BridgeLock.pause. rewrite Hp.
    destruct (bool_decide _); discriminate.
  - unfold BridgeLock.unpause. rewrite Hp.
    destruct (bool_decide _); [|discriminate].
    cbn. intros [= <- <-]. split; [|right; eauto].
    intros u a n Hin. apply list_elem_of_singleton in Hin. discriminate.
  - unfold GovernanceEmergency.pauseBridge, BridgeLock.pause. rewrite Hp.
    destruct (bool_decide _); [|discriminate]. destruct (bool_decide _); discriminate.
  - intros [= <- <-]. split; [|now left]. intros u' a' n' Hin. inversion Hin.
Qed.

Lemma chainA_run_paused txs : forall st es1 u a n es2,
  BridgeLock.paused (ChainA.bridgeLock st) = true ->
  snd (ChainA.run st txs) = es1 ++ ChainA.OfLock (BridgeLock.Locked u a n) :: es2 ->
  exists account, ChainA.OfLock (BridgeLock.Unpaused account) ∈ es1.
Proof.
  induction txs as [|c txs IH]; intros st es1 u a n es2 Hp Hes.
  { now destruct es1. }
  cbn [ChainA.run] in Hes.
  destruct (ChainA.call st c) as [r|[st' es]] eqn:E; [now apply (IH st es1 u a n es2)|].
  destruct (chainA_call_paused st c st' es Hp E) as (Hnolock & Hstill).
  specialize (IH st').
  destruct (ChainA.run st' txs) as [st'' es']. cbn [snd] in *.
  assert (Hin : ChainA.OfLock (BridgeLock.Locked u a n) ∈ es ++ es').
  { rewrite Hes. apply elem_of_app. right. left. }
  destruct Hstill as [Hp'|[account ->]].
  - (* still paused: the Locked event is among the later ones *)
    apply elem_of_app in Hin as [Hin|_]; [now apply Hnolock in Hin|].
    clear E. revert es1 Hes Hnolock.
    induction es as [|e es IHes]; intros es1 Hes Hnolock.
    + now apply (IH es1 u a n es2).
    + destruct es1 as [|e1 es1].
      * injection Hes as -> _. exfalso. apply (Hnolock u a n). left.
      * injection Hes as <- Hes.
        destruct (IHes es1 Hes) as [account Hacc].
        { intros u' a' n' Hin'. apply (Hnolock u' a' n'). now right. }
        exists account. now right.
  - destruct es1 as [|e1 es1]; [discriminate|].
    injection Hes as <- _. exists account. left.
Qed.

Lemma unlock_ignores_pause flag st sender user amount nonce transferred :
  BridgeLock.unlock (set_paused flag st) sender user amount nonce transferred
  = match BridgeLock.unlock st sender user amount nonce transferred with
    | inl r => inl r
    | inr (st', e) => inr (set_paused flag st', e)
    end.
Proof.
  unfold BridgeLock.unlock, set_paused. cbn.
  destruct (bool_decide _); [|reflexivity]. destruct (bool_decide _); [reflexivity|].
  destruct (_ =? _); [reflexivity|]. now destruct transferred.
Qed.

End PauseFacts.

(** X20.  What a relayed pause does on chain A.  [pauseBridge] goes through
    exactly when its sender holds RELAYER_ROLE of GovernanceEmergency,
    GovernanceEmergency holds RELAYER_ROLE of BridgeLock (the grant the
    deploy script ends with) and the bridge is not paused already.  It then
    sets the pause flag and changes nothing else, and over any later
    transactions no Locked event comes before an Unpaused event; [unlock]
    pays no attention to the flag, so the way back stays open. *)
Theorem pause_bridge_stops_locks_only :
  forall (st : ChainA.t) (sender : address),
    let emergency := GovernanceEmergency.this (ChainA.governanceEmergency st) in
    ((exists st' es, ChainA.call st (ChainA.PauseBridge sender) = inr (st', es))
     <-> sender ∈ GovernanceEmergency.relayers (ChainA.governanceEmergency st)
         /\ emergency ∈ BridgeLock.relayers (ChainA.bridgeLock st)
         /\ BridgeLock.paused (ChainA.bridgeLock st) = false)
    /\ (forall st' es,
          ChainA.call st (ChainA.PauseBridge sender) = inr (st', es) ->
          st' = ChainA.Mk (set_paused true (ChainA.bridgeLock st))
                          (ChainA.governanceEmergency st)
          /\ es = [ChainA.OfLock (BridgeLock.Paused emergency);
                   ChainA.OfEmergency (GovernanceEmergency.BridgePaused sender)]
          /\ (forall txs es1 user amount nonce es2,
                snd (ChainA.run st' txs)
                = es1 ++ ChainA.OfLock (BridgeLock.Locked user amount nonce) :: es2 ->
                exists account, ChainA.OfLock (BridgeLock.Unpaused account) ∈ es1)
          /\ (forall relayer user amount nonce transferred,
                BridgeLock.unlock (ChainA.bridgeLock st') relayer user amount nonce
                                  transferred
                = match BridgeLock.unlock (ChainA.bridgeLock st) relayer user amount nonce
                                          transferred with
                  | inl r => inl r
                  | inr (b, e) => inr (set_paused true b, e)
                  end)).
Proof.
  intros st sender emergency. subst emergency.
  assert (Hcases :
            forall st' es,
              ChainA.call st (ChainA.PauseBridge sender) = inr (st', es) ->
              (sender ∈ GovernanceEmergency.relayers (ChainA.governanceEmergency st)
               /\ GovernanceEmergency.this (ChainA.governanceEmergency st)
                  ∈ BridgeLock.relayers (ChainA.bridgeLock st)
               /\ BridgeLock.paused (ChainA.bridgeLock st) = false)
              /\ st' = ChainA.Mk (set_paused true (ChainA.bridgeLock st))
                                 (ChainA.governanceEmergency st)
              /\ es = [ChainA.OfLock
                         (BridgeLock.Paused
                            (GovernanceEmergency.this (ChainA.governanceEmergency st)));
                       ChainA.OfEmergency (GovernanceEmergency.BridgePaused sender)]).
  { intros st' es Hcall. cbn [ChainA.call] in Hcall.
    unfold GovernanceEmergency.pauseBridge, BridgeLock.pause in Hcall.
    destruct (bool_decide_reflect
                (sender ∈ GovernanceEmergency.relayers (ChainA.governanceEmergency st)))
      as [Hs|]; [|discriminate].
    destruct (bool_decide_reflect
                (GovernanceEmergency.this (ChainA.governanceEmergency st)
                 ∈ BridgeLock.relayers (ChainA.bridgeLock st))) as [He|]; [|discriminate].
    destruct (BridgeLock.paused (ChainA.bridgeLock st)) eqn:Hp; [discriminate|].
    cbn in Hcall. injection Hcall as <- <-. auto. }
  split.
  - split.
    + intros (st' & es & Hcall). apply (Hcases st' es Hcall).
    + intros (Hs & He & Hp). cbn [ChainA.call].
      unfold GovernanceEmergency.pauseBridge, BridgeLock.pause.
      rewrite (bool_decide_eq_true_2 _ Hs), (bool_decide_eq_true_2 _ He), Hp.
      cbn. eauto.
  - intros st' es Hcall. destruct (Hcases st' es Hcall) as (_ & -> & ->).
    split; [reflexivity|]. split; [reflexivity|]. split.
    + intros txs es1 user amount nonce es2 Hes.
      eapply (chainA_run_paused txs); [|exact Hes]. reflexivity.
    + intros relayer user amount nonce transferred. cbn [ChainA.bridgeLock].
      apply (unlock_ignores_pause true).
Qed.

Lemma pause_bridge_stops_locks_only_witness :
  let chain := ChainA.deployed "0xDeployer" "0xRelayer" "0xEmergency" in
  ChainA.call chain (ChainA.PauseBridge "0xRelayer")
  = inr (ChainA.Mk (set_paused true (ChainA.bridgeLock chain))
                   (ChainA.governanceEmergency chain),
         [ChainA.OfLock (BridgeLock.Paused "0xEmergency");
          ChainA.OfEmergency (GovernanceEmergency.BridgePaused "0xRelayer")])
  /\ BridgeLock.paused (ChainA.bridgeLock chain) = false.
Proof.
  split; [vm_compute; reflexivity|].
  apply (proj1 (pause_bridge_stops_locks_only
                  (ChainA.deployed "0xDeployer" "0xRelayer" "0xEmergency") "0xRelayer")).
  eexists _, _. vm_compute. reflexivity.
Defined.

(** ** The relayer against the contracts of chain A *)

Section RetryStraight.

Context {DState : Type}.
Variable submit : DState -> DestCall -> DState * Outcome.

(** A destination that rejects the call and stays as it is rejects it
    three times. *)
Lemma submit_with_retry_rejected j (w : World DState) err :
  submit (dest w) (job_call j) = (dest w, Threw err) ->
  submit_with_retry submit j w
  = MkWorld (db w) (dest w)
            (trace w ++ failed_attempt (job_call j) 1 err ++ [Sleep 2000]
                     ++ failed_attempt (job_call j) 2 err ++ [Sleep 2000]
                     ++ failed_attempt (job_call j) 3 err
                     ++ [Log (Critical (job_nonce j))]).
Proof.
  intros Hs. unfold submit_with_retry. change (Z.to_nat MAX_RETRIES) with 3%nat.
  simpl. unfold send. rewrite Hs. simpl. rewrite Hs. simpl. rewrite Hs. simpl.
  unfold log. cbn [db dest trace]. now rewrite <- !app_assoc.
Qed.

End RetryStraight.

Lemma chainA_pause_rejected hash relayer funded (st : ChainA.t) :
  BridgeLock.paused (ChainA.bridgeLock st) = true ->
  exists err, ChainA.submit hash relayer funded st pauseBridge = (st, Threw err).
Proof.
  intros Hp. unfold ChainA.submit.
  destruct (ChainA.call st (ChainA.PauseBridge relayer)) as [r|[st' es]] eqn:E; [eauto|].
  exfalso. cbn [ChainA.call] in E.
  unfold GovernanceEmergency.pauseBridge, BridgeLock.pause in E. rewrite Hp in E.
  destruct (bool_decide _); [|discriminate]. destruct (bool_decide _); discriminate.
Qed.

Lemma chainA_pause_accepted hash relayer funded (st : ChainA.t) :
  BridgeLock.paused (ChainA.bridgeLock st) = false ->
  relayer ∈ GovernanceEmergency.relayers (ChainA.governanceEmergency st) ->
  GovernanceEmergency.this (ChainA.governanceEmergency st)
  ∈ BridgeLock.relayers (ChainA.bridgeLock st) ->
  ChainA.submit hash relayer funded st pauseBridge
  = (ChainA.Mk (set_paused true (ChainA.bridgeLock st)) (ChainA.governanceEmergency st),
     Mined hash).
Proof.
  intros Hp Hr He. unfold ChainA.submit. cbn [ChainA.call].
  unfold GovernanceEmergency.pauseBridge, BridgeLock.pause.
  rewrite (bool_decide_eq_true_2 _ Hr), (bool_decide_eq_true_2 _ He), Hp. reflexivity.
Qed.

(** X21.  The governance relay against chain A.  Take a confirmed, unmarked
    ProposalPassed event and the relayer sending to the contracts of chain
    A.  When the data begins with the literal 0x6b9a13e3 the handler
    dispatches on: while the bridge is paused [pauseBridge()] is rejected
    three times, the handler ends on the CRITICAL entry and leaves store and
    chain as they were, so the proposal is not marked and a later handling
    from that state goes the same way; with the bridge open and both role
    grants in place the first submission is mined, the bridge is paused and
    the proposal marked.  When the data is the calldata of [pauseBridge()],
    0x7dd0480f, or begins with it, the handler logs an unknown selector:
    nothing is sent to chain A, the bridge is as it was, open if it was
    open, and the proposal is not marked. *)
Theorem governance_relay_against_chainA :
  forall (hash : string) (relayer : address) (funded : bool) (D : Z)
         (proposal : GovernanceListener.EventLog) (rest : string) (head : Z)
         (w : World ChainA.t),
    head - GovernanceListener.blockNumber proposal >= D ->
    RelayerDB.isProcessed (db w) (Number (GovernanceListener.proposalId proposal))
      "chainB" "ProposalPassed" = false ->
    let id := Number (GovernanceListener.proposalId proposal) in
    let job := MkJob pauseBridge id "chainB" "ProposalPassed" "chainB_governance"
                     (GovernanceListener.blockNumber proposal) in
    let w' := GovernanceListener._handleEvent (ChainA.submit hash relayer funded) D
                proposal head w in
    (GovernanceListener.data proposal = ("0x6b9a13e3" ++ rest)%string ->
     BridgeLock.paused (ChainA.bridgeLock (dest w)) = true ->
     db w' = db w /\ dest w' = dest w
     /\ exists err,
          added (trace w) (trace w')
          = Log (ProcessingProposal id "0x6b9a13e3")
            :: failed_attempt pauseBridge 1 err ++ [Sleep 2000]
            ++ failed_attempt pauseBridge 2 err ++ [Sleep 2000]
            ++ failed_attempt pauseBridge 3 err ++ [Log (Critical id)])
    /\ (GovernanceListener.data proposal = ("0x6b9a13e3" ++ rest)%string ->
        BridgeLock.paused (ChainA.bridgeLock (dest w)) = false ->
        relayer ∈ GovernanceEmergency.relayers (ChainA.governanceEmergency (dest w)) ->
        GovernanceEmergency.this (ChainA.governanceEmergency (dest w))
        ∈ BridgeLock.relayers (ChainA.bridgeLock (dest w)) ->
        RelayerDB.isProcessed (db w') id "chainB" "ProposalPassed" = true
        /\ dest w' = ChainA.Mk (set_paused true (ChainA.bridgeLock (dest w)))
                               (ChainA.governanceEmergency (dest w))
        /\ added (trace w) (trace w')
           = Log (ProcessingProposal id "0x6b9a13e3") :: relayed job hash)
    /\ (GovernanceListener.data proposal = (pauseBridge_calldata ++ rest)%string ->
        db w' = db w /\ dest w' = dest w
        /\ added (trace w) (trace w')
           = [Log (ProcessingProposal id "0x7dd0480f");
              Log (UnknownSelector "0x7dd0480f")]).
Proof.
  intros hash relayer funded D proposal rest head w Hconf Hfresh id job w'.
  assert (Hw' : GovernanceListener.data proposal = ("0x6b9a13e3" ++ rest)%string ->
                w' = submit_with_retry (ChainA.submit hash relayer funded) job
                       (log (ProcessingProposal id "0x6b9a13e3") w)).
  { intros Hdata. subst w' job id. unfold GovernanceListener._handleEvent.
    destruct (Z.ltb_spec (head - GovernanceListener.blockNumber proposal) D); [lia|].
    rewrite Hfresh, Hdata, slice0_selector. reflexivity. }
  split; [|split].
  - intros Hdata Hp.
    destruct (chainA_pause_rejected hash relayer funded (dest w) Hp) as [err Herr].
    rewrite (Hw' Hdata), (submit_with_retry_rejected _ job _ err) by exact Herr.
    cbn [db dest trace log]. split; [reflexivity|]. split; [reflexivity|].
    exists err. unfold log. cbn [trace]. rewrite <- app_assoc, added_app. reflexivity.
  - intros Hdata Hp Hr He.
    pose proof (chainA_pause_accepted hash relayer funded (dest w) Hp Hr He) as Hacc.
    rewrite (Hw' Hdata), (retry_mined_at_once _ job _ _ hash) by exact Hacc.
    cbn [db dest trace]. split; [|split; [reflexivity|]].
    + rewrite RelayerDBFacts.isProcessed_setLastBlock.
      apply RelayerDBFacts.isProcessed_markProcessed.
    + unfold log. cbn [trace]. rewrite <- app_assoc, added_app. reflexivity.
  - intros Hdata.
    assert (Hsel : GovernanceListener.slice0 10 (GovernanceListener.data proposal)
                   = "0x7dd0480f") by (rewrite Hdata; apply slice0_calldata).
    subst w'. rewrite gov_unknown; [|exact Hconf|exact Hfresh|rewrite Hsel; discriminate].
    rewrite Hsel. unfold log. cbn [db dest trace].
    rewrite <- app_assoc, added_app. auto.
Qed.

Lemma governance_relay_against_chainA_witness :
  let chain := ChainA.deployed "0xDeployer" "0xRelayer" "0xEmergency" in
  let submit := ChainA.submit Sample.tx1 "0xRelayer" true in
  let w1 := GovernanceListener._handleEvent submit 3
              (GovernanceListener.MkEventLog 200 0 "0x7dd0480f") 210
              (MkWorld RelayerDB.empty chain []) in
  db w1 = RelayerDB.empty
  /\ BridgeLock.paused (ChainA.bridgeLock (dest w1)) = false
  /\ added [] (trace w1)
     = [Log (ProcessingProposal 0 "0x7dd0480f"); Log (UnknownSelector "0x7dd0480f")].
Proof.
  pose proof (governance_relay_against_chainA Sample.tx1 "0xRelayer" true 3
                (GovernanceListener.MkEventLog 200 0 "0x7dd0480f") "" 210
                (MkWorld RelayerDB.empty
                         (ChainA.deployed "0xDeployer" "0xRelayer" "0xEmergency") [])
                ltac:(simpl; lia) eq_refl) as H.
  destruct H as (_ & _ & H).
  destruct (H ltac:(vm_compute; reflexivity)) as (Hdb & Hd & Htr).
  cbv zeta. split; [exact Hdb|]. split; [rewrite Hd; reflexivity | exact Htr].
Defined.

(** BridgeLock's replay map against any exchange with the relayer. *)
Lemma chainA_follows hash relayer funded (l : list (DestCall * Outcome)) :
  forall st st' : ChainA.t,
    follows (ChainA.submit hash relayer funded) st l st' ->
    added_once (BridgeLock.processedUnlockNonces (ChainA.bridgeLock st))
               (released_nonces l)
               (BridgeLock.processedUnlockNonces (ChainA.bridgeLock st'))
    /\ BridgeLock.lockNonce (ChainA.bridgeLock st')
       = BridgeLock.lockNonce (ChainA.bridgeLock st).
Proof.
  induction l as [|[c o] l IH]; intros st st'; cbn [follows].
  - intros ->. split; [apply added_once_nil | reflexivity].
  - intros (d' & Hs & Hf). destruct (IH d' st' Hf) as (IHa & IHn). clear IH Hf.
    assert (Hstep : added_once (BridgeLock.processedUnlockNonces (ChainA.bridgeLock st))
                               (released_nonces [(c, o)])
                               (BridgeLock.processedUnlockNonces (ChainA.bridgeLock d'))
                    /\ BridgeLock.lockNonce (ChainA.bridgeLock d')
                       = BridgeLock.lockNonce (ChainA.bridgeLock st)).
    { unfold ChainA.submit in Hs. destruct c as [u a n|u a n|].
      - injection Hs as <- <-. split; [apply added_once_nil | reflexivity].
      - destruct (MAX_SAFE_INTEGER <? n);
          [injection Hs as <- <-; split; [apply added_once_nil | reflexivity]|].
        cbn [ChainA.call] in Hs. unfold BridgeLock.unlock in Hs.
        destruct (bool_decide _);
          [|injection Hs as <- <-; split; [apply added_once_nil | reflexivity]].
        destruct (bool_decide_reflect
                    (n ∈ BridgeLock.processedUnlockNonces (ChainA.bridgeLock st)))
          as [|Hnew];
          [injection Hs as <- <-; split; [apply added_once_nil | reflexivity]|].
        destruct (a =? 0);
          [injection Hs as <- <-; split; [apply added_once_nil | reflexivity]|].
        destruct funded;
          [|injection Hs as <- <-; split; [apply added_once_nil | reflexivity]].
        cbn in Hs. injection Hs as <- <-. split; [|reflexivity].
        now apply added_once_one.
      - cbn [ChainA.call] in Hs.
        unfold GovernanceEmergency.pauseBridge, BridgeLock.pause in Hs.
        destruct (bool_decide _);
          [|injection Hs as <- <-; split; [apply added_once_nil | reflexivity]].
        destruct (bool_decide _);
          [|injection Hs as <- <-; split; [apply added_once_nil | reflexivity]].
        destruct (BridgeLock.paused _);
          injection Hs as <- <-; split; (apply added_once_nil || reflexivity). }
    destruct Hstep as (Ha & Hn). split; [|congruence].
    change (released_nonces ((c, o) :: l))
      with (released_nonces ([(c, o)] ++ l)).
    unfold released_nonces at 1. rewrite omap_app.
    eapply added_once_app; eassumption.
Qed.

Lemma Number_small n : n < 2 ^ 53 -> Number n = n.
Proof. intros Hn. unfold Number. now destruct (Z.ltb_spec n (2 ^ 53)); [|lia]. Qed.

(** [Number] never brings a nonce of 2^53 or more below 2^53. *)
Lemma Number_large n : 2 ^ 53 <= n -> 2 ^ 53 <= Number n.
Proof.
  intros Hn. unfold Number. destruct (Z.ltb_spec n (2 ^ 53)) as [|_]; [lia|].
  assert (Hlog : 53 <= Z.log2 n).
  { change 53 with (Z.log2 (2 ^ 53)). now apply Z.log2_le_mono. }
  set (sh := Z.log2 n - 52). assert (Hsh : 1 <= sh) by (unfold sh; lia).
  cbv zeta. rewrite Z.shiftl_mul_pow2, Z.shiftr_div_pow2 by lia.
  assert (Hpow : 2 ^ 1 <= 2 ^ sh) by (apply Z.pow_le_mono_r; lia).
  change (2 ^ 1) with 2 in Hpow.
  assert (Hq : 2 ^ 52 <= n / 2 ^ sh).
  { apply Z.div_le_lower_bound; [lia|].
    rewrite Z.mul_comm, <- Z.pow_add_r by lia.
    replace (52 + sh) with (Z.log2 n) by (unfold sh; lia).
    apply Z.log2_spec. lia. }
  change (2 ^ 53) with (2 ^ 52 * 2). change (2 ^ 52) with 4503599627370496 in *.
  destruct (_ || _); nia.
Qed.

(** X22.  The way back, against BridgeLock.  Run the Burn handler over any
    deliveries, replace the relayer's store by any other, and run it over
    any further deliveries, the relayer sending to the contracts of chain
    A: no nonce is unlocked twice, none that BridgeLock had processed is
    unlocked again, the replay map ends as what it was plus the nonces
    unlocked, and [lockNonce] is untouched.  A confirmed, unmarked Burned
    event with a nonce below 2^53 that BridgeLock has not seen and a
    positive amount is unlocked at the first submission and marked, the
    relayer holding RELAYER_ROLE and the vault being funded, whether or not
    the bridge is paused.  A confirmed, unmarked Burned event with a nonce
    of 2^53 or more is never unlocked: each of the three calls throws
    "overflow" before anything is sent, and store and chain stay as they
    were. *)
Theorem burn_unlocks_once_paused_or_not :
  forall (hash : string) (relayer : address) (funded : bool) (D : Z)
         (before after : list (Listener.EventLog * Z))
         (store0 store1 : RelayerDB.t) (chain : ChainA.t),
    let submit := ChainA.submit hash relayer funded in
    let w1 := deliver submit BurnListener.names D before (MkWorld store0 chain []) in
    let w2 := deliver submit BurnListener.names D after
                (MkWorld store1 (dest w1) (trace w1)) in
    (added_once (BridgeLock.processedUnlockNonces (ChainA.bridgeLock chain))
                (released_nonces (submissions (trace w2)))
                (BridgeLock.processedUnlockNonces (ChainA.bridgeLock (dest w2)))
     /\ BridgeLock.lockNonce (ChainA.bridgeLock (dest w2))
        = BridgeLock.lockNonce (ChainA.bridgeLock chain))
    /\ (forall (event : Listener.EventLog) (head : Z) (w : World ChainA.t),
          head - Listener.blockNumber event >= D ->
          RelayerDB.isProcessed (db w) (Number (Listener.nonce event)) "chainB" "Burned"
          = false ->
          0 <= Listener.nonce event < 2 ^ 53 ->
          funded = true ->
          relayer ∈ BridgeLock.relayers (ChainA.bridgeLock (dest w)) ->
          0 < Listener.amount event ->
          Listener.nonce event
          ∉ BridgeLock.processedUnlockNonces (ChainA.bridgeLock (dest w)) ->
          let w' := BurnListener._handleEvent submit D event head w in
          let call := unlock (Listener.user event) (Listener.amount event)
                             (Listener.nonce event) in
          submissions (added (trace w) (trace w')) = [(call, Mined hash)]
          /\ RelayerDB.isProcessed (db w') (Listener.nonce event) "chainB" "Burned" = true
          /\ Listener.nonce event
             ∈ BridgeLock.processedUnlockNonces (ChainA.bridgeLock (dest w'))
          /\ BridgeLock.paused (ChainA.bridgeLock (dest w'))
             = BridgeLock.paused (ChainA.bridgeLock (dest w)))
    /\ (forall (event : Listener.EventLog) (head : Z) (w : World ChainA.t),
          head - Listener.blockNumber event >= D ->
          RelayerDB.isProcessed (db w) (Number (Listener.nonce event)) "chainB" "Burned"
          = false ->
          2 ^ 53 <= Listener.nonce event ->
          let key := Number (Listener.nonce event) in
          let call := unlock (Listener.user event) (Listener.amount event) key in
          let overflow := OtherError "overflow" in
          BurnListener._handleEvent submit D event head w
          = MkWorld (db w) (dest w)
              (trace w ++ Log (Processing key)
                 :: failed_attempt call 1 overflow ++ [Sleep 2000]
                 ++ failed_attempt call 2 overflow ++ [Sleep 2000]
                 ++ failed_attempt call 3 overflow ++ [Log (Critical key)])).
Proof.
  intros hash relayer funded D before after store0 store1 chain submit w1 w2.
  assert (Hhandle : forall event head (w : World ChainA.t),
            head - Listener.blockNumber event >= D ->
            RelayerDB.isProcessed (db w) (Number (Listener.nonce event)) "chainB" "Burned"
            = false ->
            BurnListener._handleEvent submit D event head w
            = submit_with_retry submit
                (MkJob (unlock (Listener.user event) (Listener.amount event)
                               (Number (Listener.nonce event)))
                       (Number (Listener.nonce event)) "chainB" "Burned" "chainB_burn"
                       (Listener.blockNumber event))
                (log (Processing (Number (Listener.nonce event))) w)).
  { intros event head w Hconf Hfresh.
    unfold BurnListener._handleEvent, Listener._handleEvent.
    destruct (Z.ltb_spec (head - Listener.blockNumber event) D); [lia|].
    cbn [Listener.chain Listener.event_type Listener.cursor Listener.destination
         BurnListener.names].
    rewrite Hfresh. reflexivity. }
  split; [|split].
  - destruct (deliver_follows submit BurnListener.names D before (MkWorld store0 chain []))
      as (tr1 & Htr1 & H1).
    destruct (deliver_follows submit BurnListener.names D after
                (MkWorld store1 (dest w1) (trace w1))) as (tr2 & Htr2 & H2).
    fold w1 in Htr1, H1. fold w2 in Htr2, H2. cbn [trace dest] in Htr1, H1, Htr2, H2.
    apply (chainA_follows hash relayer funded (submissions (trace w2))).
    rewrite Htr2, Htr1. simpl. rewrite submissions_app.
    eapply follows_app; eassumption.
  - intros event head w Hconf Hfresh Hsafe -> Hrole Hamount Hnew w' call.
    subst w'. rewrite (Hhandle event head w Hconf Hfresh).
    rewrite (Number_small _ (proj2 Hsafe)). fold call.
    set (job := MkJob call (Listener.nonce event) "chainB" "Burned" "chainB_burn"
                      (Listener.blockNumber event)).
    assert (Hacc : submit (dest w) call
                   = (ChainA.Mk
                        (BridgeLock.Mk
                           (BridgeLock.lockNonce (ChainA.bridgeLock (dest w)))
                           ({[Listener.nonce event]}
                            ∪ BridgeLock.processedUnlockNonces (ChainA.bridgeLock (dest w)))
                           (BridgeLock.paused (ChainA.bridgeLock (dest w)))
                           (BridgeLock.relayers (ChainA.bridgeLock (dest w)))
                           (BridgeLock.admins (ChainA.bridgeLock (dest w))))
                        (ChainA.governanceEmergency (dest w)),
                      Mined hash)).
    { subst submit call. unfold ChainA.submit.
      destruct (Z.ltb_spec MAX_SAFE_INTEGER (Listener.nonce event)) as [Hbig|_].
      { unfold MAX_SAFE_INTEGER in Hbig. lia. }
      cbn [ChainA.call]. unfold BridgeLock.unlock.
      rewrite (bool_decide_eq_true_2 _ Hrole), (bool_decide_eq_false_2 _ Hnew).
      destruct (Z.eqb_spec (Listener.amount event) 0); [lia|]. reflexivity. }
    rewrite (retry_mined_at_once submit job _ _ hash) by exact Hacc.
    cbn [db dest trace ChainA.bridgeLock BridgeLock.processedUnlockNonces BridgeLock.paused].
    split; [|split; [|split; [|reflexivity]]].
    + unfold log. cbn [trace]. rewrite <- app_assoc, added_app. reflexivity.
    + rewrite RelayerDBFacts.isProcessed_setLastBlock.
      apply RelayerDBFacts.isProcessed_markProcessed.
    + apply elem_of_union. left. now apply elem_of_singleton.
  - intros event head w Hconf Hfresh Hbig key call overflow.
    rewrite (Hhandle event head w Hconf Hfresh). fold key. fold call.
    set (job := MkJob call key "chainB" "Burned" "chainB_burn"
                      (Listener.blockNumber event)).
    assert (Hrej : submit (dest (log (Processing key) w)) (job_call job)
                   = (dest (log (Processing key) w), Threw overflow)).
    { subst submit call job. cbn [job_call dest log]. unfold ChainA.submit.
      pose proof (Number_large _ Hbig) as Hkey. fold key in Hkey.
      destruct (Z.ltb_spec MAX_SAFE_INTEGER key) as [_|Hsmall]; [reflexivity|].
      unfold MAX_SAFE_INTEGER in Hsmall. lia. }
    rewrite (submit_with_retry_rejected submit job _ overflow Hrej).
    unfold log. cbn [db dest trace job_call job_nonce job]. now rewrite <- app_assoc.
Qed.

Lemma burn_unlocks_once_paused_or_not_witness :
  let chain := ChainA.Mk
                 (set_paused true
                    (ChainA.bridgeLock
                       (ChainA.deployed "0xDeployer" "0xRelayer" "0xEmergency")))
                 (GovernanceEmergency.Mk "0xEmergency" {["0xRelayer"]}) in
  let w' := BurnListener._handleEvent (ChainA.submit Sample.tx1 "0xRelayer" true) 3
              Sample.locked0 60 (MkWorld RelayerDB.empty chain []) in
  RelayerDB.isProcessed (db w') 0 "chainB" "Burned" = true
  /\ BridgeLock.paused (ChainA.bridgeLock (dest w')) = true.
Proof.
  pose proof (proj1 (proj2 (burn_unlocks_once_paused_or_not Sample.tx1 "0xRelayer" true 3
                              [] [] RelayerDB.empty RelayerDB.empty
                              (ChainA.deployed "0xDeployer" "0xRelayer" "0xEmergency")))
                Sample.locked0 60
                (MkWorld RelayerDB.empty
                   (ChainA.Mk
                      (set_paused true
                         (ChainA.bridgeLock
                            (ChainA.deployed "0xDeployer" "0xRelayer" "0xEmergency")))
                      (GovernanceEmergency.Mk "0xEmergency" {["0xRelayer"]})) [])
                ltac:(simpl; lia) eq_refl
                ltac:(change (2 ^ 53) with 9007199254740992; simpl; lia) eq_refl
                ltac:(cbn; apply elem_of_union; right; apply elem_of_singleton;
                      reflexivity)
                ltac:(simpl; lia)
                ltac:(cbn; apply not_elem_of_empty)) as H.
  destruct H as (_ & Hm & _ & Hp). split; [exact Hm | exact Hp].
Defined.

(** ** Recovery relays what was missed *)

Lemma isProcessed_markProcessed_ne db n c tx e n' c' e' :
  n <> n' ->
  RelayerDB.isProcessed (RelayerDB.markProcessed db n c tx e) n' c' e'
  = RelayerDB.isProcessed db n' c' e'.
Proof.
  intros Hne. apply isProcessed_markProcessed_other.
  unfold RelayerDB.where_key. cbn [RelayerDB.nonce].
  now destruct (Z.eqb_spec n n').
Qed.

Section RecoveryRelays.

Import Listener.

Context {DState : Type}.
Variable submit : DState -> DestCall -> DState * Outcome.
Variable names : Names.
Variable D : Z.
Variable hash : string.

(** [ready d c]: the destination in state [d] mines the call [c], and
    goes on doing so for the calls of other nonces. *)
Variable ready : DState -> DestCall -> Prop.
Hypothesis ready_mines :
  forall d c, ready d c ->
    exists d', submit d c = (d', Mined hash)
               /\ forall c', call_nonce c' <> call_nonce c -> ready d c' -> ready d' c'.
Hypothesis destination_nonce :
  forall u a n, call_nonce (destination names u a n) = Some n.

Local Abbreviation key ev := (Number (nonce ev)).
Local Abbreviation call ev := (destination names (user ev) (amount ev) (Number (nonce ev))).

(** A pass over events whose ripe ones are ready, unmarked and of
    different keys submits each ripe one once, mined, in order, and marks
    it. *)
Lemma handle_all_relays events : forall H (w : World DState),
  NoDup ((fun ev => key ev) <$> ripe D H events) ->
  Forall (fun ev => ready (dest w) (call ev)
                    /\ RelayerDB.isProcessed (db w) (key ev) (chain names)
                                             (event_type names) = false)
         (ripe D H events) ->
  exists tr,
    trace (handle_all submit names D events H w) = trace w ++ tr
    /\ submissions tr = (fun ev => (call ev, Mined hash)) <$> ripe D H events
    /\ Forall (fun ev => RelayerDB.isProcessed
                           (db (handle_all submit names D events H w)) (key ev)
                           (chain names) (event_type names) = true)
              (ripe D H events).
Proof.
  induction events as [|x events IH]; intros H w Hnd Hall.
  { exists []. cbn. rewrite app_nil_r. split; [reflexivity|]. split; [reflexivity|].
    constructor. }
  change (handle_all submit names D (x :: events) H w)
    with (handle_all submit names D events H (_handleEvent submit names D x H w)).
  unfold ripe in *. rewrite filter_cons in *.
  destruct (decide (H - blockNumber x >= D)) as [Hripe|Hnot].
  - rewrite fmap_cons in Hnd. apply NoDup_cons in Hnd as [Hnew Hnd].
    apply Forall_cons in Hall as [[Hready Hfresh] Hall].
    destruct (ready_mines _ _ Hready) as (d' & Hs & Hkeep).
    assert (Hx : _handleEvent submit names D x H w
                 = MkWorld (RelayerDB.setLastBlock
                              (RelayerDB.markProcessed (db w) (key x) (chain names) hash
                                                       (event_type names))
                              (cursor names) (blockNumber x))
                           d'
                           (trace w ++ Log (Processing (key x))
                              :: relayed (MkJob (call x) (key x) (chain names)
                                                (event_type names) (cursor names)
                                                (blockNumber x)) hash)).
    { rewrite handle_submits by assumption.
      rewrite (retry_mined_at_once submit _ _ d' hash) by exact Hs.
      unfold log. cbn [db dest trace]. now rewrite <- app_assoc. }
    rewrite Hx.
    match goal with |- context [handle_all submit names D events H ?w0] =>
      set (w1 := w0) end.
    destruct (IH H w1 Hnd) as (tr & Htr & Hsub & Hmarked).
    { apply Forall_forall. intros ev Hin.
      pose proof (proj1 (Forall_forall _ _) Hall ev Hin) as [Hr Hf].
      assert (Hne : key x <> key ev).
      { intros Heq. apply Hnew. rewrite Heq.
        apply (list_elem_of_fmap_2 (fun ev => key ev)). exact Hin. }
      subst w1. cbn [db dest]. split.
      - apply Hkeep; [|exact Hr]. rewrite !destination_nonce. congruence.
      - rewrite RelayerDBFacts.isProcessed_setLastBlock.
        now rewrite isProcessed_markProcessed_ne. }
    eexists. split; [rewrite Htr; subst w1; cbn [trace]; rewrite <- app_assoc; reflexivity|].
    split.
    + change (Log (Processing (key x)) :: relayed ?j hash)
        with ([Log (Processing (key x))] ++ relayed j hash).
      rewrite !submissions_app, Hsub. reflexivity.
    + constructor; [|exact Hmarked].
      apply handle_all_keeps_marks. subst w1. cbn [db].
      rewrite RelayerDBFacts.isProcessed_setLastBlock.
      apply RelayerDBFacts.isProcessed_markProcessed.
  - rewrite handle_unconfirmed by lia.
    destruct (IH H (log (NotYetConfirmed (key x)) w) Hnd Hall) as (tr & Htr & Hsub & Hmarked).
    eexists. split; [rewrite Htr; unfold log; cbn [trace]; rewrite <- app_assoc; reflexivity|].
    split; [|exact Hmarked].
    rewrite submissions_app. exact Hsub.
Qed.

Lemma recover_relays (src : Source) (w : World DState) :
  let C := RelayerDB.getLastBlock (db w) (cursor names) in
  let H := getBlockNumber src in
  let missed := ripe D H (queryFilter src (C + 1) H) in
  C < H ->
  NoDup ((fun ev => key ev) <$> missed) ->
  Forall (fun ev => ready (dest w) (call ev)
                    /\ RelayerDB.isProcessed (db w) (key ev) (chain names)
                                             (event_type names) = false) missed ->
  let w' := recoverMissedEvents submit names D src w in
  submissions (added (trace w) (trace w')) = (fun ev => (call ev, Mined hash)) <$> missed
  /\ Forall (fun ev => RelayerDB.isProcessed (db w') (key ev) (chain names)
                                             (event_type names) = true) missed
  /\ RelayerDB.getLastBlock (db w') (cursor names) = H.
Proof.
  intros C H missed Hbehind Hnd Hall w'. subst w' C H missed.
  unfold recoverMissedEvents.
  destruct (Z.geb_spec (RelayerDB.getLastBlock (db w) (cursor names)) (getBlockNumber src));
    [lia|].
  match goal with |- context [handle_all submit names D ?evs ?h ?w0] =>
    destruct (handle_all_relays evs h w0 Hnd Hall) as (tr & Htr & Hsub & Hmarked) end.
  unfold setLastBlock. cbn [db trace]. rewrite Htr. unfold log. cbn [trace].
  rewrite <- !app_assoc, added_app.
  split; [|split].
  - change (Log ?m :: tr ++ ?l) with ([Log m] ++ tr ++ l).
    rewrite !submissions_app, Hsub. cbn. now rewrite app_nil_r.
  - eapply Forall_impl; [exact Hmarked|]. intros ev Hm. cbv beta in *.
    now rewrite RelayerDBFacts.isProcessed_setLastBlock.
  - apply RelayerDBFacts.getLastBlock_setLastBlock.
Qed.

End RecoveryRelays.

(** BridgeMint mines a [mintWrapped] of a safe, unseen nonce and a nonzero
    amount; BridgeLock mines such an [unlock] sent by a relayer, the vault
    being funded. *)
Lemma bridge_mint_ready hash (d : gset Z) c :
  (exists u a n, c = mintWrapped u a n /\ n < 2 ^ 53 /\ a <> 0 /\ (n ∉ d)) ->
  exists d', BridgeMint.submit hash d c = (d', Mined hash)
             /\ forall c', call_nonce c' <> call_nonce c ->
                  (exists u a n, c' = mintWrapped u a n /\ n < 2 ^ 53 /\ a <> 0 /\ (n ∉ d)) ->
                  (exists u a n, c' = mintWrapped u a n /\ n < 2 ^ 53 /\ a <> 0 /\ (n ∉ d')).
Proof.
  intros (u & a & n & -> & Hsafe & Ha & Hn). unfold BridgeMint.submit.
  destruct (Z.ltb_spec MAX_SAFE_INTEGER n) as [Hbig|_];
    [unfold MAX_SAFE_INTEGER in Hbig; lia|].
  destruct (decide (n ∈ d)); [contradiction|].
  destruct (Z.eqb_spec a 0); [contradiction|].
  eexists. split; [reflexivity|].
  intros c' Hne (u' & a' & n' & -> & Hsafe' & Ha' & Hn'). exists u', a', n'.
  split; [reflexivity|]. split; [exact Hsafe'|]. split; [exact Ha'|].
  intros Hin. apply elem_of_union in Hin as [Hin|Hin]; [|contradiction].
  apply elem_of_singleton in Hin. subst n'. now apply Hne.
Qed.

Lemma bridge_lock_ready hash relayer (d : ChainA.t) c :
  (exists u a n, c = unlock u a n /\ n < 2 ^ 53 /\ a <> 0
                 /\ (n ∉ BridgeLock.processedUnlockNonces (ChainA.bridgeLock d))
                 /\ (relayer ∈ BridgeLock.relayers (ChainA.bridgeLock d))) ->
  exists d', ChainA.submit hash relayer true d c = (d', Mined hash)
             /\ forall c', call_nonce c' <> call_nonce c ->
                  (exists u a n, c' = unlock u a n /\ n < 2 ^ 53 /\ a <> 0
                     /\ (n ∉ BridgeLock.processedUnlockNonces (ChainA.bridgeLock d))
                     /\ (relayer ∈ BridgeLock.relayers (ChainA.bridgeLock d))) ->
                  (exists u a n, c' = unlock u a n /\ n < 2 ^ 53 /\ a <> 0
                     /\ (n ∉ BridgeLock.processedUnlockNonces (ChainA.bridgeLock d'))
                     /\ (relayer ∈ BridgeLock.relayers (ChainA.bridgeLock d'))).
Proof.
  intros (u & a & n & -> & Hsafe & Ha & Hn & Hrole). unfold ChainA.submit.
  destruct (Z.ltb_spec MAX_SAFE_INTEGER n) as [Hbig|_];
    [unfold MAX_SAFE_INTEGER in Hbig; lia|].
  cbn [ChainA.call]. unfold BridgeLock.unlock.
  rewrite (bool_decide_eq_true_2 _ Hrole), (bool_decide_eq_false_2 _ Hn).
  destruct (Z.eqb_spec a 0); [contradiction|]. cbn.
  eexists. split; [reflexivity|].
  intros c' Hne (u' & a' & n' & -> & Hsafe' & Ha' & Hn' & Hrole').
  exists u', a', n'. cbn.
  split; [reflexivity|]. split; [exact Hsafe'|]. split; [exact Ha'|].
  split; [|exact Hrole'].
  intros Hin. apply elem_of_union in Hin as [Hin|Hin]; [|contradiction].
  apply elem_of_singleton in Hin. subst n'. now apply Hne.
Qed.

Lemma fmap_agree {A B} (f g : A -> B) (l : list A) :
  Forall (fun x => f x = g x) l -> f <$> l = g <$> l.
Proof.
  induction 1 as [|x l Hx _ IH]; [reflexivity|]. rewrite !fmap_cons. congruence.
Qed.

(** X5.  Crash recovery relays the events that were missed.  Take a
    recovery pass of the Lock listener against BridgeMint, the store's
    cursor below the head H, and the Locked events the source holds in
    blocks C+1..H that are at least D below H.  When these have pairwise
    different nonces, all below 2^53, positive amounts, and are neither
    marked in the store nor known to BridgeMint, the pass submits
    [mintWrapped] for each of them once, in the order of the source, every
    one mined at the first attempt; it submits nothing else, leaves each
    of them marked, and sets the cursor to H.  So does a pass of the Burn
    listener with [unlock] against BridgeLock, the relayer holding
    RELAYER_ROLE and the vault being funded. *)
Theorem recovery_relays_missed_events :
  forall (hash : string) (relayer : address) (D : Z) (src : Listener.Source)
         (wl : World (gset Z)) (wb : World ChainA.t),
    (let C := RelayerDB.getLastBlock (db wl) "chainA_lock" in
     let H := Listener.getBlockNumber src in
     let missed := ripe D H (Listener.queryFilter src (C + 1) H) in
     C < H ->
     NoDup (Listener.nonce <$> missed) ->
     Forall (fun ev => 0 <= Listener.nonce ev < 2 ^ 53
                       /\ 0 < Listener.amount ev
                       /\ (Listener.nonce ev ∉ dest wl)
                       /\ RelayerDB.isProcessed (db wl) (Listener.nonce ev) "chainA"
                                                "Locked" = false) missed ->
     let w' := LockListener.recoverMissedEvents (BridgeMint.submit hash) D src wl in
     submissions (added (trace wl) (trace w'))
     = (fun ev => (mintWrapped (Listener.user ev) (Listener.amount ev) (Listener.nonce ev),
                   Mined hash)) <$> missed
     /\ Forall (fun ev => RelayerDB.isProcessed (db w') (Listener.nonce ev) "chainA"
                                                "Locked" = true) missed
     /\ RelayerDB.getLastBlock (db w') "chainA_lock" = H)
    /\ (let C := RelayerDB.getLastBlock (db wb) "chainB_burn" in
        let H := Listener.getBlockNumber src in
        let missed := ripe D H (Listener.queryFilter src (C + 1) H) in
        C < H ->
        NoDup (Listener.nonce <$> missed) ->
        relayer ∈ BridgeLock.relayers (ChainA.bridgeLock (dest wb)) ->
        Forall (fun ev => 0 <= Listener.nonce ev < 2 ^ 53
                          /\ 0 < Listener.amount ev
                          /\ (Listener.nonce ev
                              ∉ BridgeLock.processedUnlockNonces
                                  (ChainA.bridgeLock (dest wb)))
                          /\ RelayerDB.isProcessed (db wb) (Listener.nonce ev) "chainB"
                                                   "Burned" = false) missed ->
        let w' := BurnListener.recoverMissedEvents (ChainA.submit hash relayer true) D
                    src wb in
        submissions (added (trace wb) (trace w'))
        = (fun ev => (unlock (Listener.user ev) (Listener.amount ev) (Listener.nonce ev),
                      Mined hash)) <$> missed
        /\ Forall (fun ev => RelayerDB.isProcessed (db w') (Listener.nonce ev) "chainB"
                                                   "Burned" = true) missed
        /\ RelayerDB.getLastBlock (db w') "chainB_burn" = H).
Proof.
  intros hash relayer D src wl wb. split.
  - intros C H missed Hbehind Hnd Hall w'.
    assert (Hkeys : Forall (fun ev => Number (Listener.nonce ev) = Listener.nonce ev) missed).
    { eapply Forall_impl; [exact Hall|]. intros ev (Hsafe & _).
      apply Number_small. lia. }
    pose proof (recover_relays (BridgeMint.submit hash) LockListener.names D hash
                  (fun d c => exists u a n, c = mintWrapped u a n /\ n < 2 ^ 53 /\ a <> 0
                                            /\ (n ∉ d))
                  (bridge_mint_ready hash) (fun u a n => eq_refl) src wl) as R.
    cbv zeta in R.
    cbn [Listener.cursor Listener.chain Listener.event_type Listener.destination
         LockListener.names] in R.
    fold C H missed in R. fold (@LockListener.recoverMissedEvents (gset Z)) in R.
    destruct (R Hbehind) as (Hsub & Hmarked & Hcursor).
    + rewrite (fmap_agree (fun ev => Number (Listener.nonce ev)) Listener.nonce missed Hkeys).
      exact Hnd.
    + apply Forall_forall. intros ev Hin.
      pose proof (proj1 (Forall_forall _ _) Hall ev Hin) as (Hsafe & Ha & Hn & Hf).
      rewrite (Number_small _ (proj2 Hsafe)). split; [|exact Hf].
      exists (Listener.user ev), (Listener.amount ev), (Listener.nonce ev).
      repeat (split; [auto; lia|]). auto.
    + split; [|split; [|exact Hcursor]].
      * etransitivity; [exact Hsub|]. apply fmap_agree.
        eapply Forall_impl; [exact Hkeys|]. intros ev Hk. cbv beta in *.
        now rewrite Hk.
      * apply Forall_forall. intros ev Hin.
        pose proof (proj1 (Forall_forall _ _) Hmarked ev Hin) as Hm.
        pose proof (proj1 (Forall_forall _ _) Hkeys ev Hin) as Hk.
        cbv beta in *. now rewrite Hk in Hm.
  - intros C H missed Hbehind Hnd Hrole Hall w'.
    assert (Hkeys : Forall (fun ev => Number (Listener.nonce ev) = Listener.nonce ev) missed).
    { eapply Forall_impl; [exact Hall|]. intros ev (Hsafe & _).
      apply Number_small. lia. }
    pose proof (recover_relays (ChainA.submit hash relayer true) BurnListener.names D hash
                  (fun d c => exists u a n,
                       c = unlock u a n /\ n < 2 ^ 53 /\ a <> 0
                       /\ (n ∉ BridgeLock.processedUnlockNonces (ChainA.bridgeLock d))
                       /\ (relayer ∈ BridgeLock.relayers (ChainA.bridgeLock d)))
                  (bridge_lock_ready hash relayer) (fun u a n => eq_refl) src wb) as R.
    cbv zeta in R.
    cbn [Listener.cursor Listener.chain Listener.event_type Listener.destination
         BurnListener.names] in R.
    fold C H missed in R. fold (@BurnListener.recoverMissedEvents ChainA.t) in R.
    destruct (R Hbehind) as (Hsub & Hmarked & Hcursor).
    + rewrite (fmap_agree (fun ev => Number (Listener.nonce ev)) Listener.nonce missed Hkeys).
      exact Hnd.
    + apply Forall_forall. intros ev Hin.
      pose proof (proj1 (Forall_forall _ _) Hall ev Hin) as (Hsafe & Ha & Hn & Hf).
      rewrite (Number_small _ (proj2 Hsafe)). split; [|exact Hf].
      exists (Listener.user ev), (Listener.amount ev), (Listener.nonce ev).
      repeat (split; [auto; lia|]). auto.
    + split; [|split; [|exact Hcursor]].
      * etransitivity; [exact Hsub|]. apply fmap_agree.
        eapply Forall_impl; [exact Hkeys|]. intros ev Hk. cbv beta in *.
        now rewrite Hk.
      * apply Forall_forall. intros ev Hin.
        pose proof (proj1 (Forall_forall _ _) Hmarked ev Hin) as Hm.
        pose proof (proj1 (Forall_forall _ _) Hkeys ev Hin) as Hk.
        cbv beta in *. now rewrite Hk in Hm.
Qed.

Lemma recovery_relays_missed_events_witness :
  let w' := LockListener.recoverMissedEvents (BridgeMint.submit Sample.tx1) 3
              (Listener.MkSource 60 [Sample.locked0; Sample.locked1])
              (MkWorld Sample.db40 ∅ []) in
  submissions (trace w')
  = [(mintWrapped Sample.account 100 0, Mined Sample.tx1);
     (mintWrapped Sample.account 7 1, Mined Sample.tx1)]
  /\ RelayerDB.getLastBlock (db w') "chainA_lock" = 60.
Proof.
  destruct (proj1 (recovery_relays_missed_events Sample.tx1 "0xRelayer" 3
                     (Listener.MkSource 60 [Sample.locked0; Sample.locked1])
                     (MkWorld Sample.db40 ∅ [])
                     (MkWorld RelayerDB.empty
                        (ChainA.deployed "0xDeployer" "0xRelayer" "0xEmergency") []))
              ltac:(vm_compute; reflexivity)
              ltac:(apply (bool_decide_unpack _); vm_compute; exact I)
              ltac:(apply (bool_decide_unpack _); vm_compute; exact I))
    as (Hs & _ & Hc).
  split; [exact Hs | exact Hc].
Defined.
